(** * TerraBot: progression and encounter engine

    A shallow embedding of [src/utils/LevelManager.js] (message-XP
    leveling) and of the [AdventureManager] class (hunt, train, daily,
    shop, equip, travel), with the properties the specification states
    about them, followed by properties read off the code itself: the
    leaderboard, the message gate and its cooldown, the inventory, the
    shop, what the handlers leave alone and what they keep invariant.

    Conventions of the embedding.
    - JavaScript numbers that hold integers (XP, levels, gold, stats,
      timestamps in milliseconds) are [Z].  [Math.floor (a / b)] on such
      numbers is [Z.div], [Math.ceil (a / b)] is [ceil_div],
      [Math.floor (1 + Math.sqrt (x / 100))] is [1 + Z.sqrt (x / 100)].
      Where the rounding of binary64 is visible, the percentage of
      [getProgress] and the threshold
      [Math.floor (100 * Math.pow (1.2, level - 1))] of the level-up
      routine, the expression is evaluated on primitive floats.
    - A power of [1.2] is not exact in binary64, and the language leaves
      the last bit of [Math.pow] to the implementation: the function of
      the engine that runs the bot is a parameter of the embedding
      ([Math.Pow]), and [Sample.pow] stands for it in the examples.  The
      square [Math.pow (level, 2)] of [getXpNeeded] is exact, and is
      [level ^ 2].
    - [Math.random ()] is a stream of rationals in [0,1); [Date.now ()] is
      an argument of each handler (time does not advance inside one call).
    - An exception is a [Throw] outcome of a small state-and-error monad;
      state written before the exception stays written, as in JavaScript.
    - Catalogs are JavaScript [Map]s filled from [Object.entries]; they are
      association lists in insertion order (the treasure roll indexes into
      that order). *)

From Stdlib Require Import ZArith QArith Qround Lia List String Ascii Bool.
From Stdlib Require Import Sorted Permutation.
From Stdlib Require Import PrimFloat FloatOps SpecFloat Uint63.
From stdpp Require Import gmap strings.

(* A decimal literal such as 1.2 denotes the nearest double, as in
   JavaScript. *)
Set Warnings "-inexact-float".

Local Open Scope string_scope.
Local Open Scope Z_scope.

(** ** JavaScript helpers *)

Module JS.

(** [Math.ceil (a / b)] for integers, [b > 0]. *)
Definition ceil_div (a b : Z) : Z := - ((- a) / b).

(** [s.split("@")[0]]: the part of [s] before its first ['@']. *)
Fixpoint before_at (s : string) : string :=
  match s with
  | EmptyString => EmptyString
  | String c rest =>
      if Ascii.eqb c "@"%char then EmptyString else String c (before_at rest)
  end.

(** Truthiness of a string value: only the empty string is falsy. *)
Definition truthy_str (s : string) : bool := negb (String.eqb s "").

(** Truthiness of an optional string ([null]/[undefined] is falsy). *)
Definition truthy_ostr (o : option string) : bool :=
  match o with Some s => truthy_str s | None => false end.

(** Truthiness of an optional number ([undefined] and [0] are falsy). *)
Definition truthy_onum (o : option Z) : bool :=
  match o with Some n => negb (n =? 0) | None => false end.

(** [a < b] and [a <= b] on rationals, as booleans. *)
Definition Qltb (a b : Q) : bool := negb (Qle_bool b a).

(** [Math.floor (r * n)] for a random draw [r] and an integer [n]. *)
Definition floor_mul (r : Q) (n : Z) : Z := Qfloor (r * inject_Z n).

(** [arr[i]] for a JavaScript array: [undefined] out of range. *)
Definition index {A} (l : list A) (i : Z) : option A :=
  if i <? 0 then None else nth_error l (Z.to_nat i).

(** [Map.prototype.get] on a map kept in insertion order. *)
Fixpoint map_get {A} (m : list (string * A)) (k : string) : option A :=
  match m with
  | [] => None
  | (k', v) :: rest => if String.eqb k' k then Some v else map_get rest k
  end.

End JS.

(** ** Data model *)

(** Item catalog entry.  [required_level], [restore] and the boosts are
    absent on some entries (materials have no [required_level]). *)
Record Item := mkItem {
  item_name : string;
  item_type : string;
  item_value : Z;
  item_required_level : option Z;
  item_restore : option Z;
  item_attackBoost : option Z;
  item_defenseBoost : option Z;
  item_speedBoost : option Z
}.

Record GoldReward := mkGoldReward { gold_min : Z; gold_max : Z }.

Record Monster := mkMonster {
  monster_name : string;
  monster_minLevel : Z;
  monster_maxLevel : Z;
  monster_health : Z;
  monster_attack : Z;
  monster_defense : Z;
  monster_speed : Z;
  monster_xpReward : Z;
  monster_goldReward : GoldReward;
  monster_dropChance : Q;
  monster_possibleDrops : list string
}.

Record Location := mkLocation {
  location_name : string;
  location_safeZone : bool;
  location_minLevel : option Z;
  location_commonMonsters : list string;
  location_rareMonsters : list string
}.

Record Catalog := mkCatalog {
  items : list (string * Item);
  monsters : list (string * Monster);
  locations : list (string * Location)
}.

Record Stats := mkStats {
  health : Z;
  maxHealth : Z;
  attack : Z;
  defense : Z;
  speed : Z
}.

(** One inventory line [{id, quantity}]. *)
Record InvItem := mkInvItem { inv_id : string; quantity : Z }.

Record Inventory := mkInventory { gold : Z; inv_items : list InvItem }.

Record Equipment := mkEquipment {
  weapon : option string;
  armor : option string;
  accessory : option string
}.

Record Cooldowns := mkCooldowns {
  cd_hunt : Z;
  cd_train : Z;
  cd_daily : Z;
  cd_quest : Z
}.

(** The adventure profile ([userData.adventure]). *)
Record Adventure := mkAdventure {
  adv_name : string;
  adv_level : Z;
  adv_xp : Z;
  adv_xpNeeded : Z;
  stats : Stats;
  inventory : Inventory;
  equipment : Equipment;
  adv_location : string;
  questsCompleted : list string;
  monstersDefeated : Z;
  cooldowns : Cooldowns;
  adv_joinedAt : Z;
  lastPlayed : Z
}.

(** The leveling record of [LevelManager.getUserData]. *)
Record UserData := mkUserData {
  jid : string;
  pushName : string;
  xp : Z;
  level : Z;
  messages : Z;
  lastActive : Z;
  joinedAt : Z;
  groups : list string
}.

(** What the store holds under a user key.  [LevelManager] stores a
    leveling record, with the adventure profile as its [adventure] field
    once initialised.  [AdventureManager.updateUserData] is also called
    with the adventure profile itself, which then sits under the key: a
    bare profile has no leveling fields ([pushName] only if the leveling
    engine set it later; [messages], [groups], [lastActive] undefined) and
    no [adventure] field until [getUserData] adds one. *)
Inductive Stored :=
| SUser (u : UserData) (adv : option Adventure)
| SAdv (a : Adventure) (pn : option string) (adv : option Adventure).

Definition stored_adventure (e : Stored) : option Adventure :=
  match e with SUser _ adv => adv | SAdv _ _ adv => adv end.

Definition set_stored_adventure (e : Stored) (a : Adventure) : Stored :=
  match e with
  | SUser u _ => SUser u (Some a)
  | SAdv a0 pn _ => SAdv a0 pn (Some a)
  end.

(** [userData.pushName] as a JavaScript value. *)
Definition stored_pushName (e : Stored) : option string :=
  match e with SUser u _ => Some (pushName u) | SAdv _ pn _ => pn end.

(** ** Random draws *)

(** A draw of [Math.random ()] is a rational in [0,1): [num / (num + gap + 1)].
    The stream [rnd] of a [World] holds the successive draws. *)
Record Draw := mkDraw { num : nat; gap : nat }.

Definition draw_val (d : Draw) : Q :=
  Z.of_nat (num d) # Pos.of_succ_nat (num d + gap d).

(** ** The store, the world and the handler monad *)

(** Modelled from the spec: the key-value store ([DatabaseManager], not
    among the sources).  [get] returns the record under a key, [set]
    replaces it in memory, [save] flushes memory to durable storage and is
    the operation that can fail with an I/O error.  Records are values
    here: the store changes at [set] only, and the profile object a
    handler updates in place is followed separately (the [object] of a
    [Run]); the interface does not say whether [get] hands out the
    store's own object, in which case that object is what the store
    holds. *)
Record World := mkWorld {
  mem : gmap string Stored;
  disk : gmap string Stored;
  xpCooldowns : gmap string Z;
  rnd : nat -> Draw;
  rpos : nat;
  flush_ok : nat -> bool;
  fpos : nat
}.

Inductive Exn := ReferenceError | TypeError | IOError.

Inductive Outcome (A : Type) :=
| Ret (a : A)
| Throw (e : Exn).
Arguments Ret {A} a.
Arguments Throw {A} e.

(** State-and-exception monad: the state survives a [Throw]. *)
Definition M (S A : Type) : Type := S -> Outcome A * S.

Definition ret {S A} (a : A) : M S A := fun s => (Ret a, s).

Definition throw {S A} (e : Exn) : M S A := fun s => (Throw e, s).

Definition bind {S A B} (m : M S A) (k : A -> M S B) : M S B :=
  fun s => match m s with
           | (Ret a, s') => k a s'
           | (Throw e, s') => (Throw e, s')
           end.

Notation "x <- c1 ;; c2" := (bind c1 (fun x => c2))
  (at level 100, c1 at next level, right associativity).
Notation "c1 ;;; c2" := (bind c1 (fun _ => c2))
  (at level 100, right associativity).

Module Db.

Definition get (k : string) : M World (option Stored) :=
  fun w => (Ret (mem w !! k), w).

Definition set (k : string) (v : Stored) : M World unit :=
  fun w => (Ret tt,
            mkWorld (<[k := v]> (mem w)) (disk w) (xpCooldowns w)
                    (rnd w) (rpos w) (flush_ok w) (fpos w)).

Definition save : M World unit :=
  fun w =>
    if flush_ok w (fpos w)
    then (Ret tt, mkWorld (mem w) (mem w) (xpCooldowns w)
                          (rnd w) (rpos w) (flush_ok w) (S (fpos w)))
    else (Throw IOError, mkWorld (mem w) (disk w) (xpCooldowns w)
                                 (rnd w) (rpos w) (flush_ok w) (S (fpos w))).

End Db.

(** [Math.random ()]. *)
Definition random : M World Q :=
  fun w => (Ret (draw_val (rnd w (rpos w))),
            mkWorld (mem w) (disk w) (xpCooldowns w)
                    (rnd w) (S (rpos w)) (flush_ok w) (fpos w)).

(** ** Binary64 helpers *)

Module F64.

(** An integer of magnitude below [2^53] as a double. *)
Definition of_Z (z : Z) : float :=
  if z <? 0 then PrimFloat.opp (PrimFloat.of_uint63 (Uint63.of_Z (- z)))
  else PrimFloat.of_uint63 (Uint63.of_Z z).

Inductive fnum := FNaN | FInf (negative : bool) | FInt (z : Z).

(** [Math.floor] of a double. *)
Definition floor (f : float) : fnum :=
  match Prim2SF f with
  | S754_zero _ => FInt 0
  | S754_infinity s => FInf s
  | S754_nan => FNaN
  | S754_finite s m e =>
      let n := if s then Z.neg m else Z.pos m in
      FInt (if 0 <=? e then n * 2 ^ e else n / 2 ^ (- e))
  end.

(** [Math.min (100, Math.max (0, x))]; [NaN] stays [NaN] ([None]). *)
Definition clamp_percent (x : fnum) : option Z :=
  match x with
  | FNaN => None
  | FInf true => Some 0
  | FInf false => Some 100
  | FInt z => Some (Z.min 100 (Z.max 0 z))
  end.

(** A floored double among the integers of the model.  [Infinity] is
    [2 ^ 1024], above every double: a finite number compared with it
    compares as with [Infinity].  [NaN] is no number. *)
Definition num (x : fnum) : Z :=
  match x with
  | FInt z => z
  | FInf negative => if negative then - 2 ^ 1024 else 2 ^ 1024
  | FNaN => 0
  end.

(** [x] is a number, [Infinity] included, and at least [z]. *)
Definition at_least (z : Z) (x : fnum) : Prop :=
  match x with
  | FInt n => z <= n
  | FInf negative => negative = false
  | FNaN => False
  end.

End F64.

(** ** [Math.pow]

    ECMAScript asks of [Math.pow] an implementation-approximated result,
    and engines differ in the last bit of a power; the thresholds of the
    level-up routine, [Math.floor (100 * Math.pow (1.2, level - 1))],
    inherit the difference.  The function of the engine is therefore a
    parameter: [pow x k] is [Math.pow (x, k)] for an integer [k].  Of the
    engine the embedding asks the one value the language fixes,
    [Math.pow (x, 0) = 1], and that the scaled powers of [1.2] are
    numbers, at least [100] for [k >= 0] and never negative: with that
    the [while] loop of the level-up routine comes to an end. *)
Module Math.

Class Pow := {
  pow : float -> Z -> float;
  pow_zero : forall x, pow x 0 = 1%float;
  pow_scaled : forall k,
    F64.at_least (if 0 <=? k then 100 else 0)
                 (F64.floor (100 * pow 1.2 k)%float)
}.

End Math.

(** ** LevelManager *)

Module LevelManager.

Definition messageXpMin : Z := 10.
Definition messageXpMax : Z := 25.
Definition xpCooldown : Z := 5000.
Definition maxLevel : Z := 248.
Definition minMessageLength : Z := 3.

Definition saveData : M World unit := Db.save.

Definition set_pushName (e : Stored) (p : string) : Stored :=
  match e with
  | SUser u adv =>
      SUser (mkUserData (jid u) p (xp u) (level u) (messages u)
                        (lastActive u) (joinedAt u) (groups u)) adv
  | SAdv a _ adv => SAdv a (Some p) adv
  end.

Definition ostr_eqb (a b : option string) : bool :=
  match a, b with
  | Some x, Some y => String.eqb x y
  | None, None => true
  | _, _ => false
  end.

Definition getUserData (now : Z) (userId : string)
    (pushName : option string) : M World Stored :=
  let cleanUserId := JS.before_at userId in
  e <- Db.get cleanUserId ;;
  match e with
  | None =>
      let userData :=
        SUser (mkUserData userId
                 (match pushName with
                  | Some p => if JS.truthy_str p then p else cleanUserId
                  | None => cleanUserId
                  end)
                 0 1 0 now now []) None in
      Db.set cleanUserId userData ;;;
      ret userData
  | Some userData =>
      match pushName with
      | Some p =>
          if JS.truthy_str p
             && negb (ostr_eqb (stored_pushName userData) (Some p))
          then
            let userData' := set_pushName userData p in
            Db.set cleanUserId userData' ;;;
            ret userData'
          else ret userData
      | None => ret userData
      end
  end.

(** [Math.min (Math.floor (1 + Math.sqrt (xp / 100)), maxLevel)]; the
    square root of a negative number is [NaN], here [None]. *)
Definition computeLevel (xp : Z) : option Z :=
  if xp <? 0 then None
  else Some (Z.min (1 + Z.sqrt (xp / 100)) maxLevel).

(** The same expression as binary64 computes it: a division, a square
    root, an addition (each rounded once) and [Math.floor]. *)
Definition computeLevel_f64 (xp : Z) : option Z :=
  match F64.floor
          (PrimFloat.add (F64.of_Z 1)
             (PrimFloat.sqrt (PrimFloat.div (F64.of_Z xp) (F64.of_Z 100)))) with
  | F64.FInt z => Some (Z.min z maxLevel)
  | F64.FInf false => Some maxLevel
  | _ => None
  end.

(** [newLevel > oldLevel]: false when [newLevel] is [NaN]. *)
Definition level_gt (newLevel : option Z) (oldLevel : Z) : bool :=
  match newLevel with Some n => oldLevel <? n | None => false end.

Record LevelUpResult := mkLevelUpResult {
  res_userId : string;
  res_pushName : option string;
  leveledUp : bool;
  oldLevel : Z;
  newLevel : option Z;
  xpGained : Z;
  currentXp : Z;
  totalMessages : option Z
}.

Definition set_xpCooldown (k : string) (t : Z) : M World unit :=
  fun w => (Ret tt,
            mkWorld (mem w) (disk w) (<[k := t]> (xpCooldowns w))
                    (rnd w) (rpos w) (flush_ok w) (fpos w)).

Definition get_xpCooldown (k : string) : M World Z :=
  fun w => (Ret (default 0 (xpCooldowns w !! k)), w).

(** The update of the record between [getUserData] and [db.set]. *)
Definition addXP_record (now : Z) (groupId : option string) (amount : Z)
    (u : UserData) : UserData :=
  mkUserData (jid u) (pushName u) (xp u + amount) (level u)
    (messages u + 1) now (joinedAt u)
    (match groupId with
     | Some g =>
         if JS.truthy_str g && negb (existsb (String.eqb g) (groups u))
         then (groups u ++ [g])%list else groups u
     | None => groups u
     end).

Definition set_level (u : UserData) (l : Z) : UserData :=
  mkUserData (jid u) (pushName u) (xp u) l (messages u)
    (lastActive u) (joinedAt u) (groups u).

Definition set_adv_xp_level (a : Adventure) (x l : Z) : Adventure :=
  mkAdventure (adv_name a) l x (adv_xpNeeded a) (stats a) (inventory a)
    (equipment a) (adv_location a) (questsCompleted a) (monstersDefeated a)
    (cooldowns a) (adv_joinedAt a) (lastPlayed a).

(** The part of [addXP] after the cooldown block, with the amount
    settled: read the record, update it, store it, save on level-up. *)
Definition addXP_apply (now : Z) (userId : string) (groupId : option string)
    (amount : Z) (pushNameArg : option string)
    : M World (option LevelUpResult) :=
  let cleanUserId := JS.before_at userId in
  userData <- getUserData now userId pushNameArg ;;
  match userData with
  | SUser u adv =>
      let old := level u in
      let u1 := addXP_record now groupId amount u in
      let new := computeLevel (xp u1) in
      let up := level_gt new old in
      let u2 := if up then set_level u1 (default old new) else u1 in
      Db.set cleanUserId (SUser u2 adv) ;;;
      (if up then saveData else ret tt) ;;;
      ret (Some (mkLevelUpResult cleanUserId (Some (pushName u2)) up old
                   new amount (xp u2) (Some (messages u2))))
  | SAdv a pn adv =>
      (* a bare profile under the key: [messages] is undefined, and
         [userData.groups.includes] fails when a group is given *)
      let old := adv_level a in
      let x := adv_xp a + amount in
      if JS.truthy_ostr groupId then throw TypeError
      else
        let new := computeLevel x in
        let up := level_gt new old in
        let a2 := set_adv_xp_level a x (if up then default old new else old) in
        Db.set cleanUserId (SAdv a2 pn adv) ;;;
        (if up then saveData else ret tt) ;;;
        ret (Some (mkLevelUpResult cleanUserId pn up old new amount x None))
  end.

(** [addXP]; [None] is the [null] returned on cooldown. *)
Definition addXP (now : Z) (userId : string) (groupId : option string)
    (amount : Z) (bypassCooldown : bool) (pushNameArg : option string)
    : M World (option LevelUpResult) :=
  let cleanUserId := JS.before_at userId in
  if negb bypassCooldown && (amount =? 0) then
    cooldownTime <- get_xpCooldown cleanUserId ;;
    if now <? cooldownTime then ret None
    else
      set_xpCooldown cleanUserId (now + xpCooldown) ;;;
      r <- random ;;
      addXP_apply now userId groupId
        (JS.floor_mul r (messageXpMax - messageXpMin + 1) + messageXpMin)
        pushNameArg
  else addXP_apply now userId groupId amount pushNameArg.

(** [getXpNeeded]: [Math.floor (100 * Math.pow (level, 2))]. *)
Definition getXpNeeded (level : Z) : Z := 100 * level ^ 2.

Record Progress := mkProgress {
  prog_currentXp : Z;
  neededXp : Z;
  percentage : option Z;
  isMaxLevel : bool
}.

(** [getProgress].  The quotient and the product are binary64
    operations: [Math.floor ((currentXp / neededXp) * 100)], clamped to
    [0..100].  Faithful for arguments of magnitude below [2^53]. *)
Definition getProgress (level xp : Z) : Progress :=
  let currentLevelXp := getXpNeeded (level - 1) in
  let nextLevelXp := getXpNeeded level in
  let neededXp := nextLevelXp - currentLevelXp in
  let currentXp := xp - currentLevelXp in
  let percentage :=
    F64.clamp_percent
      (F64.floor (PrimFloat.mul
                    (PrimFloat.div (F64.of_Z currentXp) (F64.of_Z neededXp))
                    (F64.of_Z 100))) in
  mkProgress currentXp neededXp percentage (maxLevel <=? level).

(** The percentage as the specification words it, on exact integers:
    [clamp (0, 100, floor (100 * currentXp / neededXp))]. *)
Definition spec_percentage (level xp : Z) : Z :=
  let currentXp := xp - getXpNeeded (level - 1) in
  let neededXp := getXpNeeded level - getXpNeeded (level - 1) in
  Z.min 100 (Z.max 0 ((100 * currentXp) / neededXp)).

(** The levels the engine can store: [1 .. maxLevel]. *)
Definition levels : list Z := map Z.of_nat (seq 1 (Z.to_nat maxLevel)).

(** *** Ranking *)

(** [data.xp] of whatever sits under a key. *)
Definition stored_xp (e : Stored) : Z :=
  match e with SUser u _ => xp u | SAdv a _ _ => adv_xp a end.

(** [Array.prototype.sort] with the comparator [(a, b) => b.xp - a.xp]:
    descending XP, and stable, as the language requires of [sort].  The
    element goes in front of the first one whose XP is not greater. *)
Fixpoint sort_insert (x : string * Stored) (l : list (string * Stored))
    : list (string * Stored) :=
  match l with
  | [] => [x]
  | y :: rest =>
      if stored_xp (snd y) <=? stored_xp (snd x)
      then x :: y :: rest
      else y :: sort_insert x rest
  end.

Definition sort_by_xp (l : list (string * Stored)) : list (string * Stored) :=
  fold_right sort_insert [] l.

(** [arr.slice (0, limit)]; a negative [limit] counts from the end. *)
Definition slice0 {A} (l : list A) (limit : Z) : list A :=
  if limit <? 0 then firstn (Z.to_nat (Z.of_nat (length l) + limit)) l
  else firstn (Z.to_nat limit) l.

(** [getTopUsers (limit)]; [entries] is [db.entries ()], the records in
    the iteration order of the store. *)
Definition getTopUsers (entries : list (string * Stored)) (limit : Z)
    : list (string * Stored) :=
  slice0 (sort_by_xp entries) limit.

(** [arr.findIndex (([id]) => id === key)]: [None] is [-1]. *)
Fixpoint findIndex (key : string) (l : list (string * Stored)) : option nat :=
  match l with
  | [] => None
  | y :: rest =>
      if String.eqb (fst y) key then Some O
      else option_map S (findIndex key rest)
  end.

(** [getUserRank (userId)]: the 1-based position, [0] without a record. *)
Definition getUserRank (entries : list (string * Stored)) (userId : string)
    : Z :=
  let cleanUserId := JS.before_at userId in
  match findIndex cleanUserId (sort_by_xp entries) with
  | Some position => Z.of_nat position + 1
  | None => 0
  end.

(** *** Progress bar *)

Inductive Cell := Full | Blank.

(** [createProgressBar (percentage, length)]: the filled and the blank
    cells.  [percentage] is [None] for [NaN]; the product is a binary64
    operation.  [String.prototype.repeat] throws a [RangeError] on a
    negative or infinite count ([None] here) and takes [NaN] as [0]. *)
Definition createProgressBar (percentage : option Z) (length : Z)
    : option (list Cell) :=
  let filledLength :=
    match percentage with
    | Some p =>
        F64.floor (PrimFloat.mul (PrimFloat.div (F64.of_Z p) (F64.of_Z 100))
                                 (F64.of_Z length))
    | None => F64.FNaN
    end in
  match filledLength with
  | F64.FNaN => Some []
  | F64.FInf _ => None
  | F64.FInt f =>
      if f <? 0 then None
      else Some (repeat Full (Z.to_nat f)
                 ++ repeat Blank (Z.to_nat (Z.max 0 (length - f))))%list
  end.

(** *** Message handling *)

(** The part of the bot configuration that [processMessage] reads. *)
Record Config := mkConfig {
  leveling_enabled : bool;
  prefix : list N;
  privateMode : bool;
  owners : list string
}.

(** A chat message: [msg.key.participant], [msg.key.remoteJid],
    [msg.pushName]. *)
Record Message := mkMessage {
  participant : option string;
  remoteJid : string;
  msg_pushName : option string
}.

(** A member of a group, as [groupMetadata.participants] lists it. *)
Record Participant := mkParticipant {
  part_id : string;
  part_admin : option string
}.

(** [s.endsWith (suffix)]. *)
Definition ends_with (s suffix : string) : bool :=
  let n := String.length s in
  let m := String.length suffix in
  (m <=? n)%nat && String.eqb (substring (n - m) m s) suffix.

(** [content.startsWith (prefix)] on code units. *)
Fixpoint starts_with (content prefix : list N) : bool :=
  match prefix, content with
  | [], _ => true
  | p :: ps, c :: cs => N.eqb p c && starts_with cs ps
  | _ :: _, [] => false
  end.

(** The admin test of the private mode.  [groupManager.getGroupMetadata]
    is not among the sources: its answer for the group is an argument,
    [None] when the call fails (the [catch] leaves [isAdmin] false). *)
Definition is_admin (metadata : option (list Participant))
    (participantJid : string) : bool :=
  match metadata with
  | Some participants =>
      match find (fun p => String.eqb (part_id p) participantJid) participants with
      | Some p =>
          match part_admin p with
          | Some role => existsb (String.eqb role) ["admin"; "superadmin"]
          | None => false
          end
      | None => false
      end
  | None => false
  end.

(** [processMessage (msg, content)]; the content is a sequence of UTF-16
    code units. *)
Definition processMessage (config : Config)
    (groupMetadata : string -> option (list Participant)) (now : Z)
    (msg : Message) (content : list N) : M World (option LevelUpResult) :=
  if negb (leveling_enabled config) then ret None
  else if (Z.of_nat (length content) <? minMessageLength) then ret None
  else if starts_with content (prefix config) then ret None
  else
    let userId :=
      match participant msg with
      | Some p => if JS.truthy_str p then p else remoteJid msg
      | None => remoteJid msg
      end in
    if negb (ends_with (remoteJid msg) "@g.us") then ret None
    else
      let groupId := remoteJid msg in
      if privateMode config
         && negb (existsb (String.eqb (JS.before_at userId)) (owners config))
         && negb (is_admin (groupMetadata groupId) userId)
      then ret None
      else
        addXP now userId (Some groupId) 0 false
          (match msg_pushName msg with
           | Some p => if JS.truthy_str p then Some p else None
           | None => None
           end).

End LevelManager.

(** ** AdventureManager *)

Module AdventureManager.

Definition COOLDOWN_HUNT : Z := 2 * 60 * 1000.
Definition COOLDOWN_TRAIN : Z := 30 * 60 * 1000.
Definition COOLDOWN_DAILY : Z := 24 * 60 * 60 * 1000.
Definition COOLDOWN_QUEST : Z := 60 * 60 * 1000.

(** The message templates of the handlers, with their parameters. *)
Inductive Msg :=
| MsgHuntCooldown (timeLeft : Z)
| MsgInvalidLocation
| MsgSafeZone (name : string)
| MsgNothingFound (name : string)
| MsgHuntError
| MsgNoMonster
| MsgVictory (monster : string) (gold xp : Z)
| MsgDefeat (monster : string)
| MsgTreasure (gold : Z) (item : option string)
| MsgTrainCooldown (minutes seconds : Z)
| MsgTrained (xp : Z) (bonus : option (string * Z)) (levelUp : bool) (level : Z)
| MsgTrainError
| MsgItemNotFound
| MsgLevelTooLow (required level : Z)
| MsgNotEnoughGold (value : Z)
| MsgPurchased (name : string) (value : Z) (consumable : bool)
| MsgBuyError
| MsgNotInInventory
| MsgNotInDatabase
| MsgEquipped (name : string)
| MsgCannotEquip
| MsgEquipError
| MsgUsedRestore (name : string) (healAmount health maxHealth : Z)
| MsgUsedBoost (name : string)
| MsgUsedNothing
| MsgUseError
| MsgNoLocation
| MsgTravelLevel (required : Z) (name : string) (level : Z)
| MsgTraveled (name : string)
| MsgTravelError
| MsgDailyCooldown (hours minutes : Z)
| MsgDailyClaimed (gold xp : Z) (levelUp : bool) (level : Z)
| MsgDailyError.

Record Rewards := mkRewards {
  rw_gold : option Z;
  rw_xp : option Z;
  rw_item : option string
}.

(** The result object of a handler.  Its [adventureData] field is a
    reference to the profile object the handler works on, not a snapshot:
    [has_adventureData] records that the reference is present. *)
Record Result := mkResult {
  success : bool;
  message : Msg;
  victory : option bool;
  rewards : option Rewards;
  levelUp : option bool;
  statBonus : option (string * Z);
  equipType : option string;
  has_adventureData : bool
}.

Definition failure (m : Msg) : Result :=
  mkResult false m None None None None None false.

Definition ok (m : Msg) : Result :=
  mkResult true m None None None None None false.

(** The handler monad: the profile object in hand, and the world. *)
Definition H (A : Type) : Type := M (Adventure * World) A.

Definition liftW {A} (m : M World A) : H A :=
  fun s => match m (snd s) with (o, w') => (o, (fst s, w')) end.

Definition get_obj : H Adventure := fun s => (Ret (fst s), s).

Definition modify_obj (f : Adventure -> Adventure) : H unit :=
  fun s => (Ret tt, (f (fst s), snd s)).

(** An inner [try { m } catch { return r }]. *)
Definition catching {A} (m : H A) (r : A) : H A :=
  fun s => match m s with
           | (Ret a, s') => (Ret a, s')
           | (Throw _, s') => (Ret r, s')
           end.

(** *** Field updates of the profile *)

Definition with_stats (a : Adventure) (s : Stats) : Adventure :=
  mkAdventure (adv_name a) (adv_level a) (adv_xp a) (adv_xpNeeded a) s
    (inventory a) (equipment a) (adv_location a) (questsCompleted a)
    (monstersDefeated a) (cooldowns a) (adv_joinedAt a) (lastPlayed a).

Definition with_inventory (a : Adventure) (i : Inventory) : Adventure :=
  mkAdventure (adv_name a) (adv_level a) (adv_xp a) (adv_xpNeeded a)
    (stats a) i (equipment a) (adv_location a) (questsCompleted a)
    (monstersDefeated a) (cooldowns a) (adv_joinedAt a) (lastPlayed a).

Definition with_equipment (a : Adventure) (e : Equipment) : Adventure :=
  mkAdventure (adv_name a) (adv_level a) (adv_xp a) (adv_xpNeeded a)
    (stats a) (inventory a) e (adv_location a) (questsCompleted a)
    (monstersDefeated a) (cooldowns a) (adv_joinedAt a) (lastPlayed a).

Definition with_cooldowns (a : Adventure) (c : Cooldowns) : Adventure :=
  mkAdventure (adv_name a) (adv_level a) (adv_xp a) (adv_xpNeeded a)
    (stats a) (inventory a) (equipment a) (adv_location a)
    (questsCompleted a) (monstersDefeated a) c (adv_joinedAt a)
    (lastPlayed a).

Definition with_location (a : Adventure) (l : string) : Adventure :=
  mkAdventure (adv_name a) (adv_level a) (adv_xp a) (adv_xpNeeded a)
    (stats a) (inventory a) (equipment a) l (questsCompleted a)
    (monstersDefeated a) (cooldowns a) (adv_joinedAt a) (lastPlayed a).

Definition with_monstersDefeated (a : Adventure) (n : Z) : Adventure :=
  mkAdventure (adv_name a) (adv_level a) (adv_xp a) (adv_xpNeeded a)
    (stats a) (inventory a) (equipment a) (adv_location a)
    (questsCompleted a) n (cooldowns a) (adv_joinedAt a) (lastPlayed a).

Definition with_xp (a : Adventure) (x : Z) : Adventure :=
  mkAdventure (adv_name a) (adv_level a) x (adv_xpNeeded a)
    (stats a) (inventory a) (equipment a) (adv_location a)
    (questsCompleted a) (monstersDefeated a) (cooldowns a) (adv_joinedAt a)
    (lastPlayed a).

Definition add_gold (g : Z) (a : Adventure) : Adventure :=
  with_inventory a (mkInventory (gold (inventory a) + g)
                                (inv_items (inventory a))).

Definition with_items (a : Adventure) (l : list InvItem) : Adventure :=
  with_inventory a (mkInventory (gold (inventory a)) l).

Definition set_cd_hunt (t : Z) (a : Adventure) : Adventure :=
  let c := cooldowns a in
  with_cooldowns a (mkCooldowns t (cd_train c) (cd_daily c) (cd_quest c)).

Definition set_cd_train (t : Z) (a : Adventure) : Adventure :=
  let c := cooldowns a in
  with_cooldowns a (mkCooldowns (cd_hunt c) t (cd_daily c) (cd_quest c)).

Definition set_cd_daily (t : Z) (a : Adventure) : Adventure :=
  let c := cooldowns a in
  with_cooldowns a (mkCooldowns (cd_hunt c) (cd_train c) t (cd_quest c)).

(** *** Store access *)

(** [updateUserData (jid, userData)]: [db.set] under the cleaned id, then
    a forced save. *)
Definition updateUserData (jid : string) (userData : Stored) : M World Stored :=
  let userId := JS.before_at jid in
  Db.set userId userData ;;;
  LevelManager.saveData ;;;
  ret userData.

(** [updateAdventureData (jid, adventureData)]: re-read the full record,
    replace its [adventure] field, write it back. *)
Definition updateAdventureData (now : Z) (jid : string)
    (adventureData : Adventure) : M World Stored :=
  let userId := JS.before_at jid in
  fullUserData <- LevelManager.getUserData now userId None ;;
  updateUserData jid (set_stored_adventure fullUserData adventureData).

Definition _createDefaultAdventureData (now : Z) (userData : Stored)
    : Adventure :=
  mkAdventure
    (match stored_pushName userData with
     | Some p => if JS.truthy_str p then p else "Adventurer"
     | None => "Adventurer"
     end)
    1 0 100
    (mkStats 100 100 10 5 8)
    (mkInventory 100 [])
    (mkEquipment None None None)
    "town" [] 0
    (mkCooldowns 0 0 0 0)
    now now.

(** [getUserData (jid)]: the adventure profile, created on first access. *)
Definition getUserData (now : Z) (jid : string) : M World Adventure :=
  let userId := JS.before_at jid in
  userData <- LevelManager.getUserData now userId None ;;
  match stored_adventure userData with
  | Some a => ret a
  | None =>
      let a := _createDefaultAdventureData now userData in
      updateUserData jid (set_stored_adventure userData a) ;;;
      ret a
  end.

(** The profile object passed where the code hands the adventure data to
    [updateUserData]: it goes under the user key as it is. *)
Definition bare (a : Adventure) : Stored := SAdv a None None.

(** *** Inventory *)

(** [items.find (item => item.id === itemId)]. *)
Fixpoint inv_find (l : list InvItem) (itemId : string) : option InvItem :=
  match l with
  | [] => None
  | it :: rest =>
      if String.eqb (inv_id it) itemId then Some it else inv_find rest itemId
  end.

(** [_addItemToInventory] on the item list: the first line with the id
    gets the quantity added, else a new line is pushed. *)
Fixpoint add_item (l : list InvItem) (itemId : string) (q : Z) : list InvItem :=
  match l with
  | [] => [mkInvItem itemId q]
  | it :: rest =>
      if String.eqb (inv_id it) itemId
      then mkInvItem (inv_id it) (quantity it + q) :: rest
      else it :: add_item rest itemId q
  end.

Definition _addItemToInventory (a : Adventure) (itemId : string) (q : Z)
    : Adventure :=
  with_items a (add_item (inv_items (inventory a)) itemId q).

(** [_removeItemFromInventory] on the item list: [None] when no line has
    the id (the method returns [false]); the line is spliced out when its
    quantity reaches [0] or less. *)
Fixpoint remove_item (l : list InvItem) (itemId : string) (q : Z)
    : option (list InvItem) :=
  match l with
  | [] => None
  | it :: rest =>
      if String.eqb (inv_id it) itemId
      then if quantity it - q <=? 0 then Some rest
           else Some (mkInvItem (inv_id it) (quantity it - q) :: rest)
      else option_map (cons it) (remove_item rest itemId q)
  end.

Definition _removeItemFromInventory (a : Adventure) (itemId : string) (q : Z)
    : Adventure :=
  match remove_item (inv_items (inventory a)) itemId q with
  | Some l => with_items a l
  | None => a
  end.

(** Units of an item held: the quantities of its lines, summed. *)
Fixpoint held (l : list InvItem) (itemId : string) : Z :=
  match l with
  | [] => 0
  | it :: rest =>
      (if String.eqb (inv_id it) itemId then quantity it else 0)
      + held rest itemId
  end.

(** *** Level-up routine *)

Section Engine.

Context {engine : Math.Pow}.

(** [Math.floor (100 * Math.pow (1.2, level - 1))]: the power of the
    engine, the product and the floor in binary64. *)
Definition xpNeededFor (level : Z) : Z :=
  F64.num (F64.floor (100 * Math.pow 1.2 (level - 1))%float).

(** One turn of the [while] body of [_addXP]. *)
Definition level_up (a : Adventure) : Adventure :=
  let s := stats a in
  mkAdventure (adv_name a) (adv_level a + 1) (adv_xp a - adv_xpNeeded a)
    (xpNeededFor (adv_level a + 1))
    (mkStats (maxHealth s + 10) (maxHealth s + 10) (attack s + 2)
             (defense s + 1) (speed s + 1))
    (inventory a) (equipment a) (adv_location a) (questsCompleted a)
    (monstersDefeated a) (cooldowns a) (adv_joinedAt a) (lastPlayed a).

(** The [while (userData.xp >= userData.xpNeeded)] loop, on fuel. *)
Fixpoint _addXP_loop (fuel : nat) (a : Adventure) (leveledUp : bool)
    : Adventure * bool :=
  match fuel with
  | O => (a, leveledUp)
  | S fuel' =>
      if adv_xpNeeded a <=? adv_xp a
      then _addXP_loop fuel' (level_up a) true
      else (a, leveledUp)
  end.

(** Fuel that lets the loop run to its exit from any profile
    ([_addXP_loop_stable] below). *)
Definition _addXP_fuel (a : Adventure) : nat :=
  (2 + Z.to_nat (- adv_level a) + Z.to_nat (adv_xp a)
   + Z.to_nat (- adv_xpNeeded a))%nat.

Record LevelUpInfo := mkLevelUpInfo {
  info_leveledUp : bool;
  statIncreases : bool
}.

Definition _addXP (a : Adventure) (amount : Z) : Adventure * LevelUpInfo :=
  let a1 := with_xp a (adv_xp a + amount) in
  let '(a2, up) := _addXP_loop (_addXP_fuel a1) a1 false in
  (a2, mkLevelUpInfo up up).

(** [_addXP] on the handler's object. *)
Definition addXP_obj (amount : Z) : H LevelUpInfo :=
  fun s => let '(a, info) := _addXP (fst s) amount in (Ret info, (a, snd s)).

(** *** Combat *)

Definition userDamage (a : Adventure) (m : Monster) : Z :=
  Z.max 1 (attack (stats a) - monster_defense m / 2).

Definition monsterDamage (a : Adventure) (m : Monster) : Z :=
  Z.max 1 (monster_attack m - defense (stats a) / 2).

Definition userTurnsToWin (a : Adventure) (m : Monster) : Z :=
  JS.ceil_div (monster_health m) (userDamage a m).

Definition monsterTurnsToWin (a : Adventure) (m : Monster) : Z :=
  JS.ceil_div (health (stats a)) (monsterDamage a m).

(** The candidates of [_selectMonsterForLocation]: common monsters twice,
    rare monsters once, each within its level window. *)
Definition common_pool (cat : Catalog) (ids : list string) (userLevel : Z)
    : list Monster :=
  flat_map (fun monsterId =>
    match JS.map_get (monsters cat) monsterId with
    | Some monster =>
        if (monster_minLevel monster <=? userLevel)
           && (userLevel <=? monster_maxLevel monster + 3)
        then [monster; monster] else []
    | None => []
    end) ids.

Definition rare_pool (cat : Catalog) (ids : list string) (userLevel : Z)
    : list Monster :=
  flat_map (fun monsterId =>
    match JS.map_get (monsters cat) monsterId with
    | Some monster =>
        if (monster_minLevel monster <=? userLevel)
           && (userLevel <=? monster_maxLevel monster + 2)
        then [monster] else []
    | None => []
    end) ids.

Definition _selectMonsterForLocation (cat : Catalog) (location : Location)
    (userLevel : Z) : M World (option Monster) :=
  let possibleMonsters :=
    (common_pool cat (location_commonMonsters location) userLevel
     ++ rare_pool cat (location_rareMonsters location) userLevel)%list in
  match possibleMonsters with
  | [] => ret None
  | _ :: _ =>
      r <- random ;;
      ret (JS.index possibleMonsters
             (JS.floor_mul r (Z.of_nat (length possibleMonsters))))
  end.

(** [_handleCombatVictory (adventureData, monster)].  The body names
    [userData] in two places, a variable that is not in scope there
    (the parameter is [adventureData]): evaluating it raises a
    [ReferenceError].  The first is reached when an item of the catalog
    drops, the second when the XP made the level go up. *)
Definition _handleCombatVictory (cat : Catalog) (monster : Monster)
    : H Result :=
  let g := monster_goldReward monster in
  r1 <- liftW random ;;
  let goldReward := gold_min g + JS.floor_mul r1 (gold_max g - gold_min g + 1) in
  let xpReward := monster_xpReward monster in
  modify_obj (add_gold goldReward) ;;;
  levelUpInfo <- addXP_obj xpReward ;;
  modify_obj (fun a => with_monstersDefeated a (monstersDefeated a + 1)) ;;;
  r2 <- liftW random ;;
  droppedItem <-
    (if JS.Qltb r2 (monster_dropChance monster)
        && (0 <? Z.of_nat (length (monster_possibleDrops monster)))
     then
       r3 <- liftW random ;;
       let droppedItem :=
         JS.index (monster_possibleDrops monster)
           (JS.floor_mul r3 (Z.of_nat (length (monster_possibleDrops monster)))) in
       match droppedItem with
       | Some d =>
           match JS.map_get (items cat) d with
           | Some itemData => throw ReferenceError
           | None => ret droppedItem
           end
       | None => ret None
       end
     else ret None) ;;
  (if info_leveledUp levelUpInfo then throw ReferenceError else ret tt) ;;;
  ret (mkResult true
         (MsgVictory (monster_name monster) goldReward xpReward)
         (Some true)
         (Some (mkRewards (Some goldReward) (Some xpReward) droppedItem))
         (Some (info_leveledUp levelUpInfo)) None None true).

Definition _handleCombatDefeat (monster : Monster) : H Result :=
  modify_obj (fun a =>
    let s := stats a in
    with_stats a (mkStats (Z.max 1 (maxHealth s / 4)) (maxHealth s)
                          (attack s) (defense s) (speed s))) ;;;
  ret (mkResult false (MsgDefeat (monster_name monster)) (Some false)
         None None None None false).

Definition _monsterEncounter (cat : Catalog) (location : Location) : H Result :=
  userData <- get_obj ;;
  monster <- liftW (_selectMonsterForLocation cat location (adv_level userData)) ;;
  match monster with
  | None => ret (failure MsgNoMonster)
  | Some monster =>
      if userTurnsToWin userData monster <=? monsterTurnsToWin userData monster
      then _handleCombatVictory cat monster
      else _handleCombatDefeat monster
  end.

(** *** Treasure *)

Definition treasure_eligible (level goldBase : Z) (e : string * Item) : bool :=
  (negb (JS.truthy_onum (item_required_level (snd e)))
   || (default 0 (item_required_level (snd e)) <=? level))
  && (item_value (snd e) <=? goldBase * 2).

Definition _findTreasure (cat : Catalog) (location : Location) : H Result :=
  userData <- get_obj ;;
  let treasureQuality := Z.min 5 (Z.max 1 (adv_level userData / 5 + 1)) in
  let goldBase := 20 * treasureQuality in
  r1 <- liftW random ;;
  let goldReward := goldBase + JS.floor_mul r1 goldBase in
  modify_obj (add_gold goldReward) ;;;
  let plain :=
    mkResult true (MsgTreasure goldReward None) None
      (Some (mkRewards (Some goldReward) None None)) None None None false in
  r2 <- liftW random ;;
  if JS.Qltb r2 (2 # 5) then
    let possibleItems :=
      map fst (filter (treasure_eligible (adv_level userData) goldBase)
                      (items cat)) in
    match possibleItems with
    | [] => ret plain
    | _ :: _ =>
        r3 <- liftW random ;;
        match JS.index possibleItems
                (JS.floor_mul r3 (Z.of_nat (length possibleItems))) with
        | Some foundItemId =>
            match JS.map_get (items cat) foundItemId with
            | Some foundItem =>
                modify_obj (fun a => _addItemToInventory a foundItemId 1) ;;;
                ret (mkResult true
                       (MsgTreasure goldReward (Some (item_name foundItem)))
                       None
                       (Some (mkRewards (Some goldReward) None
                                        (Some foundItemId)))
                       None None None false)
            | None => throw TypeError
            end
        | None => throw TypeError  (* no draw indexes out of range *)
        end
    end
  else ret plain.

(** *** Handlers *)

(** What a handler leaves behind: its result object, the profile object
    it worked on ([None] when [getUserData] itself failed) and the world. *)
Record Run := mkRun {
  result : Result;
  object : option Adventure;
  world : World
}.

(** [try { const data = await this.getUserData (jid); body }
     catch (error) { return err }]. *)
Definition run_handler (now : Z) (jid : string) (body : H Result)
    (err : Result) (w : World) : Run :=
  match getUserData now jid w with
  | (Throw _, w1) => mkRun err None w1
  | (Ret a, w1) =>
      match body (a, w1) with
      | (Ret r, (a', w2)) => mkRun r (Some a') w2
      | (Throw _, (a', w2)) => mkRun err (Some a') w2
      end
  end.

Definition write_back_adventure (now : Z) (jid : string) : H unit :=
  a <- get_obj ;;
  liftW (updateAdventureData now jid a) ;;;
  ret tt.

Definition write_back_bare (jid : string) : H unit :=
  a <- get_obj ;;
  liftW (updateUserData jid (bare a)) ;;;
  ret tt.

Definition hunt_body (cat : Catalog) (now : Z) (jid : string) : H Result :=
  adventureData <- get_obj ;;
  if now <? cd_hunt (cooldowns adventureData) then
    ret (failure (MsgHuntCooldown
           (JS.ceil_div (cd_hunt (cooldowns adventureData) - now) 1000)))
  else
    let locationId :=
      if JS.truthy_str (adv_location adventureData)
      then adv_location adventureData else "forest" in
    match JS.map_get (locations cat) locationId with
    | None => ret (failure MsgInvalidLocation)
    | Some location =>
        if location_safeZone location
        then ret (failure (MsgSafeZone (location_name location)))
        else
          encounterRoll <- liftW random ;;
          if JS.Qltb encounterRoll (7 # 10) then
            result <- _monsterEncounter cat location ;;
            modify_obj (set_cd_hunt (now + COOLDOWN_HUNT)) ;;;
            (if has_adventureData result
             then write_back_adventure now jid else ret tt) ;;;
            ret result
          else if JS.Qltb encounterRoll (9 # 10) then
            result <- _findTreasure cat location ;;
            modify_obj (set_cd_hunt (now + COOLDOWN_HUNT)) ;;;
            write_back_bare jid ;;;
            ret result
          else
            modify_obj (set_cd_hunt (now + 30000)) ;;;
            write_back_bare jid ;;;
            ret (ok (MsgNothingFound (location_name location)))
    end.

Definition hunt (cat : Catalog) (now : Z) (jid : string) : World -> Run :=
  run_handler now jid (hunt_body cat now jid) (failure MsgHuntError).

Definition boost_stat (stat : string) (amount : Z) (a : Adventure) : Adventure :=
  let s := stats a in
  if String.eqb stat "attack" then
    with_stats a (mkStats (health s) (maxHealth s) (attack s + amount)
                          (defense s) (speed s))
  else if String.eqb stat "defense" then
    with_stats a (mkStats (health s) (maxHealth s) (attack s)
                          (defense s + amount) (speed s))
  else if String.eqb stat "speed" then
    with_stats a (mkStats (health s) (maxHealth s) (attack s)
                          (defense s) (speed s + amount))
  else if String.eqb stat "maxHealth" then
    with_stats a (mkStats (health s + amount) (maxHealth s + amount)
                          (attack s) (defense s) (speed s))
  else a.

Definition train_body (now : Z) (jid : string) : H Result :=
  adventureData <- get_obj ;;
  if now <? cd_train (cooldowns adventureData) then
    let timeLeft := JS.ceil_div (cd_train (cooldowns adventureData) - now) 1000 in
    ret (failure (MsgTrainCooldown (timeLeft / 60) (timeLeft mod 60)))
  else
    r1 <- liftW random ;;
    let xpGained := 15 + JS.floor_mul r1 10 in
    r2 <- liftW random ;;
    statBonus <-
      (if JS.Qltb r2 (1 # 5) then
         r3 <- liftW random ;;
         let stats := ["attack"; "defense"; "speed"; "maxHealth"] in
         match JS.index stats (JS.floor_mul r3 (Z.of_nat (length stats))) with
         | Some statToBoost =>
             let boostAmount :=
               if String.eqb statToBoost "maxHealth" then 5 else 1 in
             modify_obj (boost_stat statToBoost boostAmount) ;;;
             ret (Some (statToBoost, boostAmount))
         | None => throw TypeError  (* no draw indexes out of range *)
         end
       else ret None) ;;
    levelUpInfo <- addXP_obj xpGained ;;
    modify_obj (set_cd_train (now + COOLDOWN_TRAIN)) ;;;
    write_back_adventure now jid ;;;
    a <- get_obj ;;
    ret (mkResult true
           (MsgTrained xpGained statBonus (info_leveledUp levelUpInfo)
                       (adv_level a))
           None None (Some (info_leveledUp levelUpInfo)) statBonus None false).

Definition train (now : Z) (jid : string) : World -> Run :=
  run_handler now jid (train_body now jid) (failure MsgTrainError).

Definition claimDaily_body (now : Z) (jid : string) : H Result :=
  adventureData <- get_obj ;;
  if now <? cd_daily (cooldowns adventureData) then
    let timeLeft := JS.ceil_div (cd_daily (cooldowns adventureData) - now) 1000 in
    ret (failure (MsgDailyCooldown (timeLeft / 3600) ((timeLeft mod 3600) / 60)))
  else
    let goldReward := 100 + adv_level adventureData * 10 in
    let xpReward := 20 + adv_level adventureData * 5 in
    modify_obj (add_gold goldReward) ;;;
    levelUpInfo <- addXP_obj xpReward ;;
    modify_obj (set_cd_daily (now + COOLDOWN_DAILY)) ;;;
    write_back_adventure now jid ;;;
    a <- get_obj ;;
    ret (mkResult true
           (MsgDailyClaimed goldReward xpReward (info_leveledUp levelUpInfo)
                            (adv_level a))
           None (Some (mkRewards (Some goldReward) (Some xpReward) None))
           (Some (info_leveledUp levelUpInfo)) None None false).

Definition claimDaily (now : Z) (jid : string) : World -> Run :=
  run_handler now jid (claimDaily_body now jid) (failure MsgDailyError).

Definition buyItem_body (cat : Catalog) (jid itemId : string) : H Result :=
  userData <- get_obj ;;
  match JS.map_get (items cat) itemId with
  | None => ret (failure MsgItemNotFound)
  | Some item =>
      if JS.truthy_onum (item_required_level item)
         && (adv_level userData <? default 0 (item_required_level item))
      then ret (failure (MsgLevelTooLow (default 0 (item_required_level item))
                                        (adv_level userData)))
      else if gold (inventory userData) <? item_value item
      then ret (failure (MsgNotEnoughGold (item_value item)))
      else
        modify_obj (add_gold (- item_value item)) ;;;
        modify_obj (fun a => _addItemToInventory a itemId 1) ;;;
        write_back_bare jid ;;;
        ret (ok (MsgPurchased (item_name item) (item_value item)
                              (String.eqb (item_type item) "consumable")))
  end.

Definition buyItem (cat : Catalog) (now : Z) (jid itemId : string)
    : World -> Run :=
  run_handler now jid (buyItem_body cat jid itemId) (failure MsgBuyError).

(** [getShopItems (userLevel)]: the catalog entries without a level
    requirement, or with one the level meets, in catalog order. *)
Definition getShopItems (cat : Catalog) (userLevel : Z)
    : list (string * Item) :=
  List.filter (fun e =>
      negb (JS.truthy_onum (item_required_level (snd e)))
      || (default 0 (item_required_level (snd e)) <=? userLevel))
    (items cat).

(** [userData.equipment[type]] for the three slot names. *)
Definition get_slot (e : Equipment) (type : string) : option string :=
  if String.eqb type "weapon" then weapon e
  else if String.eqb type "armor" then armor e
  else if String.eqb type "accessory" then accessory e
  else None.

Definition set_slot (e : Equipment) (type : string) (itemId : string)
    : Equipment :=
  if String.eqb type "weapon" then mkEquipment (Some itemId) (armor e) (accessory e)
  else if String.eqb type "armor" then mkEquipment (weapon e) (Some itemId) (accessory e)
  else if String.eqb type "accessory" then mkEquipment (weapon e) (armor e) (Some itemId)
  else e.

Definition equipable (type : string) : bool :=
  existsb (String.eqb type) ["weapon"; "armor"; "accessory"].

Definition _useConsumable (jid itemId : string) (item : Item) : H Result :=
  catching
    (userData <- get_obj ;;
     effectMessage <-
       (if JS.truthy_onum (item_restore item) then
          let s := stats userData in
          let oldHealth := health s in
          let newHealth :=
            Z.min (maxHealth s) (health s + default 0 (item_restore item)) in
          modify_obj (fun a =>
            with_stats a (mkStats newHealth (maxHealth s) (attack s)
                                  (defense s) (speed s))) ;;;
          ret (MsgUsedRestore (item_name item) (newHealth - oldHealth)
                              newHealth (maxHealth s))
        else if JS.truthy_onum (item_attackBoost item)
                || JS.truthy_onum (item_defenseBoost item)
                || JS.truthy_onum (item_speedBoost item)
        then ret (MsgUsedBoost (item_name item))
        else ret MsgUsedNothing) ;;
     modify_obj (fun a => _removeItemFromInventory a itemId 1) ;;;
     write_back_bare jid ;;;
     ret (ok effectMessage))
    (failure MsgUseError).

Definition equipItem_body (cat : Catalog) (jid itemId : string) : H Result :=
  userData <- get_obj ;;
  match inv_find (inv_items (inventory userData)) itemId with
  | None => ret (failure MsgNotInInventory)
  | Some inventoryItem =>
      if quantity inventoryItem <? 1 then ret (failure MsgNotInInventory)
      else
        match JS.map_get (items cat) itemId with
        | None => ret (failure MsgNotInDatabase)
        | Some item =>
            if String.eqb (item_type item) "consumable"
            then _useConsumable jid itemId item
            else if equipable (item_type item) then
              let currentItem :=
                get_slot (equipment userData) (item_type item) in
              modify_obj (fun a =>
                with_equipment a
                  (set_slot (equipment a) (item_type item) itemId)) ;;;
              modify_obj (fun a => _removeItemFromInventory a itemId 1) ;;;
              (match currentItem with
               | Some c =>
                   if JS.truthy_str c
                   then modify_obj (fun a => _addItemToInventory a c 1)
                   else ret tt
               | None => ret tt
               end) ;;;
              write_back_bare jid ;;;
              ret (mkResult true (MsgEquipped (item_name item)) None None
                     None None (Some (item_type item)) false)
            else ret (failure MsgCannotEquip)
        end
  end.

Definition equipItem (cat : Catalog) (now : Z) (jid itemId : string)
    : World -> Run :=
  run_handler now jid (equipItem_body cat jid itemId) (failure MsgEquipError).

Definition travel_body (cat : Catalog) (jid locationId : string) : H Result :=
  userData <- get_obj ;;
  match JS.map_get (locations cat) locationId with
  | None => ret (failure MsgNoLocation)
  | Some location =>
      if JS.truthy_onum (location_minLevel location)
         && (adv_level userData <? default 0 (location_minLevel location))
      then ret (failure (MsgTravelLevel (default 0 (location_minLevel location))
                                        (location_name location)
                                        (adv_level userData)))
      else
        modify_obj (fun a => with_location a locationId) ;;;
        write_back_bare jid ;;;
        ret (ok (MsgTraveled (location_name location)))
  end.

Definition travel (cat : Catalog) (now : Z) (jid locationId : string)
    : World -> Run :=
  run_handler now jid (travel_body cat jid locationId) (failure MsgTravelError).

(** A quest of the catalog of quests. *)
Record Quest := mkQuest {
  quest_name : string;
  quest_monsterId : string;
  quest_count : Z;
  quest_gold : Z;
  quest_xp : Z;
  quest_items : list string;
  quest_minLevel : option Z
}.

(** [getAvailableQuests (jid)]: the quests without a level requirement,
    or with one the user's level meets, that the profile does not list
    as completed; [quests] is the catalog of quests in insertion order.
    The answer is [{success, quests}]. *)
Definition getAvailableQuests (quests : list (string * Quest)) (now : Z)
    (jid : string) : World -> (bool * list (string * Quest)) * World :=
  fun w =>
    match getUserData now jid w with
    | (Ret userData, w1) =>
        ((true,
          List.filter (fun e =>
              (negb (JS.truthy_onum (quest_minLevel (snd e)))
               || (default 0 (quest_minLevel (snd e)) <=? adv_level userData))
              && negb (existsb (String.eqb (fst e)) (questsCompleted userData)))
            quests), w1)
    | (Throw _, w1) => ((false, []), w1)
    end.

End Engine.

End AdventureManager.

(** ** Sample data: entries of the default catalogs, and small worlds *)

Module Sample.

Import AdventureManager.

Definition sword_1 : Item :=
  mkItem "Wooden Sword" "weapon" 50 (Some 1) None None None None.
Definition sword_2 : Item :=
  mkItem "Iron Sword" "weapon" 200 (Some 3) None None None None.
Definition axe_1 : Item :=
  mkItem "Battle Axe" "weapon" 300 (Some 5) None None None None.
Definition armor_1 : Item :=
  mkItem "Leather Armor" "armor" 100 (Some 1) None None None None.
Definition potion_health : Item :=
  mkItem "Health Potion" "consumable" 25 (Some 1) (Some 50) None None None.
Definition potion_strength : Item :=
  mkItem "Strength Potion" "consumable" 75 (Some 3) None (Some 5) None None.
Definition mat_herb : Item :=
  mkItem "Medicinal Herbs" "material" 5 None None None None None.

Definition slime : Monster :=
  mkMonster "Slime" 1 3 20 5 2 3 10 (mkGoldReward 5 15) (3 # 10)
            ["potion_health"; "mat_herb"].
Definition rat : Monster :=
  mkMonster "Giant Rat" 1 4 15 7 1 8 8 (mkGoldReward 3 10) (4 # 10)
            ["mat_leather"].
Definition wolf : Monster :=
  mkMonster "Wolf" 2 5 40 10 3 10 20 (mkGoldReward 10 25) (4 # 10)
            ["potion_health"; "mat_leather"].
Definition goblin : Monster :=
  mkMonster "Goblin" 3 7 60 15 5 7 35 (mkGoldReward 15 40) (5 # 10)
            ["potion_health"; "mat_iron"; "sword_1"].

Definition town : Location := mkLocation "Town" true (Some 1) [] [].
Definition forest : Location :=
  mkLocation "Forest" false (Some 1) ["slime"; "rat"; "wolf"] ["goblin"].

Definition catalog : Catalog :=
  mkCatalog
    [("sword_1", sword_1); ("sword_2", sword_2); ("axe_1", axe_1);
     ("armor_1", armor_1); ("potion_health", potion_health);
     ("mat_herb", mat_herb)]
    [("slime", slime); ("rat", rat); ("wolf", wolf); ("goblin", goblin)]
    [("town", town); ("forest", forest)].

(** The potions alone. *)
Definition potions : Catalog :=
  mkCatalog [("potion_health", potion_health);
             ("potion_strength", potion_strength)] [] [].

(** Draws read from a list; [0] once the list is used up. *)
Definition draws (l : list Draw) : nat -> Draw :=
  fun i => nth i l (mkDraw 0 0).

(** Flush outcomes read from a list; success once it is used up. *)
Definition flushes (l : list bool) : nat -> bool :=
  fun i => nth i l true.

Definition world_of (m : gmap string Stored) (ds : list Draw)
    (fs : list bool) : World :=
  mkWorld m m ∅ (draws ds) 0 (flushes fs) 0.

Definition alice : UserData :=
  mkUserData "alice" "Alice" 0 1 0 1000 1000 [].

(** A profile in the forest with the starting stats. *)
Definition profile (level xp xpNeeded : Z) (its : list InvItem)
    (eq : Equipment) (cds : Cooldowns) : Adventure :=
  mkAdventure "Alice" level xp xpNeeded (mkStats 100 100 10 5 8)
    (mkInventory 100 its) eq "forest" [] 0 cds 1000 1000.

Definition no_equipment : Equipment := mkEquipment None None None.
Definition no_cooldowns : Cooldowns := mkCooldowns 0 0 0 0.

Definition store_with (a : Adventure) : gmap string Stored :=
  {[ "alice" := SUser alice (Some a) ]}.

(** A small store for the leaderboard: two users tie at 50 XP. *)
Definition board : list (string * Stored) :=
  [("alice", SUser alice None);
   ("bob", SAdv (profile 1 50 100 [] no_equipment no_cooldowns) None None);
   ("carol", SUser (mkUserData "carol" "Carol" 50 1 4 1000 1000 []) None)].

(** A bot with the prefix [!] and one owner, and a group message. *)
Definition config : LevelManager.Config :=
  LevelManager.mkConfig true [33%N] false ["owner"].

Definition hello : LevelManager.Message :=
  LevelManager.mkMessage (Some "bob@s.whatsapp.net") "club@g.us" (Some "Bob").

(** The code units of [hey]. *)
Definition hey : list N := [104%N; 101%N; 121%N].

(** A [Math.pow] for the examples: the product of [k] factors [x] in
    binary64, by repeated squaring.  Exponents are cut at 4096, past
    which a power of [1.2] has long reached [Infinity]. *)
Definition pow (x : float) (k : Z) : float :=
  match k with
  | 0 => 1%float
  | Z.pos p => Pos.iter_op PrimFloat.mul (Pos.min p 4096) x
  | Z.neg p => (1 / Pos.iter_op PrimFloat.mul (Pos.min p 4096) x)%float
  end.

(** Whether the scaled power [100 * pow 1.2 k] is a number, at least
    [100] for [k >= 0] and not negative. *)
Definition scaled_ok (k : Z) : bool :=
  match F64.floor (100 * pow 1.2 k)%float with
  | F64.FInt n => (if 0 <=? k then 100 else 0) <=? n
  | F64.FInf negative => negb negative
  | F64.FNaN => false
  end.

(** The first two quests of the default catalog of quests. *)
Definition quests : list (string * AdventureManager.Quest) :=
  [("q1", AdventureManager.mkQuest "Slime Extermination" "slime" 5 50 30
            ["potion_health"] (Some 1));
   ("q2", AdventureManager.mkQuest "Wolf Hunt" "wolf" 3 100 60
            ["sword_1"] (Some 2))].

End Sample.

(** * Vocabulary of the statements *)

Section LevelingVocabulary.

Import LevelManager.

(** The level a leveling record should carry. *)
Definition level_inv (u : UserData) : Prop :=
  computeLevel (xp u) = Some (level u).

(** Every leveling record of the store carries the level of its XP. *)
Definition store_inv (m : gmap string Stored) : Prop :=
  forall k u adv, m !! k = Some (SUser u adv) -> level_inv u.

(** The record update of [addXP] followed by the level assignment. *)
Definition regrade (u1 : UserData) (old : Z) : UserData :=
  if level_gt (computeLevel (xp u1)) old
  then set_level u1 (default old (computeLevel (xp u1))) else u1.

(** The four percentages at the ends of a level's XP window. *)
Definition window_percentages (l : Z) : list (option Z) :=
  [ percentage (getProgress l (getXpNeeded (l - 1)));
    percentage (getProgress l (getXpNeeded l - 1));
    percentage (getProgress l (getXpNeeded l));
    percentage (getProgress l (getXpNeeded (l + 1) - 1)) ].

(** Equality test on optional numbers ([None] is [NaN]). *)
Definition opt_eqb (a b : option Z) : bool :=
  match a, b with
  | Some x, Some y => Z.eqb x y
  | None, None => true
  | _, _ => false
  end.

(** The window of level [l] has the percentages 0, 99, 100, 100. *)
Definition window_ok (l : Z) : bool :=
  forallb (fun p => opt_eqb (fst p) (snd p))
    (combine (window_percentages l) [Some 0; Some 99; Some 100; Some 100]).

(** The level at both ends of the XP window of level [l], on doubles
    and on integers. *)
Definition level_window_ok (l : Z) : bool :=
  opt_eqb (computeLevel_f64 (100 * (l - 1) ^ 2)) (Some l)
  && opt_eqb (computeLevel_f64 (100 * l ^ 2 - 1)) (Some l)
  && opt_eqb (computeLevel (100 * (l - 1) ^ 2)) (Some l)
  && opt_eqb (computeLevel (100 * l ^ 2 - 1)) (Some l).

(** The order of a leaderboard: no later entry has more XP. *)
Definition xp_ge (a b : string * Stored) : Prop :=
  LevelManager.stored_xp (snd b) <= LevelManager.stored_xp (snd a).

(** The users ahead of [key] in a ranking by XP [x]: those listed before
    it in the store with at least [x], and those listed after it with
    more than [x]. *)
Fixpoint ahead (key : string) (x : Z) (l : list (string * Stored)) : nat :=
  match l with
  | [] => O
  | y :: rest =>
      if String.eqb (fst y) key
      then length (List.filter (fun z => x <? LevelManager.stored_xp (snd z)) rest)
      else Nat.add (if x <=? LevelManager.stored_xp (snd y) then 1%nat else O)
                   (ahead key x rest)
  end.

(** The bar of [length] cells with [filled] of them full. *)
Definition bar (filled length : Z) : list LevelManager.Cell :=
  (repeat LevelManager.Full (Z.to_nat filled)
   ++ repeat LevelManager.Blank (Z.to_nat (length - filled)))%list.

Definition Cell_eqb (a b : LevelManager.Cell) : bool :=
  match a, b with
  | LevelManager.Full, LevelManager.Full => true
  | LevelManager.Blank, LevelManager.Blank => true
  | _, _ => false
  end.

Fixpoint cells_eqb (l1 l2 : list LevelManager.Cell) : bool :=
  match l1, l2 with
  | [], [] => true
  | a :: r1, b :: r2 => Cell_eqb a b && cells_eqb r1 r2
  | _, _ => false
  end.

(** [createProgressBar] draws [floor (p * length / 100)] full cells out
    of [length], for the two lengths the commands ask for. *)
Definition bar_ok (p : Z) : bool :=
  forallb (fun len =>
    match LevelManager.createProgressBar (Some p) len with
    | Some cells => cells_eqb cells (bar (p * len / 100) len)
    | None => false
    end) [10; 15].

(** The sender of a message: [msg.key.participant || msg.key.remoteJid]. *)
Definition sender (msg : LevelManager.Message) : string :=
  match LevelManager.participant msg with
  | Some p => if JS.truthy_str p then p else LevelManager.remoteJid msg
  | None => LevelManager.remoteJid msg
  end.

(** The display name a message carries: [msg.pushName || null]. *)
Definition shown_name (msg : LevelManager.Message) : option string :=
  match LevelManager.msg_pushName msg with
  | Some p => if JS.truthy_str p then Some p else None
  | None => None
  end.

(** A configuration with the private mode switched off. *)
Definition public (config : LevelManager.Config) : LevelManager.Config :=
  LevelManager.mkConfig (LevelManager.leveling_enabled config)
    (LevelManager.prefix config) false (LevelManager.owners config).

(** A message that passes the checks of [processMessage] that do not
    depend on the private mode: leveling on, three code units or more,
    not a command, sent in a group. *)
Definition qualifies (config : LevelManager.Config)
    (msg : LevelManager.Message) (content : list N) : Prop :=
  LevelManager.leveling_enabled config = true
  /\ (3 <= length content)%nat
  /\ LevelManager.starts_with content (LevelManager.prefix config) = false
  /\ LevelManager.ends_with (LevelManager.remoteJid msg) "@g.us" = true.

End LevelingVocabulary.

Section AdventureVocabulary.

Import AdventureManager.

Context {engine : Math.Pow}.

(** Whether a message is one of the three cooldown messages. *)
Definition is_cooldown_msg (m : Msg) : bool :=
  match m with
  | MsgHuntCooldown _ | MsgTrainCooldown _ _ | MsgDailyCooldown _ _ => true
  | _ => false
  end.

(** A profile inside the loop: its threshold is the one of its level. *)
Definition normal (a : Adventure) : Prop :=
  adv_xpNeeded a = xpNeededFor (adv_level a).

(** Turns of the loop left, at most. *)
Definition turns_bound (a : Adventure) : nat :=
  (Z.to_nat (1 - adv_level a) + Z.to_nat (adv_xp a))%nat.

(** The loop as an iteration of [level_up]: [k] turns, the condition
    holding before each and failing after the last. *)
Definition runs_for (k : nat) (a : Adventure) : Prop :=
  (forall j, (j < k)%nat ->
     adv_xpNeeded (Nat.iter j level_up a) <= adv_xp (Nat.iter j level_up a))
  /\ adv_xp (Nat.iter k level_up a) < adv_xpNeeded (Nat.iter k level_up a).

(** The profile after the three updates of the equip branch. *)
Definition equipped (a : Adventure) (type itemId : string) : Adventure :=
  let a1 :=
    _removeItemFromInventory
      (with_equipment a (set_slot (equipment a) type itemId)) itemId 1 in
  match get_slot (equipment a) type with
  | Some c => if JS.truthy_str c then _addItemToInventory a1 c 1 else a1
  | None => a1
  end.

(** The world after [updateUserData] was handed the profile itself: the
    profile is under the user key, and on disk if the flush succeeded. *)
Definition written_bare (jid : string) (a : Adventure) (w : World) : World :=
  mkWorld (<[JS.before_at jid := bare a]> (mem w))
          (if flush_ok w (fpos w)
           then <[JS.before_at jid := bare a]> (mem w) else disk w)
          (xpCooldowns w) (rnd w) (rpos w) (flush_ok w) (S (fpos w)).

(** The profile after a purchase. *)
Definition purchased (a : Adventure) (itemId : string) (item : Item) : Adventure :=
  _addItemToInventory (add_gold (- item_value item) a) itemId 1.

(** The world after [updateAdventureData] on a record [e] of the store. *)
Definition written_adventure (jid : string) (e : Stored) (a : Adventure)
    (w : World) : World :=
  mkWorld (<[JS.before_at jid := set_stored_adventure e a]> (mem w))
          (if flush_ok w (fpos w)
           then <[JS.before_at jid := set_stored_adventure e a]> (mem w)
           else disk w)
          (xpCooldowns w) (rnd w) (rpos w) (flush_ok w) (S (fpos w)).

(** The profile after a daily claim. *)
Definition claimed (now : Z) (a : Adventure) : Adventure :=
  set_cd_daily (now + COOLDOWN_DAILY)
    (fst (_addXP (add_gold (100 + adv_level a * 10) a) (20 + adv_level a * 5))).

(** An inventory as the handlers keep it: one line per item id, every
    line with a quantity of at least one. *)
Definition inv_ok (l : list InvItem) : Prop :=
  List.NoDup (map inv_id l) /\ List.Forall (fun it => 1 <= quantity it) l.

(** Units of an item a user has: held in the inventory or worn. *)
Definition worn (e : Equipment) (itemId : string) : Z :=
  (if LevelManager.ostr_eqb (weapon e) (Some itemId) then 1 else 0)
  + (if LevelManager.ostr_eqb (armor e) (Some itemId) then 1 else 0)
  + (if LevelManager.ostr_eqb (accessory e) (Some itemId) then 1 else 0).

Definition owned (a : Adventure) (itemId : string) : Z :=
  held (inv_items (inventory a)) itemId + worn (equipment a) itemId.

(** The candidates of a hunt in a location at a level. *)
Definition pool (cat : Catalog) (location : Location) (level : Z)
    : list Monster :=
  (common_pool cat (location_commonMonsters location) level
   ++ rare_pool cat (location_rareMonsters location) level)%list.

(** The profile after a consumable was used: health restored up to the
    maximum when the item restores health, and one unit gone. *)
Definition healed (a : Adventure) (item : Item) : Adventure :=
  if JS.truthy_onum (item_restore item)
  then with_stats a
         (mkStats (Z.min (maxHealth (stats a))
                         (health (stats a) + default 0 (item_restore item)))
                  (maxHealth (stats a)) (attack (stats a))
                  (defense (stats a)) (speed (stats a)))
  else a.

Definition used (a : Adventure) (itemId : string) (item : Item) : Adventure :=
  _removeItemFromInventory (healed a item) itemId 1.

(** The profile after a training session that gave [x] XP and the stat
    bonus [bonus]. *)
Definition trained (now : Z) (a : Adventure) (bonus : option (string * Z))
    (x : Z) : Adventure :=
  set_cd_train (now + COOLDOWN_TRAIN)
    (fst (_addXP (match bonus with
                  | Some (stat, amount) => boost_stat stat amount a
                  | None => a
                  end) x)).

(** The stat bonuses a training session can give. *)
Definition train_bonuses : list (string * Z) :=
  [("attack", 1); ("defense", 1); ("speed", 1); ("maxHealth", 5)].

(** A profile in good standing: a level of at least one, the XP below
    the XP the level asks for, which is the amount of the level formula,
    a health between one and the maximum, no debt, and a well-kept
    inventory. *)
Definition profile_ok (a : Adventure) : Prop :=
  1 <= adv_level a
  /\ 0 <= adv_xp a < adv_xpNeeded a
  /\ adv_xpNeeded a = xpNeededFor (adv_level a)
  /\ 1 <= health (stats a) <= maxHealth (stats a)
  /\ 0 <= gold (inventory a)
  /\ inv_ok (inv_items (inventory a)).

(** A catalog whose monsters pay a gold reward from a range that is not
    empty nor negative and give no negative XP, and whose items restore
    no negative health. *)
Definition cat_ok (cat : Catalog) : Prop :=
  (forall id m, In (id, m) (monsters cat) ->
     0 <= gold_min (monster_goldReward m) <= gold_max (monster_goldReward m)
     /\ 0 <= monster_xpReward m)
  /\ (forall id item r, In (id, item) (items cat) ->
        item_restore item = Some r -> 0 <= r).

(** The part of the world a handler for the user [key] has no business
    with: the records of the other users, and the message cooldowns. *)
Definition frame (key : string) (w w' : World) : Prop :=
  (forall k, k <> key -> mem w' !! k = mem w !! k)
  /\ xpCooldowns w' = xpCooldowns w.

(** A computation that keeps to the record of [key]. *)
Definition localW (key : string) {A} (m : M World A) : Prop :=
  forall w, frame key w (snd (m w)).

Definition local (key : string) {A} (m : H A) : Prop :=
  forall s, frame key (snd s) (snd (snd (m s))).

(** A handler step that keeps the profile in hand in good standing,
    whether it returns or throws, and returns only values in [R]. *)
Definition keeps {A} (m : H A) (R : A -> Prop) : Prop :=
  forall a w, profile_ok a ->
    profile_ok (fst (snd (m (a, w))))
    /\ forall x, fst (m (a, w)) = Ret x -> R x.

(** The world after [getUserData] has created the default profile for
    a record [e] that has none, put it in the record and saved: the
    record is in the store's memory either way, on disk if the flush
    succeeded. *)
Definition refreshed (now : Z) (jid : string) (e : Stored) (w : World) : World :=
  let r := set_stored_adventure e (_createDefaultAdventureData now e) in
  mkWorld (<[JS.before_at jid := r]> (mem w))
          (if flush_ok w (fpos w) then <[JS.before_at jid := r]> (mem w)
           else disk w)
          (xpCooldowns w) (rnd w) (rpos w) (flush_ok w) (S (fpos w)).

(** The record [LevelManager.getUserData] creates for an unknown user. *)
Definition newcomer (now : Z) (jid : string) : Stored :=
  SUser (mkUserData (JS.before_at jid) (JS.before_at jid) 0 1 0 now now [])
        None.

(** A record without a profile, or no record at all. *)
Definition unsettled (now : Z) (jid : string) (w : World) (e0 : Stored) : Prop :=
  (mem w !! JS.before_at jid = None /\ e0 = newcomer now jid)
  \/ (mem w !! JS.before_at jid = Some e0 /\ stored_adventure e0 = None).

(** The six commands, each with its generic failure. *)
Definition handlers (cat : Catalog) (now : Z) (jid itemId locationId : string)
    : list ((World -> Run) * Result) :=
  [(hunt cat now jid, failure MsgHuntError);
   (train now jid, failure MsgTrainError);
   (claimDaily now jid, failure MsgDailyError);
   (buyItem cat now jid itemId, failure MsgBuyError);
   (equipItem cat now jid itemId, failure MsgEquipError);
   (travel cat now jid locationId, failure MsgTravelError)].

(** No profile in the store lists a completed quest. *)
Definition quests_open_store (m : gmap string Stored) : Prop :=
  forall k e a, m !! k = Some e -> stored_adventure e = Some a ->
                questsCompleted a = [].

(** The same of a handler's state: the profile in hand and the store. *)
Definition quests_open (s : Adventure * World) : Prop :=
  questsCompleted (fst s) = [] /\ quests_open_store (mem (snd s)).

(** A handler step that completes no quest. *)
Definition steady {A} (m : H A) : Prop :=
  forall s, quests_open s -> quests_open (snd (m s)).

End AdventureVocabulary.

(** * Properties *)

(** Stepping through a handler: split the scrutinee of the next match. *)
Ltac step :=
  match goal with
  | H : (Throw _, _) = (Ret _, _) |- _ => discriminate H
  | H : (Ret _, _) = (Throw _, _) |- _ => discriminate H
  | H : (Ret _, _) = (Ret _, _) |- _ => inversion H; subst; clear H
  | H : context [match ?x with _ => _ end] |- _ => destruct x eqn:?
  end.

(** ** The engine of the examples *)

Lemma scaled_ok_spec (k : Z) :
  Sample.scaled_ok k = true ->
  F64.at_least (if 0 <=? k then 100 else 0)
               (F64.floor (100 * Sample.pow 1.2 k)%float).
Proof.
  unfold Sample.scaled_ok, F64.at_least.
  destruct (F64.floor _) as [| [|] | n]; try discriminate; try reflexivity.
  intros H. now apply Z.leb_le in H.
Qed.

Lemma scaled_ok_upto :
  forallb (fun n => Sample.scaled_ok (Z.pos (Pos.of_succ_nat n))
                    && Sample.scaled_ok (Z.neg (Pos.of_succ_nat n)))
          (seq 0 4096) = true.
Proof. vm_compute. reflexivity. Qed.

Lemma scaled_ok_all (k : Z) : Sample.scaled_ok k = true.
Proof.
  assert (Hcut : forall p, (4096 <= p)%positive ->
            Sample.scaled_ok (Z.pos p) = Sample.scaled_ok (Z.pos 4096)
            /\ Sample.scaled_ok (Z.neg p) = Sample.scaled_ok (Z.neg 4096)).
  { intros p Hp. unfold Sample.scaled_ok, Sample.pow.
    rewrite (Pos.min_r p 4096) by exact Hp. split; reflexivity. }
  pose proof scaled_ok_upto as Hall.
  rewrite forallb_forall in Hall.
  assert (Hlow : forall p, (p <= 4096)%positive ->
            Sample.scaled_ok (Z.pos p) = true
            /\ Sample.scaled_ok (Z.neg p) = true).
  { intros p Hp.
    specialize (Hall (Nat.pred (Pos.to_nat p))).
    rewrite Pos.of_nat_succ, Nat.succ_pred, Pos2Nat.id in Hall
      by (pose proof (Pos2Nat.is_pos p); lia).
    apply andb_true_iff. apply Hall. apply in_seq.
    pose proof (Pos2Nat.is_pos p). lia. }
  destruct k as [| p | p]; [reflexivity | |].
  - destruct (Pos.leb_spec p 4096) as [Hp | Hp%Pos.lt_le_incl].
    + apply (Hlow p Hp).
    + rewrite (proj1 (Hcut p Hp)). apply (Hlow 4096%positive). reflexivity.
  - destruct (Pos.leb_spec p 4096) as [Hp | Hp%Pos.lt_le_incl].
    + apply (Hlow p Hp).
    + rewrite (proj2 (Hcut p Hp)). apply (Hlow 4096%positive). reflexivity.
Qed.

(** [Sample.pow] as an engine, the one of the examples. *)
Definition sample_engine : Math.Pow :=
  Math.Build_Pow Sample.pow (fun _ => eq_refl)
                 (fun k => scaled_ok_spec k (scaled_ok_all k)).

(** ** Leveling curve and progress (LevelManager) *)

Section Progress.

Import LevelManager.

Lemma getXpNeeded_lt (a b : Z) : 0 <= a -> a < b -> getXpNeeded a < getXpNeeded b.
Proof. unfold getXpNeeded. intros Ha Hab. nia. Qed.

Lemma in_levels (l : Z) : In l levels <-> 1 <= l <= maxLevel.
Proof.
  unfold levels, maxLevel. change (Z.to_nat 248) with 248%nat.
  rewrite in_map_iff. split.
  - intros [n [<- Hn]]. apply in_seq in Hn. simpl in Hn. lia.
  - intros Hl. exists (Z.to_nat l). split; [lia |]. apply in_seq. simpl. lia.
Qed.

Lemma opt_eqb_eq (a b : option Z) : opt_eqb a b = true -> a = b.
Proof.
  destruct a, b; simpl; try discriminate; try reflexivity.
  intros H. apply Z.eqb_eq in H. now subst.
Qed.

Lemma window_ok_all : forallb window_ok levels = true.
Proof. vm_compute. reflexivity. Qed.

Lemma window_ok_spec (l : Z) :
  window_ok l = true ->
  window_percentages l = [Some 0; Some 99; Some 100; Some 100].
Proof.
  unfold window_ok, window_percentages. simpl.
  rewrite !andb_true_iff. intros (H1 & H2 & H3 & H4 & _).
  apply opt_eqb_eq in H1, H2, H3, H4. congruence.
Qed.

(** The exact formula of the specification at the same four points. *)
Lemma spec_percentage_window (l : Z) :
  1 <= l ->
  spec_percentage l (getXpNeeded (l - 1)) = 0
  /\ spec_percentage l (getXpNeeded l - 1) = 99
  /\ spec_percentage l (getXpNeeded l) = 100
  /\ spec_percentage l (getXpNeeded (l + 1) - 1) = 100.
Proof.
  intros Hl. unfold spec_percentage, getXpNeeded.
  set (n := 100 * l ^ 2 - 100 * (l - 1) ^ 2).
  assert (Hn : n = 200 * l - 100) by (unfold n; ring).
  assert (Hpos : 100 <= n) by lia.
  repeat split.
  - replace (100 * (100 * (l - 1) ^ 2 - 100 * (l - 1) ^ 2)) with 0 by ring.
    rewrite Z.div_0_l by lia. reflexivity.
  - replace (100 * (100 * l ^ 2 - 1 - 100 * (l - 1) ^ 2)) with (99 * n + (n - 100))
      by (unfold n; ring).
    rewrite Z.div_add_l by lia. rewrite Z.div_small by lia. lia.
  - fold n. replace (100 * n) with (100 * n + 0) by ring.
    rewrite Z.div_add_l by lia. rewrite Z.div_0_l by lia. lia.
  - assert (H : 100 <= 100 * (100 * (l + 1) ^ 2 - 1 - 100 * (l - 1) ^ 2) / n).
    { apply Z.div_le_lower_bound; [lia |]. rewrite Hn. nia. }
    lia.
Qed.

(** C6, as stated, fails at level 1: at [xp = xpThreshold 1 = 100] the
    percentage is [100], not [0], and at [xp = xpThreshold 2 - 1 = 399] it
    is [100], not [99]. *)
Lemma progress_claimed_boundaries_fail :
  percentage (getProgress 1 (getXpNeeded 1)) <> Some 0
  /\ percentage (getProgress 1 (getXpNeeded (1 + 1) - 1)) <> Some 99.
Proof. split; vm_compute; discriminate. Qed.

(** C6, amended.  [getXpNeeded level = 100 * level ^ 2] is strictly
    increasing from level 1 on.  The XP window of a level [l] is
    [getXpNeeded (l - 1) .. getXpNeeded l - 1]: for every level the engine
    can store, the percentage is [0] at the start of the window and [99]
    at its last point; at [getXpNeeded l] and at [getXpNeeded (l + 1) - 1],
    the points the specification names, the clamp gives [100].
    [currentXp] and [neededXp] are the differences the specification
    gives.  The percentage is the floor of the binary64 product
    [(currentXp / neededXp) * 100], which at level 1 with 29 XP is [28]
    where the exact formula gives [29]. *)
Theorem progress_boundaries (l : Z) :
  1 <= l <= maxLevel ->
  (forall l', l < l' -> getXpNeeded l < getXpNeeded l')
  /\ percentage (getProgress l (getXpNeeded (l - 1))) = Some 0
  /\ percentage (getProgress l (getXpNeeded l - 1)) = Some 99
  /\ percentage (getProgress l (getXpNeeded l)) = Some 100
  /\ percentage (getProgress l (getXpNeeded (l + 1) - 1)) = Some 100
  /\ (forall xp,
        prog_currentXp (getProgress l xp) = xp - getXpNeeded (l - 1)
        /\ neededXp (getProgress l xp) = getXpNeeded l - getXpNeeded (l - 1))
  /\ spec_percentage l (getXpNeeded (l - 1)) = 0
  /\ spec_percentage l (getXpNeeded l - 1) = 99
  /\ percentage (getProgress 1 29) = Some 28
  /\ spec_percentage 1 29 = 29.
Proof.
  intros Hl.
  assert (Hw : window_ok l = true).
  { pose proof window_ok_all as Hall. rewrite forallb_forall in Hall.
    apply Hall. now apply in_levels. }
  apply window_ok_spec in Hw. unfold window_percentages in Hw.
  injection Hw as H0 H99 H100 H100'.
  destruct (spec_percentage_window l) as (S0 & S99 & _); [lia |].
  split; [intros l' Hl'; apply getXpNeeded_lt; lia |].
  repeat (split; [assumption |]).
  split; [intros xp; split; reflexivity |].
  repeat (split; [assumption |]).
  split; vm_compute; reflexivity.
Qed.

Lemma progress_boundaries_witness :
  getXpNeeded 3 < getXpNeeded 4
  /\ percentage (getProgress 3 (getXpNeeded 3 - 1)) = Some 99.
Proof.
  assert (H : 1 <= 3 <= maxLevel) by (unfold maxLevel; lia).
  destruct (progress_boundaries 3 H) as (Hinc & _ & H99 & _).
  split; [apply Hinc; lia | exact H99].
Defined.

End Progress.

(** ** Level from total XP (LevelManager.addXP) *)

Section Leveling.

Import LevelManager.

Lemma computeLevel_nonneg (x : Z) :
  0 <= x -> computeLevel x = Some (Z.min (1 + Z.sqrt (x / 100)) maxLevel).
Proof.
  intros Hx. unfold computeLevel.
  destruct (x <? 0) eqn:E; [apply Z.ltb_lt in E; lia | reflexivity].
Qed.

Lemma computeLevel_mono (x y : Z) :
  0 <= x <= y ->
  Z.min (1 + Z.sqrt (x / 100)) maxLevel <= Z.min (1 + Z.sqrt (y / 100)) maxLevel.
Proof.
  intros H.
  assert (Hd : x / 100 <= y / 100) by (apply Z.div_le_mono; lia).
  pose proof (Z.sqrt_le_mono _ _ Hd). lia.
Qed.

(** [floor (1 + sqrt (x / 100)) = l] says that [x] lies in the window of
    level [l]: [100 (l - 1)^2 <= x < 100 l^2]. *)
Lemma sqrt_level_window (x : Z) :
  0 <= x ->
  let l := 1 + Z.sqrt (x / 100) in
  1 <= l /\ 100 * (l - 1) ^ 2 <= x < 100 * l ^ 2.
Proof.
  intros Hx l.
  assert (Hq : 0 <= x / 100) by (apply Z.div_pos; lia).
  pose proof (Z.sqrt_spec (x / 100) Hq) as [Hlo Hhi].
  pose proof (Z.sqrt_nonneg (x / 100)) as Hs.
  pose proof (Z.div_mod x 100 ltac:(lia)) as Hdm.
  pose proof (Z.mod_pos_bound x 100 ltac:(lia)) as Hm.
  unfold l. replace (1 + Z.sqrt (x / 100) - 1) with (Z.sqrt (x / 100)) by ring.
  split; [lia |]. unfold Z.succ in Hhi. nia.
Qed.

Lemma level_inv_default (now : Z) (userId name : string) :
  level_inv (mkUserData userId name 0 1 0 now now []).
Proof. reflexivity. Qed.

Lemma regrade_inv (now : Z) (g : option string) (amount : Z) (u : UserData) :
  level_inv u -> 0 <= amount ->
  level_inv (regrade (addXP_record now g amount u) (level u)).
Proof.
  unfold level_inv, regrade. intros Hu Ha.
  assert (Hx : 0 <= xp u).
  { unfold computeLevel in Hu. destruct (xp u <? 0) eqn:E; [discriminate |].
    apply Z.ltb_ge in E. exact E. }
  rewrite computeLevel_nonneg in Hu by exact Hx. injection Hu as Hu.
  cbn [addXP_record xp level].
  rewrite (computeLevel_nonneg (xp u + amount)) by lia.
  pose proof (computeLevel_mono (xp u) (xp u + amount) ltac:(lia)) as Hm.
  cbn [level_gt default].
  destruct (level u <? _) eqn:E.
  - unfold set_level, addXP_record. cbn [xp level].
    now rewrite computeLevel_nonneg by lia.
  - apply Z.ltb_ge in E. unfold addXP_record. cbn [xp level].
    rewrite computeLevel_nonneg by lia. f_equal. lia.
Qed.

Lemma store_inv_insert_user (m : gmap string Stored) (k : string)
    (u : UserData) (adv : option Adventure) :
  store_inv m -> level_inv u -> store_inv (<[k := SUser u adv]> m).
Proof.
  intros Hm Hu k' u' adv' Hk.
  destruct (decide (k = k')) as [-> | Hne].
  - rewrite lookup_insert_eq in Hk. now inversion Hk; subst.
  - rewrite lookup_insert_ne in Hk by exact Hne. eapply Hm, Hk.
Qed.

Lemma store_inv_insert_bare (m : gmap string Stored) (k : string)
    (a : Adventure) (pn : option string) (adv : option Adventure) :
  store_inv m -> store_inv (<[k := SAdv a pn adv]> m).
Proof.
  intros Hm k' u' adv' Hk.
  destruct (decide (k = k')) as [-> | Hne].
  - rewrite lookup_insert_eq in Hk. discriminate.
  - rewrite lookup_insert_ne in Hk by exact Hne. eapply Hm, Hk.
Qed.

(** [getUserData] returns the record it leaves under the key, never
    throws, and keeps the invariant: a created record has level 1 at 0 XP
    and a display-name update does not touch XP or level. *)
Lemma getUserData_spec (now : Z) (userId : string) (pn : option string)
    (w : World) :
  store_inv (mem w) ->
  exists e w',
    getUserData now userId pn w = (Ret e, w')
    /\ mem w' !! JS.before_at userId = Some e
    /\ store_inv (mem w')
    /\ (forall u adv, e = SUser u adv -> level_inv u)
    /\ xpCooldowns w' = xpCooldowns w /\ rnd w' = rnd w /\ rpos w' = rpos w
    /\ flush_ok w' = flush_ok w /\ fpos w' = fpos w /\ disk w' = disk w.
Proof.
  intros Hinv. unfold getUserData, bind, Db.get, Db.set, ret. cbn [fst snd].
  destruct (mem w !! JS.before_at userId) as [e |] eqn:He.
  - assert (Hkeep : forall u adv, e = SUser u adv -> level_inv u).
    { intros u adv ->. eapply Hinv, He. }
    assert (Hsame : exists e' w', (Ret e, w) = (Ret e', w')
              /\ mem w' !! JS.before_at userId = Some e' /\ store_inv (mem w')
              /\ (forall u adv, e' = SUser u adv -> level_inv u)
              /\ xpCooldowns w' = xpCooldowns w /\ rnd w' = rnd w
              /\ rpos w' = rpos w /\ flush_ok w' = flush_ok w
              /\ fpos w' = fpos w /\ disk w' = disk w).
    { exists e, w. repeat split; auto. }
    destruct pn as [p |]; [| exact Hsame].
    destruct (JS.truthy_str p && negb (ostr_eqb (stored_pushName e) (Some p)));
      [| exact Hsame].
    eexists _, _. split; [reflexivity |]. cbn [mem].
    split; [apply lookup_insert_eq |].
    destruct e as [u0 adv0 | a0 pn0 adv0]; cbn [set_pushName].
    + specialize (Hkeep u0 adv0 eq_refl).
      split; [apply store_inv_insert_user; [exact Hinv | exact Hkeep] |].
      split; [| repeat split].
      intros u' adv' Heq. inversion Heq; subst. exact Hkeep.
    + split; [apply store_inv_insert_bare; exact Hinv |].
      split; [| repeat split]. intros u' adv' Heq. discriminate.
  - eexists _, _. split; [reflexivity |]. cbn [mem].
    split; [apply lookup_insert_eq |].
    split; [apply store_inv_insert_user; [exact Hinv | apply level_inv_default] |].
    split; [| repeat split].
    intros u adv Heq. inversion Heq; subst. apply level_inv_default.
Qed.

(** A draw is in [0,1), so [Math.floor (Math.random () * n)] is an index
    below [n]. *)
Lemma floor_mul_draw_range (d : Draw) (n : Z) :
  0 < n -> 0 <= JS.floor_mul (draw_val d) n < n.
Proof.
  intros Hn. unfold JS.floor_mul, draw_val, Qfloor, Qmult, inject_Z.
  cbn [Qnum Qden]. rewrite Pos.mul_1_r, Zpos_P_of_succ_nat.
  set (k := Z.of_nat (num d)).
  assert (Hk : 0 <= k) by (unfold k; lia).
  assert (Hden : k < Z.succ (Z.of_nat (num d + gap d))) by (unfold k; lia).
  split.
  - apply Z.div_pos; nia.
  - apply Z.div_lt_upper_bound; nia.
Qed.

Lemma random_spec (w : World) :
  exists d, random w = (Ret (draw_val d),
    mkWorld (mem w) (disk w) (xpCooldowns w) (rnd w) (S (rpos w))
            (flush_ok w) (fpos w)).
Proof. exists (rnd w (rpos w)). reflexivity. Qed.

Lemma addXP_apply_inv (now : Z) (userId : string) (g : option string)
    (amount : Z) (pn : option string) (w : World) :
  store_inv (mem w) -> 0 <= amount ->
  store_inv (mem (snd (addXP_apply now userId g amount pn w))).
Proof.
  intros Hinv Ha. unfold addXP_apply, bind.
  destruct (getUserData_spec now userId pn w Hinv)
    as (e & w1 & -> & Hlk & Hinv1 & Hlev & _).
  destruct e as [u adv | a pn' adv].
  - unfold Db.set, ret. cbn [fst snd mem].
    specialize (Hlev u adv eq_refl).
    pose proof (regrade_inv now g amount u Hlev Ha) as Hre. unfold regrade in Hre.
    match goal with
    | |- context [<[ ?k := SUser ?u2 adv ]> (mem w1)] =>
        assert (Hins : store_inv (<[k := SUser u2 adv]> (mem w1)))
          by (apply store_inv_insert_user; assumption)
    end.
    destruct (level_gt _ _).
    + unfold saveData, Db.save. cbn [flush_ok fpos mem].
      destruct (flush_ok w1 (fpos w1)); cbn [snd mem]; exact Hins.
    + cbn [snd mem]. exact Hins.
  - destruct (JS.truthy_ostr g); [exact Hinv1 |].
    unfold Db.set, ret. cbn [fst snd mem].
    match goal with
    | |- context [<[ ?k := SAdv ?a2 pn' adv ]> (mem w1)] =>
        assert (Hins : store_inv (<[k := SAdv a2 pn' adv]> (mem w1)))
          by (apply store_inv_insert_bare; assumption)
    end.
    destruct (level_gt _ _).
    + unfold saveData, Db.save. cbn [flush_ok fpos mem].
      destruct (flush_ok w1 (fpos w1)); cbn [snd mem]; exact Hins.
    + cbn [snd mem]. exact Hins.
Qed.

Lemma getUserData_existing_user (now : Z) (userId : string)
    (pn : option string) (w : World) (u : UserData) (adv : option Adventure) :
  mem w !! JS.before_at userId = Some (SUser u adv) ->
  exists u1 w1,
    getUserData now userId pn w = (Ret (SUser u1 adv), w1)
    /\ xp u1 = xp u /\ level u1 = level u /\ messages u1 = messages u.
Proof.
  intros He. unfold getUserData, bind, Db.get. rewrite He.
  destruct pn as [p |]; [| eexists _, _; split; [reflexivity | auto]].
  destruct (JS.truthy_str p && _);
    eexists _, _; (split; [reflexivity | auto]).
Qed.

Lemma addXP_apply_grant (now : Z) (userId : string) (g : option string)
    (amount : Z) (pn : option string) (w w1 : World) (u : UserData)
    (adv : option Adventure) (r : LevelUpResult) :
  mem w !! JS.before_at userId = Some (SUser u adv) ->
  addXP_apply now userId g amount pn w = (Ret (Some r), w1) ->
  exists u', mem w1 !! JS.before_at userId = Some (SUser u' adv)
             /\ xp u' = xp u + amount
             /\ messages u' = messages u + 1
             /\ level u <= level u'
             /\ xpGained r = amount
             /\ currentXp r = xp u'.
Proof.
  intros He. unfold addXP_apply, bind.
  destruct (getUserData_existing_user now userId pn w u adv He)
    as (u1 & w0 & -> & Hx & Hl & Hm).
  unfold Db.set, ret. cbn [fst snd mem].
  set (u2 := if level_gt _ _ then set_level _ _ else _).
  assert (Hu2 : xp u2 = xp u + amount /\ messages u2 = messages u + 1
                /\ level u <= level u2).
  { unfold u2, level_gt, addXP_record, set_level. cbn [xp level messages].
    destruct (computeLevel (xp u1 + amount)) as [n |]; cbn [default id].
    - destruct (level u1 <? n) eqn:E; cbn [xp level messages].
      + apply Z.ltb_lt in E. unfold id. lia.
      + lia.
    - cbn [xp level messages]. lia. }
  destruct (level_gt _ _).
  - unfold saveData, Db.save. cbn [flush_ok fpos mem disk].
    destruct (flush_ok w0 (fpos w0)); [| discriminate].
    intros Heq. inversion Heq; subst. cbn [mem xpGained currentXp].
    exists u2. rewrite lookup_insert_eq. tauto.
  - intros Heq. inversion Heq; subst. cbn [mem xpGained currentXp].
    exists u2. rewrite lookup_insert_eq. tauto.
Qed.

Lemma level_window_ok_all : forallb level_window_ok levels = true.
Proof. vm_compute. reflexivity. Qed.

(** On doubles the level is the same at both ends of every window up to
    the cap (the operations are monotone in between). *)
Lemma computeLevel_f64_windows (l : Z) :
  1 <= l <= maxLevel ->
  computeLevel_f64 (100 * (l - 1) ^ 2) = Some l
  /\ computeLevel_f64 (100 * l ^ 2 - 1) = Some l.
Proof.
  intros Hl. pose proof level_window_ok_all as Hall.
  rewrite forallb_forall in Hall. specialize (Hall l (proj2 (in_levels l) Hl)).
  unfold level_window_ok in Hall. rewrite !andb_true_iff in Hall.
  destruct Hall as [[[H1 H2] _] _].
  split; now apply opt_eqb_eq.
Qed.

(** C3.  From a store whose leveling records carry the level of their
    XP, a grant of a non-negative amount (given, or drawn in [10..25])
    leaves such a store: every stored level is
    [min (maxLevel, floor (1 + sqrt (totalXp / 100)))] with
    [maxLevel = 248], that is, the XP lies in the window
    [100 (level - 1)^2 .. 100 level^2 - 1] of the level, or beyond the
    last threshold at the cap.  The grant adds the amount to the record,
    whose level does not go down, and the level is monotone in the XP.
    [getUserData], the other operation that writes, keeps the invariant
    ([getUserData_spec]); a new record starts at 0 XP and level 1.  On
    binary64 the expression gives the same level at both ends of the XP
    window of every level up to the cap. *)
Theorem addXP_keeps_level_invariant (now : Z) (userId : string)
    (g : option string) (amount : Z) (bypass : bool) (pn : option string)
    (w : World) :
  store_inv (mem w) -> 0 <= amount ->
  let run := addXP now userId g amount bypass pn w in
  store_inv (mem (snd run))
  /\ (forall k u adv, mem (snd run) !! k = Some (SUser u adv) ->
        0 <= xp u
        /\ level u = Z.min maxLevel (1 + Z.sqrt (xp u / 100))
        /\ 1 <= level u <= maxLevel
        /\ (level u < maxLevel ->
            100 * (level u - 1) ^ 2 <= xp u < 100 * level u ^ 2)
        /\ (level u = maxLevel -> 100 * (maxLevel - 1) ^ 2 <= xp u))
  /\ (forall u adv r,
        mem w !! JS.before_at userId = Some (SUser u adv) ->
        fst run = Ret (Some r) ->
        exists u', mem (snd run) !! JS.before_at userId = Some (SUser u' adv)
                   /\ xp u' = xp u + xpGained r
                   /\ level u <= level u'
                   /\ (negb bypass && (amount =? 0) = false -> xpGained r = amount)
                   /\ (negb bypass && (amount =? 0) = true ->
                       messageXpMin <= xpGained r <= messageXpMax))
  /\ (forall x y, 0 <= x <= y ->
        Z.min maxLevel (1 + Z.sqrt (x / 100))
        <= Z.min maxLevel (1 + Z.sqrt (y / 100)))
  /\ level_inv (mkUserData userId (JS.before_at userId) 0 1 0 now now [])
  /\ (forall l, 1 <= l <= maxLevel ->
        computeLevel_f64 (100 * (l - 1) ^ 2) = Some l
        /\ computeLevel_f64 (100 * l ^ 2 - 1) = Some l).
Proof.
  intros Hinv Ha run.
  assert (Hpres : store_inv (mem (snd run))).
  { unfold run, addXP.
    destruct (negb bypass && (amount =? 0)); [| now apply addXP_apply_inv].
    unfold bind, get_xpCooldown, set_xpCooldown, ret. cbn [fst snd].
    destruct (now <? _); [exact Hinv |].
    destruct (random_spec (mkWorld (mem w) (disk w)
                (<[JS.before_at userId := now + xpCooldown]> (xpCooldowns w))
                (rnd w) (rpos w) (flush_ok w) (fpos w))) as [d ->].
    apply addXP_apply_inv; [exact Hinv |].
    pose proof (floor_mul_draw_range d (messageXpMax - messageXpMin + 1)
                  ltac:(unfold messageXpMax, messageXpMin; lia)).
    unfold messageXpMin in *. lia. }
  split; [exact Hpres |].
  split.
  { intros k u adv Hk. specialize (Hpres k u adv Hk). unfold level_inv in Hpres.
    assert (Hx : 0 <= xp u).
    { unfold computeLevel in Hpres.
      destruct (xp u <? 0) eqn:E; [discriminate | now apply Z.ltb_ge in E]. }
    rewrite computeLevel_nonneg in Hpres by exact Hx. injection Hpres as Hl.
    pose proof (sqrt_level_window (xp u) Hx) as Hwin. cbv zeta in Hwin.
    unfold maxLevel in *.
    split; [exact Hx |]. split; [lia |]. split; [lia |].
    split; intros Hc.
    - assert (Heq : level u = 1 + Z.sqrt (xp u / 100)) by lia.
      rewrite Heq. exact (proj2 Hwin).
    - assert (Hge : 248 <= 1 + Z.sqrt (xp u / 100)) by lia.
      destruct Hwin as [_ [Hlo _]]. nia. }
  split.
  { intros u adv r He. unfold run, addXP.
    destruct (negb bypass && (amount =? 0)) eqn:Hb.
    - unfold bind, get_xpCooldown, set_xpCooldown, ret. cbn [fst snd].
      destruct (now <? _); [discriminate |].
      match goal with
      | |- context [random ?w0] => destruct (random_spec w0) as [d Hd]; rewrite Hd
      end.
      cbn [mem disk xpCooldowns rnd rpos flush_ok fpos].
      pose proof (floor_mul_draw_range d (messageXpMax - messageXpMin + 1)
                    ltac:(unfold messageXpMax, messageXpMin; lia)) as Hr.
      match goal with
      | |- context [addXP_apply now userId g ?amt pn ?w0] =>
          destruct (addXP_apply now userId g amt pn w0) as [o w1] eqn:Hrun
      end.
      cbn [fst snd]. intros ->.
      eapply addXP_apply_grant in Hrun; [| exact He].
      destruct Hrun as (u' & Hlk & Hxp & _ & Hlev & Hg & _).
      exists u'. rewrite Hg.
      repeat split; try assumption; try discriminate;
        unfold messageXpMax, messageXpMin in *; lia.
    - destruct (addXP_apply now userId g amount pn w) as [o w1] eqn:Hrun.
      cbn [fst snd]. intros ->.
      eapply addXP_apply_grant in Hrun; [| exact He].
      destruct Hrun as (u' & Hlk & Hxp & _ & Hlev & Hg & _).
      exists u'. rewrite Hg.
      repeat split; try assumption; try discriminate; auto. }
  split.
  { intros x y Hxy. pose proof (computeLevel_mono x y Hxy). lia. }
  split; [apply level_inv_default | exact computeLevel_f64_windows].
Qed.

End Leveling.

Lemma store_inv_empty : store_inv ∅.
Proof. intros k u adv Hk. rewrite lookup_empty in Hk. discriminate. Qed.

Lemma addXP_keeps_level_invariant_witness :
  store_inv (mem (snd (LevelManager.addXP 1000 "bob@s.whatsapp.net"
                         (Some "group@g.us") 150 true None
                         (Sample.world_of ∅ [] [])))).
Proof.
  exact (proj1 (addXP_keeps_level_invariant 1000 "bob@s.whatsapp.net"
                  (Some "group@g.us") 150 true None (Sample.world_of ∅ [] [])
                  store_inv_empty ltac:(lia))).
Defined.

(** ** Combat resolution (AdventureManager._monsterEncounter) *)

Section Combat.

Import AdventureManager.

Context {engine : Math.Pow}.

(** [ceil_div a b] is the least [n] with [a <= n * b]. *)
Lemma ceil_div_least (a b n : Z) :
  0 < b -> (a <= n * b <-> JS.ceil_div a b <= n).
Proof.
  intros Hb. unfold JS.ceil_div.
  pose proof (Z.mul_div_le (- a) b Hb) as Hlo.
  pose proof (Z.mul_succ_div_gt (- a) b Hb) as Hhi.
  split; intros H; nia.
Qed.

Lemma userDamage_pos (a : Adventure) (m : Monster) : 1 <= userDamage a m.
Proof. unfold userDamage. lia. Qed.

Lemma monsterDamage_pos (a : Adventure) (m : Monster) : 1 <= monsterDamage a m.
Proof. unfold monsterDamage. lia. Qed.

Lemma handleCombatDefeat_result (m : Monster) (s : Adventure * World) :
  exists r s', _handleCombatDefeat m s = (Ret r, s')
               /\ victory r = Some false /\ success r = false.
Proof.
  unfold _handleCombatDefeat, bind, modify_obj, ret.
  eexists _, _. split; [reflexivity | split; reflexivity].
Qed.

Lemma handleCombatVictory_result (cat : Catalog) (m : Monster)
    (s s' : Adventure * World) (r : Result) :
  _handleCombatVictory cat m s = (Ret r, s') ->
  victory r = Some true /\ success r = true /\ has_adventureData r = true.
Proof.
  unfold _handleCombatVictory, bind, liftW, random, modify_obj, addXP_obj,
    get_obj, ret, throw.
  cbn [fst snd]. intros H. repeat step; auto.
Qed.

Lemma monsterEncounter_unfold (cat : Catalog) (location : Location)
    (a : Adventure) (w w1 : World) (m : Monster) :
  _selectMonsterForLocation cat location (adv_level a) w = (Ret (Some m), w1) ->
  _monsterEncounter cat location (a, w) =
    if userTurnsToWin a m <=? monsterTurnsToWin a m
    then _handleCombatVictory cat m (a, w1)
    else _handleCombatDefeat m (a, w1).
Proof.
  intros Hsel. unfold _monsterEncounter, bind, get_obj, liftW.
  cbn [fst snd]. rewrite Hsel.
  now destruct (userTurnsToWin a m <=? monsterTurnsToWin a m).
Qed.

(** C1.  For the monster [m] picked for an encounter, the damages are
    [max (1, attack - floor (defense / 2))] on each side, the turn counts
    are the ceilings of health over damage (the least number of blows
    that bring the health to zero), and the encounter runs the victory
    handler exactly when [userTurnsToWin <= monsterTurnsToWin], the
    defeat handler otherwise; with equal turn counts the user wins.  A
    result that is returned carries [victory = true] in the first case
    and [victory = false] in the second. *)
Theorem monsterEncounter_resolution (cat : Catalog) (location : Location)
    (a : Adventure) (w w1 : World) (m : Monster) :
  _selectMonsterForLocation cat location (adv_level a) w = (Ret (Some m), w1) ->
  userDamage a m = Z.max 1 (attack (stats a) - monster_defense m / 2)
  /\ monsterDamage a m = Z.max 1 (monster_attack m - defense (stats a) / 2)
  /\ (2 * (monster_defense m / 2) <= monster_defense m < 2 * (monster_defense m / 2) + 2)
  /\ (2 * (defense (stats a) / 2) <= defense (stats a) < 2 * (defense (stats a) / 2) + 2)
  /\ (forall n, monster_health m <= n * userDamage a m <-> userTurnsToWin a m <= n)
  /\ (forall n, health (stats a) <= n * monsterDamage a m <-> monsterTurnsToWin a m <= n)
  /\ (userTurnsToWin a m <= monsterTurnsToWin a m ->
      _monsterEncounter cat location (a, w) = _handleCombatVictory cat m (a, w1))
  /\ (monsterTurnsToWin a m < userTurnsToWin a m ->
      _monsterEncounter cat location (a, w) = _handleCombatDefeat m (a, w1))
  /\ (userTurnsToWin a m = monsterTurnsToWin a m ->
      _monsterEncounter cat location (a, w) = _handleCombatVictory cat m (a, w1))
  /\ (forall r s, _monsterEncounter cat location (a, w) = (Ret r, s) ->
        (victory r = Some true <-> userTurnsToWin a m <= monsterTurnsToWin a m)
        /\ (victory r = Some false <-> monsterTurnsToWin a m < userTurnsToWin a m)).
Proof.
  intros Hsel. pose proof (monsterEncounter_unfold _ _ _ _ _ _ Hsel) as Hun.
  split; [reflexivity |]. split; [reflexivity |].
  split; [pose proof (Z.mul_div_le (monster_defense m) 2 ltac:(lia));
          pose proof (Z.mul_succ_div_gt (monster_defense m) 2 ltac:(lia)); lia |].
  split; [pose proof (Z.mul_div_le (defense (stats a)) 2 ltac:(lia));
          pose proof (Z.mul_succ_div_gt (defense (stats a)) 2 ltac:(lia)); lia |].
  split; [intros n; apply ceil_div_least; pose proof (userDamage_pos a m); lia |].
  split; [intros n; apply ceil_div_least; pose proof (monsterDamage_pos a m); lia |].
  assert (Hwin : userTurnsToWin a m <= monsterTurnsToWin a m ->
                 _monsterEncounter cat location (a, w)
                 = _handleCombatVictory cat m (a, w1)).
  { intros H. rewrite Hun. apply Z.leb_le in H. now rewrite H. }
  assert (Hlose : monsterTurnsToWin a m < userTurnsToWin a m ->
                  _monsterEncounter cat location (a, w)
                  = _handleCombatDefeat m (a, w1)).
  { intros H. rewrite Hun. apply Z.leb_gt in H. now rewrite H. }
  split; [exact Hwin |]. split; [exact Hlose |].
  split; [intros H; apply Hwin; lia |].
  intros r s Hr.
  destruct (Z.le_gt_cases (userTurnsToWin a m) (monsterTurnsToWin a m)) as [Hc | Hc].
  - rewrite (Hwin Hc) in Hr. apply handleCombatVictory_result in Hr as (Hv & _).
    rewrite Hv. split; split; intros; try assumption; try reflexivity;
      try discriminate; lia.
  - rewrite (Hlose Hc) in Hr.
    destruct (handleCombatDefeat_result m (a, w1)) as (r' & s' & Hd & Hv & _).
    rewrite Hd in Hr. inversion Hr; subst. rewrite Hv.
    split; split; intros; try assumption; try reflexivity;
      try discriminate; lia.
Qed.

Lemma forest_slime_selected :
  _selectMonsterForLocation Sample.catalog Sample.forest 1
    (Sample.world_of ∅ [mkDraw 0 0] [])
  = (Ret (Some Sample.slime),
     mkWorld ∅ ∅ ∅ (Sample.draws [mkDraw 0 0]) 1 (Sample.flushes []) 0).
Proof. vm_compute. reflexivity. Qed.

End Combat.

Section CombatExamples.

Import AdventureManager.

#[local] Existing Instance sample_engine.

Lemma monsterEncounter_resolution_witness :
  userTurnsToWin (Sample.profile 1 0 100 [] Sample.no_equipment Sample.no_cooldowns)
                 Sample.slime <= 3
  /\ userDamage (Sample.profile 1 0 100 [] Sample.no_equipment Sample.no_cooldowns)
                Sample.slime = 9.
Proof.
  pose proof (monsterEncounter_resolution Sample.catalog Sample.forest
                (Sample.profile 1 0 100 [] Sample.no_equipment Sample.no_cooldowns)
                _ _ Sample.slime forest_slime_selected) as (Hd & _ & _ & _ & Ht & _).
  split.
  - apply Ht. rewrite Hd. vm_compute. discriminate.
  - rewrite Hd. vm_compute. reflexivity.
Defined.

End CombatExamples.

(** ** The level-up routine (AdventureManager._addXP) *)

Section LevelUp.

Import AdventureManager.

Context {engine : Math.Pow}.

Lemma num_at_least (z : Z) (x : F64.fnum) :
  z <= 100 -> F64.at_least z x -> z <= F64.num x.
Proof.
  intros Hz. destruct x as [| negative | n]; cbn [F64.at_least F64.num].
  - intros [].
  - intros ->. apply Z.le_trans with (2 ^ 7); [lia |].
    apply Z.pow_le_mono_r; lia.
  - intros H. exact H.
Qed.

Lemma xpNeededFor_nonneg (l : Z) : 0 <= xpNeededFor l.
Proof.
  unfold xpNeededFor. pose proof (Math.pow_scaled (l - 1)) as H.
  destruct (0 <=? l - 1).
  - apply Z.le_trans with 100; [lia |]. now apply num_at_least.
  - now apply num_at_least.
Qed.

(** From level 1 on a level asks for at least 100 XP. *)
Lemma xpNeededFor_min (l : Z) : 1 <= l -> 100 <= xpNeededFor l.
Proof.
  intros Hl. unfold xpNeededFor. pose proof (Math.pow_scaled (l - 1)) as H.
  assert (Hk : (0 <=? l - 1) = true) by (apply Z.leb_le; lia).
  rewrite Hk in H. now apply num_at_least.
Qed.

(** The first level asks for 100 XP, the amount a new profile starts
    with. *)
Lemma xpNeededFor_1 : xpNeededFor 1 = 100.
Proof.
  unfold xpNeededFor. change (1 - 1) with 0. rewrite Math.pow_zero.
  reflexivity.
Qed.

Lemma level_up_normal (a : Adventure) : normal (level_up a).
Proof. reflexivity. Qed.

Lemma level_up_decreases (a : Adventure) :
  normal a -> adv_xpNeeded a <= adv_xp a ->
  (turns_bound (level_up a) < turns_bound a)%nat.
Proof.
  unfold normal, turns_bound. intros Hn Hc. cbn [level_up adv_level adv_xp].
  pose proof (xpNeededFor_nonneg (adv_level a)) as H0.
  destruct (Z.le_gt_cases 1 (adv_level a)) as [Hl | Hl].
  - pose proof (xpNeededFor_min (adv_level a) Hl) as H100. lia.
  - lia.
Qed.

Lemma runs_for_step (k : nat) (a : Adventure) :
  adv_xpNeeded a <= adv_xp a -> runs_for k (level_up a) -> runs_for (S k) a.
Proof.
  intros Hc [Hbefore Hexit]. split.
  - intros [| j] Hj; [exact Hc |].
    rewrite Nat.iter_succ_r. apply Hbefore. lia.
  - rewrite Nat.iter_succ_r. exact Hexit.
Qed.

(** With [k] turns to make and more than [k] units of fuel, the loop
    makes exactly these turns. *)
Lemma loop_iter (k : nat) :
  forall (fuel : nat) (a : Adventure) (up : bool),
    runs_for k a -> (k < fuel)%nat ->
    _addXP_loop fuel a up = (Nat.iter k level_up a, up || negb (Nat.eqb k 0)).
Proof.
  induction k as [| k IH]; intros fuel a up [Hbefore Hexit] Hf.
  - destruct fuel; [lia |]. cbn [_addXP_loop Nat.iter nat_rect] in *.
    apply Z.leb_gt in Hexit. rewrite Hexit. now rewrite orb_false_r.
  - destruct fuel; [lia |]. cbn [_addXP_loop].
    pose proof (Hbefore 0%nat ltac:(lia)) as H0. cbn [Nat.iter nat_rect] in H0.
    apply Z.leb_le in H0. rewrite H0.
    rewrite (IH fuel (level_up a) true).
    + rewrite Nat.iter_succ_r. f_equal. now rewrite orb_true_r.
    + split.
      * intros j Hj. rewrite <- Nat.iter_succ_r. apply Hbefore. lia.
      * rewrite <- Nat.iter_succ_r. exact Hexit.
    + lia.
Qed.

(** Inside the loop the number of turns is bounded by [turns_bound]. *)
Lemma runs_for_normal (n : nat) :
  forall a, normal a -> (turns_bound a <= n)%nat ->
            exists k, (k <= turns_bound a)%nat /\ runs_for k a.
Proof.
  induction n as [| n IH]; intros a Hn Hb.
  - exists 0%nat. split; [lia |]. split; [intros j Hj; lia |].
    cbn [Nat.iter nat_rect].
    destruct (Z.lt_ge_cases (adv_xp a) (adv_xpNeeded a)) as [H | H]; [exact H |].
    pose proof (level_up_decreases a Hn H). lia.
  - destruct (Z.lt_ge_cases (adv_xp a) (adv_xpNeeded a)) as [H | H].
    + exists 0%nat. split; [lia |]. split; [intros j Hj; lia | exact H].
    + pose proof (level_up_decreases a Hn H) as Hdec.
      destruct (IH (level_up a) (level_up_normal a) ltac:(lia)) as (k & Hk & Hr).
      exists (S k). split; [lia |]. now apply runs_for_step.
Qed.

(** From any profile the loop reaches its exit within [_addXP_fuel]. *)
Lemma runs_for_any (a : Adventure) :
  exists k, (k < _addXP_fuel a)%nat /\ runs_for k a.
Proof.
  unfold _addXP_fuel.
  destruct (Z.lt_ge_cases (adv_xp a) (adv_xpNeeded a)) as [H | H].
  - exists 0%nat. split; [lia |]. split; [intros j Hj; lia | exact H].
  - destruct (runs_for_normal _ (level_up a) (level_up_normal a) (Nat.le_refl _))
      as (k & Hk & Hr).
    exists (S k). split; [| now apply runs_for_step].
    unfold turns_bound in Hk. cbn [level_up adv_level adv_xp] in Hk. lia.
Qed.

(** More fuel changes nothing: the fuel of [_addXP] never cuts the loop. *)
Lemma _addXP_loop_stable (a : Adventure) (extra : nat) :
  _addXP_loop (_addXP_fuel a + extra) a false
  = _addXP_loop (_addXP_fuel a) a false.
Proof.
  destruct (runs_for_any a) as (k & Hk & Hr).
  rewrite (loop_iter k (_addXP_fuel a + extra) a false Hr) by lia.
  now rewrite (loop_iter k (_addXP_fuel a) a false Hr) by lia.
Qed.

Lemma runs_for_unique (k k' : nat) (a : Adventure) :
  runs_for k a -> runs_for k' a -> k = k'.
Proof.
  intros [Hb He] [Hb' He'].
  destruct (Nat.lt_trichotomy k k') as [H | [H | H]]; [| exact H |].
  - specialize (Hb' k H). lia.
  - specialize (Hb k' H). lia.
Qed.

(** The fields after [k] level-ups. *)
Lemma iter_level_up_fields (k : nat) (a : Adventure) :
  let a' := Nat.iter k level_up a in
  adv_level a' = adv_level a + Z.of_nat k
  /\ maxHealth (stats a') = maxHealth (stats a) + 10 * Z.of_nat k
  /\ attack (stats a') = attack (stats a) + 2 * Z.of_nat k
  /\ defense (stats a') = defense (stats a) + Z.of_nat k
  /\ speed (stats a') = speed (stats a) + Z.of_nat k
  /\ (0 < k -> health (stats a') = maxHealth (stats a')
               /\ adv_xpNeeded a' = xpNeededFor (adv_level a'))%nat
  /\ inventory a' = inventory a /\ equipment a' = equipment a
  /\ cooldowns a' = cooldowns a /\ adv_location a' = adv_location a
  /\ monstersDefeated a' = monstersDefeated a.
Proof.
  induction k as [| k IH]; cbn zeta.
  - cbn [Nat.iter nat_rect]. repeat split; try lia; intros; lia.
  - rewrite Nat.iter_succ.
    destruct IH as (Hl & Hm & Ha & Hd & Hs & _ & Hi & He & Hc & Hloc & Hmd).
    set (b := Nat.iter k level_up a) in *.
    cbn [level_up adv_level stats maxHealth health attack defense speed
         adv_xpNeeded inventory equipment cooldowns adv_location
         monstersDefeated].
    repeat split; try assumption; try lia; intros; reflexivity.
Qed.

(** C2, amended.  [_addXP] adds the amount to [xp] and then runs the loop
    [while (xp >= xpNeeded)]: for some number [k] of turns the result is
    [k] level-ups of the profile, the loop condition holding before each
    turn and failing after the last, so a large grant jumps several
    levels in one call: a grant that covers the threshold of the profile
    and the one of the next level makes two levels at least.  One
    level-up subtracts [xpNeeded] from [xp], adds 1 to the level, 10 to
    [maxHealth], sets [health] to [maxHealth], adds 2 to attack, 1 to
    defense, 1 to speed and sets [xpNeeded] to
    [Math.floor (100 * Math.pow (1.2, level - 1))] for the new level, the
    product and the floor in binary64, the power as the engine computes
    it.  With [Math.pow (1.2, 1) = 1.2], a profile at level 1 with 95 XP
    and [xpNeeded = 100] that is granted 10 XP ends at level 2 with 5 XP
    and [xpNeeded = 120], stats raised once and health full. *)
Theorem _addXP_spec (a : Adventure) (amount : Z) :
  let a0 := with_xp a (adv_xp a + amount) in
  (exists k : nat,
     fst (_addXP a amount) = Nat.iter k level_up a0
     /\ info_leveledUp (snd (_addXP a amount)) = negb (Nat.eqb k 0)
     /\ runs_for k a0
     /\ adv_level (fst (_addXP a amount)) = adv_level a + Z.of_nat k
     /\ maxHealth (stats (fst (_addXP a amount)))
        = maxHealth (stats a) + 10 * Z.of_nat k
     /\ attack (stats (fst (_addXP a amount))) = attack (stats a) + 2 * Z.of_nat k
     /\ defense (stats (fst (_addXP a amount))) = defense (stats a) + Z.of_nat k
     /\ speed (stats (fst (_addXP a amount))) = speed (stats a) + Z.of_nat k
     /\ ((0 < k)%nat ->
         health (stats (fst (_addXP a amount)))
         = maxHealth (stats (fst (_addXP a amount)))
         /\ adv_xpNeeded (fst (_addXP a amount))
            = F64.num (F64.floor
                (100 * Math.pow 1.2 (adv_level (fst (_addXP a amount)) - 1))%float))
     /\ (adv_xpNeeded a + xpNeededFor (adv_level a + 1) <= adv_xp a + amount ->
         (2 <= k)%nat))
  /\ (forall b : Adventure,
        adv_xp (level_up b) = adv_xp b - adv_xpNeeded b
        /\ adv_level (level_up b) = adv_level b + 1
        /\ maxHealth (stats (level_up b)) = maxHealth (stats b) + 10
        /\ health (stats (level_up b)) = maxHealth (stats (level_up b))
        /\ attack (stats (level_up b)) = attack (stats b) + 2
        /\ defense (stats (level_up b)) = defense (stats b) + 1
        /\ speed (stats (level_up b)) = speed (stats b) + 1
        /\ adv_xpNeeded (level_up b)
           = F64.num (F64.floor
               (100 * Math.pow 1.2 (adv_level (level_up b) - 1))%float))
  /\ (Math.pow 1.2 1 = 1.2%float ->
      adv_level a = 1 -> adv_xp a = 95 -> adv_xpNeeded a = 100 -> amount = 10 ->
      let a' := fst (_addXP a amount) in
      adv_level a' = 2 /\ adv_xp a' = 5 /\ adv_xpNeeded a' = 120
      /\ maxHealth (stats a') = maxHealth (stats a) + 10
      /\ health (stats a') = maxHealth (stats a')
      /\ attack (stats a') = attack (stats a) + 2
      /\ defense (stats a') = defense (stats a) + 1
      /\ speed (stats a') = speed (stats a) + 1
      /\ info_leveledUp (snd (_addXP a amount)) = true).
Proof.
  intros a0.
  assert (Hgen : forall k, runs_for k a0 ->
            fst (_addXP a amount) = Nat.iter k level_up a0
            /\ info_leveledUp (snd (_addXP a amount)) = negb (Nat.eqb k 0)).
  { intros k Hr. destruct (runs_for_any a0) as (k' & Hk' & Hr').
    assert (k' = k) by (eapply runs_for_unique; eassumption). subst k'.
    unfold _addXP. fold a0.
    rewrite (loop_iter k (_addXP_fuel a0) a0 false Hr Hk'). split; reflexivity. }
  split.
  { destruct (runs_for_any a0) as (k & _ & Hr).
    destruct (Hgen k Hr) as [Hres Hup]. exists k.
    rewrite Hres.
    pose proof (iter_level_up_fields k a0) as F. cbn zeta in F.
    destruct F as (Hl & Hm & Ha & Hd & Hs & Hpos & _).
    change (adv_level a0) with (adv_level a) in Hl.
    change (stats a0) with (stats a) in Hm, Ha, Hd, Hs.
    split; [reflexivity |]. split; [exact Hup |]. split; [exact Hr |].
    split; [exact Hl |]. split; [exact Hm |]. split; [exact Ha |].
    split; [exact Hd |]. split; [exact Hs |].
    split; [intros Hk; exact (Hpos Hk) |].
    intros Hjump. destruct Hr as [Hbefore Hexit].
    pose proof (xpNeededFor_nonneg (adv_level a + 1)) as H0.
    destruct k as [| [| k]]; [| | lia].
    - cbn [Nat.iter nat_rect] in Hexit. unfold a0 in Hexit.
      cbn [with_xp adv_xp adv_xpNeeded] in Hexit. lia.
    - cbn [Nat.iter nat_rect] in Hexit. unfold a0 in Hexit.
      cbn [level_up with_xp adv_xp adv_xpNeeded adv_level] in Hexit. lia. }
  split; [intros b; cbn [level_up adv_level]; repeat split |].
  intros Hpow Hl Hx Hn ->.
  assert (H2 : xpNeededFor 2 = 120).
  { unfold xpNeededFor. change (2 - 1) with 1. rewrite Hpow.
    vm_compute. reflexivity. }
  assert (Hr : runs_for 1 a0).
  { split.
    - intros j Hj. assert (j = 0%nat) by lia. subst j.
      cbn [Nat.iter nat_rect]. unfold a0. cbn [with_xp adv_xp adv_xpNeeded]. lia.
    - cbn [Nat.iter nat_rect]. unfold a0.
      cbn [level_up with_xp adv_xp adv_xpNeeded adv_level].
      rewrite Hl, Hx, Hn. change (1 + 1) with 2. rewrite H2. lia. }
  destruct (Hgen 1%nat Hr) as [Hres Hup]. cbn zeta. rewrite Hres, Hup.
  cbn [Nat.iter nat_rect]. unfold a0.
  cbn [level_up with_xp adv_xp adv_xpNeeded adv_level stats maxHealth
       health attack defense speed].
  rewrite Hl, Hx, Hn. change (1 + 1) with 2. rewrite H2. repeat split.
Qed.

End LevelUp.

Section LevelUpExamples.

Import AdventureManager.

#[local] Existing Instance sample_engine.

Lemma _addXP_spec_witness :
  adv_level (fst (_addXP (Sample.profile 1 95 100 [] Sample.no_equipment
                                         Sample.no_cooldowns) 10)) = 2
  /\ adv_xp (fst (_addXP (Sample.profile 1 95 100 [] Sample.no_equipment
                                         Sample.no_cooldowns) 10)) = 5
  /\ adv_xpNeeded (fst (_addXP (Sample.profile 1 95 100 [] Sample.no_equipment
                                               Sample.no_cooldowns) 10)) = 120.
Proof.
  pose proof (_addXP_spec (Sample.profile 1 95 100 [] Sample.no_equipment
                                          Sample.no_cooldowns) 10) as H.
  cbn zeta in H. destruct H as (_ & _ & Hs).
  specialize (Hs eq_refl eq_refl eq_refl eq_refl eq_refl).
  destruct Hs as (Hl & Hx & Hn & _). repeat split; assumption.
Defined.

(** C2, as stated, fails at high levels.  With the power of the
    examples, a profile at level 154 with 95 XP of the 100 asked for that
    is granted 10 XP reaches level 155 with 5 XP, and with
    [xpNeeded = 156283054700875]: one less than the floor of the real
    [100 * 1.2 ^ 154], which is [100 * 6 ^ 154 / 5 ^ 154] in integers,
    the double nearest to [1.2] being below [1.2]. *)
Lemma xpNeeded_below_the_real_floor :
  let a := Sample.profile 154 95 100 [] Sample.no_equipment
                          Sample.no_cooldowns in
  adv_level (fst (_addXP a 10)) = 155
  /\ adv_xp (fst (_addXP a 10)) = 5
  /\ adv_xpNeeded (fst (_addXP a 10)) = 156283054700875
  /\ 100 * 6 ^ 154 / 5 ^ 154 = 156283054700876
  /\ adv_xpNeeded (fst (_addXP a 10)) <> 100 * 6 ^ 154 / 5 ^ 154.
Proof.
  cbn zeta. repeat split; try (vm_compute; reflexivity).
  vm_compute. discriminate.
Qed.

End LevelUpExamples.

(** ** Combat victory (AdventureManager._handleCombatVictory) *)

Section Victory.

Import AdventureManager.

Context {engine : Math.Pow}.

Lemma _addXP_no_levelup (a : Adventure) (amount : Z) :
  adv_xp a + amount < adv_xpNeeded a ->
  _addXP a amount = (with_xp a (adv_xp a + amount), mkLevelUpInfo false false).
Proof.
  intros H. unfold _addXP.
  set (a0 := with_xp a (adv_xp a + amount)).
  assert (Hr : runs_for 0 a0).
  { split; [intros j Hj; lia | exact H]. }
  rewrite (loop_iter 0 (_addXP_fuel a0) a0 false Hr); [reflexivity |].
  unfold _addXP_fuel. lia.
Qed.

Lemma _addXP_levelup (a : Adventure) (amount : Z) :
  adv_xpNeeded a <= adv_xp a + amount ->
  info_leveledUp (snd (_addXP a amount)) = true.
Proof.
  intros H. unfold _addXP.
  destruct (runs_for_any (with_xp a (adv_xp a + amount))) as (k & Hk & Hr).
  rewrite (loop_iter k _ _ false Hr Hk). cbn [snd info_leveledUp orb].
  destruct k; [| reflexivity].
  destruct Hr as [_ Hexit].
  cbn [Nat.iter nat_rect with_xp adv_xp adv_xpNeeded] in Hexit. lia.
Qed.

(** When the XP of the monster makes the level go up, the victory handler
    does not return: it raises the [ReferenceError]. *)
Lemma handleCombatVictory_levelup_throws (cat : Catalog) (m : Monster)
    (a : Adventure) (w : World) :
  (let g := monster_goldReward m in
   let a1 := add_gold (gold_min g + JS.floor_mul (draw_val (rnd w (rpos w)))
                                      (gold_max g - gold_min g + 1)) a in
   adv_xpNeeded a1 <= adv_xp a1 + monster_xpReward m) ->
  fst (_handleCombatVictory cat m (a, w)) = Throw ReferenceError.
Proof.
  cbn zeta. intros H. apply _addXP_levelup in H.
  unfold _handleCombatVictory, bind, liftW, random, modify_obj, addXP_obj,
    get_obj, ret, throw.
  cbn [fst snd mem disk xpCooldowns rnd rpos flush_ok fpos].
  destruct (_addXP _ _) as [a2 info] eqn:E. cbn [snd] in H.
  cbn [fst snd mem disk xpCooldowns rnd rpos flush_ok fpos].
  destruct (JS.Qltb _ _ && _).
  - cbn [fst snd].
    destruct (JS.index _ _) as [d |]; [destruct (JS.map_get _ d) |];
      cbn [fst snd]; rewrite ?H; reflexivity.
  - cbn [fst snd]. rewrite H. reflexivity.
Qed.

(** Without a level-up and without a drop the victory is returned: the
    gold is within the monster's range, the XP is added, one more monster
    is counted, and the result carries the rewards. *)
Lemma handleCombatVictory_plain (cat : Catalog) (m : Monster)
    (a : Adventure) (w : World) :
  let g := monster_goldReward m in
  let goldReward :=
    gold_min g + JS.floor_mul (draw_val (rnd w (rpos w)))
                              (gold_max g - gold_min g + 1) in
  adv_xp a + monster_xpReward m < adv_xpNeeded a ->
  JS.Qltb (draw_val (rnd w (S (rpos w)))) (monster_dropChance m) = false ->
  gold_min g <= gold_max g ->
  gold_min g <= goldReward <= gold_max g
  /\ exists w',
       _handleCombatVictory cat m (a, w)
       = (Ret (mkResult true
                 (MsgVictory (monster_name m) goldReward (monster_xpReward m))
                 (Some true)
                 (Some (mkRewards (Some goldReward) (Some (monster_xpReward m))
                                  None))
                 (Some false) None None true),
          (with_monstersDefeated
             (with_xp (add_gold goldReward a) (adv_xp a + monster_xpReward m))
             (monstersDefeated a + 1), w'))
       /\ mem w' = mem w /\ disk w' = disk w /\ rpos w' = S (S (rpos w)).
Proof.
  cbn zeta. intros Hxp Hdrop Hg.
  pose proof (floor_mul_draw_range (rnd w (rpos w))
                (gold_max (monster_goldReward m)
                 - gold_min (monster_goldReward m) + 1) ltac:(lia)) as Hr.
  split; [lia |].
  unfold _handleCombatVictory, bind, liftW, random, modify_obj, addXP_obj,
    get_obj, ret, throw.
  cbn [fst snd mem disk xpCooldowns rnd rpos flush_ok fpos].
  rewrite _addXP_no_levelup by exact Hxp.
  cbn [fst snd mem disk xpCooldowns rnd rpos flush_ok fpos info_leveledUp].
  rewrite Hdrop. cbn [andb fst snd].
  eexists. split; [reflexivity |]. repeat split.
Qed.

End Victory.

Section VictoryExamples.

Import AdventureManager.

#[local] Existing Instance sample_engine.

(** C4.  Three hunts in the forest that meet a slime and win; the draws
    are the encounter roll, the pick of the monster, the gold roll, the
    drop roll and the pick of the drop.  Without a drop and without a
    level-up the victory is returned: gold within the monster's range,
    its XP, one more monster defeated, the profile written back with the
    hunt cooldown.  When the XP makes the level go up, and when an item
    of the catalog drops, the victory handler throws and the hunt answers
    with its generic error: gold and XP are already on the profile
    object, no item was added, the cooldown is not set and nothing is
    written back. *)
Lemma hunt_victory_runs :
  let jid := "alice@s.whatsapp.net" in
  let quiet := [mkDraw 0 0; mkDraw 0 0; mkDraw 0 0; mkDraw 9 0] in
  let drop := [mkDraw 0 0; mkDraw 0 0; mkDraw 0 0; mkDraw 0 0; mkDraw 0 0] in
  let start (xp : Z) :=
    Sample.profile 1 xp 100 [] Sample.no_equipment Sample.no_cooldowns in
  let w (xp : Z) (ds : list Draw) :=
    Sample.world_of (Sample.store_with (start xp)) ds [] in
  (* no drop, no level-up: the victory is returned and written back *)
  (let r := hunt Sample.catalog 5000 jid (w 0 quiet) in
   success (result r) = true
   /\ message (result r) = MsgVictory "Slime" 5 10
   /\ mem (world r) !! "alice"
      = Some (SUser Sample.alice
                (Some (set_cd_hunt 125000
                         (with_monstersDefeated
                            (with_xp (add_gold 5 (start 0)) 10) 1)))))
  (* the XP makes level 2: the handler throws, the hunt reports an error *)
  /\ (let r := hunt Sample.catalog 5000 jid (w 95 quiet) in
      result r = failure MsgHuntError
      /\ option_map adv_level (object r) = Some 2
      /\ option_map (fun a => gold (inventory a)) (object r) = Some 105
      /\ option_map (fun a => cd_hunt (cooldowns a)) (object r) = Some 0
      /\ mem (world r) = mem (w 95 quiet))
  (* a health potion drops: the handler throws, the hunt reports an error *)
  /\ (let r := hunt Sample.catalog 5000 jid (w 0 drop) in
      result r = failure MsgHuntError
      /\ option_map (fun a => inv_items (inventory a)) (object r) = Some []
      /\ option_map (fun a => gold (inventory a)) (object r) = Some 105
      /\ option_map monstersDefeated (object r) = Some 1
      /\ mem (world r) = mem (w 0 drop)).
Proof. vm_compute. repeat split. Qed.

End VictoryExamples.

(** ** Cooldown gating (hunt, train, claimDaily) *)

Section Cooldowns.

Import AdventureManager.

Context {engine : Math.Pow}.

Lemma before_at_idem (s : string) : JS.before_at (JS.before_at s) = JS.before_at s.
Proof.
  induction s as [| c s IH]; [reflexivity |].
  cbn [JS.before_at]. destruct (Ascii.eqb c "@") eqn:E; [reflexivity |].
  cbn [JS.before_at]. rewrite E. now rewrite IH.
Qed.

(** A user whose record holds a profile: [getUserData] returns it and
    touches nothing. *)
Lemma getUserData_existing (now : Z) (jid : string) (w : World)
    (e : Stored) (a : Adventure) :
  mem w !! JS.before_at jid = Some e -> stored_adventure e = Some a ->
  getUserData now jid w = (Ret a, w).
Proof.
  intros He Ha. unfold getUserData, LevelManager.getUserData, bind, Db.get.
  rewrite before_at_idem, He. unfold ret. cbn [fst snd]. now rewrite Ha.
Qed.

Lemma bind_ret_inv {S A B : Type} (m : M S A) (k : A -> M S B) (s s' : S) (b : B) :
  bind m k s = (Ret b, s') ->
  exists a s1, m s = (Ret a, s1) /\ k a s1 = (Ret b, s').
Proof.
  unfold bind. destruct (m s) as [[a | e] s1]; [| discriminate].
  intros H. now exists a, s1.
Qed.

Lemma monsterEncounter_message (cat : Catalog) (location : Location)
    (s s' : Adventure * World) (r : Result) :
  _monsterEncounter cat location s = (Ret r, s') ->
  is_cooldown_msg (message r) = false.
Proof.
  unfold _monsterEncounter. intros H.
  apply bind_ret_inv in H as (a & s1 & _ & H).
  apply bind_ret_inv in H as (m & s2 & _ & H).
  destruct m as [m |]; [| inversion H; reflexivity].
  destruct (_ <=? _).
  - unfold _handleCombatVictory, bind, liftW, random, modify_obj, addXP_obj,
      get_obj, ret, throw in H.
    cbn [fst snd] in H. repeat step; reflexivity.
  - unfold _handleCombatDefeat, bind, modify_obj, ret in H.
    inversion H. reflexivity.
Qed.

Lemma findTreasure_message (cat : Catalog) (location : Location)
    (s s' : Adventure * World) (r : Result) :
  _findTreasure cat location s = (Ret r, s') ->
  is_cooldown_msg (message r) = false.
Proof.
  unfold _findTreasure, bind, liftW, random, modify_obj, get_obj, ret, throw.
  cbn [fst snd]. intros H. repeat step; reflexivity.
Qed.

Lemma hunt_body_ready (cat : Catalog) (now : Z) (jid : string)
    (a : Adventure) (w : World) (s' : Adventure * World) (r : Result) :
  cd_hunt (cooldowns a) <= now ->
  hunt_body cat now jid (a, w) = (Ret r, s') ->
  is_cooldown_msg (message r) = false.
Proof.
  intros Hcd. unfold hunt_body. unfold bind at 1. unfold get_obj at 1.
  cbn [fst snd]. apply Z.ltb_ge in Hcd. rewrite Hcd.
  destruct (JS.map_get _ _) as [location |]; [| intros H; inversion H; reflexivity].
  destruct (location_safeZone location); [intros H; inversion H; reflexivity |].
  intros H. apply bind_ret_inv in H as (roll & s1 & _ & H).
  destruct (JS.Qltb roll (7 # 10)).
  - apply bind_ret_inv in H as (res & s2 & Hres & H).
    apply monsterEncounter_message in Hres.
    apply bind_ret_inv in H as (? & s3 & _ & H).
    apply bind_ret_inv in H as (? & s4 & _ & H).
    inversion H; subst. exact Hres.
  - destruct (JS.Qltb roll (9 # 10)).
    + apply bind_ret_inv in H as (res & s2 & Hres & H).
      apply findTreasure_message in Hres.
      apply bind_ret_inv in H as (? & s3 & _ & H).
      apply bind_ret_inv in H as (? & s4 & _ & H).
      inversion H; subst. exact Hres.
    + apply bind_ret_inv in H as (? & s3 & _ & H).
      apply bind_ret_inv in H as (? & s4 & _ & H).
      inversion H; subst. reflexivity.
Qed.

Lemma train_body_ready (now : Z) (jid : string)
    (a : Adventure) (w : World) (s' : Adventure * World) (r : Result) :
  cd_train (cooldowns a) <= now ->
  train_body now jid (a, w) = (Ret r, s') ->
  is_cooldown_msg (message r) = false.
Proof.
  intros Hcd. unfold train_body. unfold bind at 1. unfold get_obj at 1.
  cbn [fst snd]. apply Z.ltb_ge in Hcd. rewrite Hcd. intros H.
  repeat (apply bind_ret_inv in H as (? & ? & _ & H)).
  inversion H; subst. reflexivity.
Qed.

Lemma claimDaily_body_ready (now : Z) (jid : string)
    (a : Adventure) (w : World) (s' : Adventure * World) (r : Result) :
  cd_daily (cooldowns a) <= now ->
  claimDaily_body now jid (a, w) = (Ret r, s') ->
  is_cooldown_msg (message r) = false.
Proof.
  intros Hcd. unfold claimDaily_body. unfold bind at 1. unfold get_obj at 1.
  cbn [fst snd]. apply Z.ltb_ge in Hcd. rewrite Hcd. intros H.
  repeat (apply bind_ret_inv in H as (? & ? & _ & H)).
  inversion H; subst. reflexivity.
Qed.

(** A handler that did not answer with a cooldown message in its body
    does not answer with one at all: the generic errors are not cooldown
    messages. *)
Lemma run_handler_ready (now : Z) (jid : string) (body : H Result)
    (err : Result) (w : World) (a : Adventure) :
  getUserData now jid w = (Ret a, w) ->
  is_cooldown_msg (message err) = false ->
  (forall r s', body (a, w) = (Ret r, s') -> is_cooldown_msg (message r) = false) ->
  is_cooldown_msg (message (result (run_handler now jid body err w))) = false.
Proof.
  intros Hg Herr Hbody. unfold run_handler. rewrite Hg.
  destruct (body (a, w)) as [[r | e] [a' w']] eqn:E; cbn [result].
  - eapply Hbody. reflexivity.
  - exact Herr.
Qed.

(** For a user whose record holds a profile, each of [hunt], [train]
    and [claimDaily] looks at the timestamp of its own track only.
    While that timestamp is strictly in the future the handler returns
    the failure that carries the cooldown message, with the profile, the
    store, the random stream and the flush count as they were.  At or
    after the timestamp the answer is never a cooldown message, whatever
    the timestamps of the other tracks. *)
Lemma gating_on_profile (cat : Catalog) (now : Z) (jid : string) (w : World)
    (e : Stored) (a : Adventure) :
  mem w !! JS.before_at jid = Some e -> stored_adventure e = Some a ->
  (now < cd_hunt (cooldowns a) ->
   hunt cat now jid w
   = mkRun (failure (MsgHuntCooldown
                       (JS.ceil_div (cd_hunt (cooldowns a) - now) 1000)))
           (Some a) w)
  /\ (now < cd_train (cooldowns a) ->
      train now jid w
      = mkRun (failure (MsgTrainCooldown
                 (JS.ceil_div (cd_train (cooldowns a) - now) 1000 / 60)
                 (JS.ceil_div (cd_train (cooldowns a) - now) 1000 mod 60)))
              (Some a) w)
  /\ (now < cd_daily (cooldowns a) ->
      claimDaily now jid w
      = mkRun (failure (MsgDailyCooldown
                 (JS.ceil_div (cd_daily (cooldowns a) - now) 1000 / 3600)
                 (JS.ceil_div (cd_daily (cooldowns a) - now) 1000 mod 3600 / 60)))
              (Some a) w)
  /\ is_cooldown_msg (message (result (hunt cat now jid w)))
     = (now <? cd_hunt (cooldowns a))
  /\ is_cooldown_msg (message (result (train now jid w)))
     = (now <? cd_train (cooldowns a))
  /\ is_cooldown_msg (message (result (claimDaily now jid w)))
     = (now <? cd_daily (cooldowns a)).
Proof.
  intros He Ha. pose proof (getUserData_existing now jid w e a He Ha) as Hg.
  assert (Hh : now < cd_hunt (cooldowns a) ->
               hunt cat now jid w
               = mkRun (failure (MsgHuntCooldown
                          (JS.ceil_div (cd_hunt (cooldowns a) - now) 1000)))
                       (Some a) w).
  { intros Hc. unfold hunt, run_handler. rewrite Hg.
    unfold hunt_body, bind, get_obj, ret. cbn [fst snd].
    apply Z.ltb_lt in Hc. now rewrite Hc. }
  assert (Ht : now < cd_train (cooldowns a) ->
               train now jid w
               = mkRun (failure (MsgTrainCooldown
                          (JS.ceil_div (cd_train (cooldowns a) - now) 1000 / 60)
                          (JS.ceil_div (cd_train (cooldowns a) - now) 1000 mod 60)))
                       (Some a) w).
  { intros Hc. unfold train, run_handler. rewrite Hg.
    unfold train_body, bind, get_obj, ret. cbn [fst snd].
    apply Z.ltb_lt in Hc. now rewrite Hc. }
  assert (Hd : now < cd_daily (cooldowns a) ->
               claimDaily now jid w
               = mkRun (failure (MsgDailyCooldown
                          (JS.ceil_div (cd_daily (cooldowns a) - now) 1000 / 3600)
                          (JS.ceil_div (cd_daily (cooldowns a) - now) 1000
                             mod 3600 / 60)))
                       (Some a) w).
  { intros Hc. unfold claimDaily, run_handler. rewrite Hg.
    unfold claimDaily_body, bind, get_obj, ret. cbn [fst snd].
    apply Z.ltb_lt in Hc. now rewrite Hc. }
  repeat (split; [assumption |]).
  split; [| split].
  - destruct (now <? cd_hunt (cooldowns a)) eqn:E.
    + apply Z.ltb_lt in E. now rewrite (Hh E).
    + apply Z.ltb_ge in E. unfold hunt.
      apply (run_handler_ready now jid _ _ w a Hg); [reflexivity |].
      intros r s' Hb. eapply hunt_body_ready; eassumption.
  - destruct (now <? cd_train (cooldowns a)) eqn:E.
    + apply Z.ltb_lt in E. now rewrite (Ht E).
    + apply Z.ltb_ge in E. unfold train.
      apply (run_handler_ready now jid _ _ w a Hg); [reflexivity |].
      intros r s' Hb. eapply train_body_ready; eassumption.
  - destruct (now <? cd_daily (cooldowns a)) eqn:E.
    + apply Z.ltb_lt in E. now rewrite (Hd E).
    + apply Z.ltb_ge in E. unfold claimDaily.
      apply (run_handler_ready now jid _ _ w a Hg); [reflexivity |].
      intros r s' Hb. eapply claimDaily_body_ready; eassumption.
Qed.

End Cooldowns.

(** ** Inventory and equipment (equipItem, buyItem, travel) *)

Section Equip.

Import AdventureManager.

Context {engine : Math.Pow}.

Lemma held_add_item (l : list InvItem) (id id' : string) (q : Z) :
  held (add_item l id q) id' = held l id' + (if String.eqb id id' then q else 0).
Proof.
  induction l as [| it l IH]; cbn [add_item held].
  - cbn [inv_id quantity]. lia.
  - destruct (String.eqb (inv_id it) id) eqn:E; cbn [held inv_id quantity].
    + apply String.eqb_eq in E. rewrite E.
      destruct (String.eqb id id'); lia.
    + rewrite IH. lia.
Qed.

Lemma held_remove_item (l : list InvItem) (id : string) (it : InvItem) :
  inv_find l id = Some it -> 1 <= quantity it ->
  exists l', remove_item l id 1 = Some l'
             /\ forall id', held l' id'
                            = held l id' - (if String.eqb id id' then 1 else 0).
Proof.
  induction l as [| x l IH]; cbn [inv_find remove_item]; [discriminate |].
  destruct (String.eqb (inv_id x) id) eqn:E.
  - intros Hf Hq. inversion Hf; subst x. apply String.eqb_eq in E.
    destruct (quantity it - 1 <=? 0) eqn:Q.
    + apply Z.leb_le in Q. exists l. split; [reflexivity |].
      intros id'. cbn [held]. rewrite E.
      destruct (String.eqb id id'); lia.
    + apply Z.leb_gt in Q. eexists. split; [reflexivity |].
      intros id'. cbn [held inv_id quantity]. rewrite E.
      destruct (String.eqb id id'); lia.
  - intros Hf Hq. destruct (IH Hf Hq) as (l' & -> & Hl').
    eexists. split; [reflexivity |].
    intros id'. cbn [held]. rewrite Hl'. lia.
Qed.

Lemma equipable_cases (t : string) :
  equipable t = true -> t = "weapon" \/ t = "armor" \/ t = "accessory".
Proof.
  unfold equipable. cbn [existsb]. rewrite !orb_true_iff.
  intros [H | [H | [H | H]]]; try discriminate;
    apply String.eqb_eq in H; auto.
Qed.

Lemma equipable_not_consumable (t : string) :
  equipable t = true -> String.eqb t "consumable" = false.
Proof.
  intros H. destruct (equipable_cases t H) as [-> | [-> | ->]]; reflexivity.
Qed.

Lemma get_set_slot (e : Equipment) (t id : string) :
  equipable t = true -> get_slot (set_slot e t id) t = Some id.
Proof.
  intros H. destruct (equipable_cases t H) as [-> | [-> | ->]]; reflexivity.
Qed.

Lemma get_set_slot_other (e : Equipment) (t t' id : string) :
  equipable t = true -> t' <> t ->
  get_slot (set_slot e t id) t' = get_slot e t'.
Proof.
  intros H Hne. unfold get_slot.
  destruct (String.eqb t' "weapon") eqn:E1;
    [apply String.eqb_eq in E1 |];
    (destruct (String.eqb t' "armor") eqn:E2;
       [apply String.eqb_eq in E2 |]);
    (destruct (String.eqb t' "accessory") eqn:E3;
       [apply String.eqb_eq in E3 |]);
    destruct (equipable_cases t H) as [-> | [-> | ->]];
    subst; try reflexivity; try congruence; try discriminate.
Qed.

(** The write-back of the handlers that pass the profile itself to
    [updateUserData]: the profile goes under the user key, then the
    flush decides between the answer and the generic error. *)
Lemma write_back_bare_run (jid : string) (a : Adventure) (w : World) :
  write_back_bare jid (a, w)
  = (if flush_ok w (fpos w) then Ret tt else Throw IOError,
     (a, mkWorld (<[JS.before_at jid := bare a]> (mem w))
                 (if flush_ok w (fpos w)
                  then <[JS.before_at jid := bare a]> (mem w) else disk w)
                 (xpCooldowns w) (rnd w) (rpos w) (flush_ok w) (S (fpos w)))).
Proof.
  unfold write_back_bare, updateUserData, liftW, get_obj,
    LevelManager.saveData, Db.save, Db.set, ret, bind.
  cbn [fst snd mem disk xpCooldowns rnd rpos flush_ok fpos].
  destruct (flush_ok w (fpos w)); reflexivity.
Qed.

Lemma equipItem_run (cat : Catalog) (now : Z) (jid itemId : string)
    (w : World) (e : Stored) (a : Adventure) (it : InvItem) (item : Item) :
  mem w !! JS.before_at jid = Some e -> stored_adventure e = Some a ->
  inv_find (inv_items (inventory a)) itemId = Some it -> 1 <= quantity it ->
  JS.map_get (items cat) itemId = Some item ->
  equipable (item_type item) = true ->
  equipItem cat now jid itemId w
  = mkRun (if flush_ok w (fpos w)
           then mkResult true (MsgEquipped (item_name item)) None None None
                         None (Some (item_type item)) false
           else failure MsgEquipError)
          (Some (equipped a (item_type item) itemId))
          (written_bare jid (equipped a (item_type item) itemId) w).
Proof.
  intros He Ha Hf Hq Hi Ht. unfold equipItem, run_handler.
  rewrite (getUserData_existing now jid w e a He Ha).
  unfold equipItem_body. unfold bind at 1. unfold get_obj at 1. cbn [fst snd].
  rewrite Hf. assert (Hq' : (quantity it <? 1) = false) by (apply Z.ltb_ge; lia).
  rewrite Hq', Hi, (equipable_not_consumable _ Ht), Ht.
  unfold bind, modify_obj, ret. cbn [fst snd].
  unfold equipped, written_bare.
  destruct (get_slot (equipment a) (item_type item)) as [c |];
    [destruct (JS.truthy_str c) |];
    cbn [fst snd]; rewrite write_back_bare_run;
    destruct (flush_ok w (fpos w)); reflexivity.
Qed.

Lemma equipment_equipped (a : Adventure) (t id : string) :
  equipment (equipped a t id) = set_slot (equipment a) t id
  /\ gold (inventory (equipped a t id)) = gold (inventory a)
  /\ stats (equipped a t id) = stats a
  /\ adv_level (equipped a t id) = adv_level a
  /\ cooldowns (equipped a t id) = cooldowns a.
Proof.
  unfold equipped, _addItemToInventory, _removeItemFromInventory, with_items,
    with_inventory, with_equipment.
  cbn [inventory inv_items gold equipment].
  destruct (remove_item (inv_items (inventory a)) id 1);
    destruct (get_slot (equipment a) t) as [c |];
    try destruct (JS.truthy_str c); repeat split.
Qed.

Lemma truthy_str_nonempty (s : string) : s <> "" -> JS.truthy_str s = true.
Proof.
  intros H. unfold JS.truthy_str. destruct (String.eqb s "") eqn:E; [| reflexivity].
  apply String.eqb_eq in E. contradiction.
Qed.

(** [buyItem] for a user with a profile, case by case. *)
Lemma buyItem_run (cat : Catalog) (now : Z) (jid itemId : string)
    (w : World) (e : Stored) (a : Adventure) :
  mem w !! JS.before_at jid = Some e -> stored_adventure e = Some a ->
  buyItem cat now jid itemId w
  = match JS.map_get (items cat) itemId with
    | None => mkRun (failure MsgItemNotFound) (Some a) w
    | Some item =>
        if JS.truthy_onum (item_required_level item)
           && (adv_level a <? default 0 (item_required_level item))
        then mkRun (failure (MsgLevelTooLow
                               (default 0 (item_required_level item))
                               (adv_level a))) (Some a) w
        else if gold (inventory a) <? item_value item
        then mkRun (failure (MsgNotEnoughGold (item_value item))) (Some a) w
        else mkRun (if flush_ok w (fpos w)
                    then ok (MsgPurchased (item_name item) (item_value item)
                               (String.eqb (item_type item) "consumable"))
                    else failure MsgBuyError)
                   (Some (purchased a itemId item))
                   (written_bare jid (purchased a itemId item) w)
    end.
Proof.
  intros He Ha. unfold buyItem, run_handler.
  rewrite (getUserData_existing now jid w e a He Ha).
  unfold buyItem_body. unfold bind at 1. unfold get_obj at 1. cbn [fst snd].
  destruct (JS.map_get (items cat) itemId) as [item |]; [| reflexivity].
  destruct (JS.truthy_onum _ && _); [reflexivity |].
  destruct (gold (inventory a) <? item_value item); [reflexivity |].
  unfold bind, modify_obj, ret. cbn [fst snd].
  rewrite write_back_bare_run. unfold purchased, written_bare.
  destruct (flush_ok w (fpos w)); reflexivity.
Qed.

(** [travel] for a user with a profile, case by case. *)
Lemma travel_run (cat : Catalog) (now : Z) (jid locationId : string)
    (w : World) (e : Stored) (a : Adventure) :
  mem w !! JS.before_at jid = Some e -> stored_adventure e = Some a ->
  travel cat now jid locationId w
  = match JS.map_get (locations cat) locationId with
    | None => mkRun (failure MsgNoLocation) (Some a) w
    | Some location =>
        if JS.truthy_onum (location_minLevel location)
           && (adv_level a <? default 0 (location_minLevel location))
        then mkRun (failure (MsgTravelLevel
                               (default 0 (location_minLevel location))
                               (location_name location) (adv_level a)))
                   (Some a) w
        else mkRun (if flush_ok w (fpos w)
                    then ok (MsgTraveled (location_name location))
                    else failure MsgTravelError)
                   (Some (with_location a locationId))
                   (written_bare jid (with_location a locationId) w)
    end.
Proof.
  intros He Ha. unfold travel, run_handler.
  rewrite (getUserData_existing now jid w e a He Ha).
  unfold travel_body. unfold bind at 1. unfold get_obj at 1. cbn [fst snd].
  destruct (JS.map_get (locations cat) locationId) as [location |]; [| reflexivity].
  destruct (JS.truthy_onum _ && _); [reflexivity |].
  unfold bind, modify_obj, ret. cbn [fst snd].
  rewrite write_back_bare_run. unfold written_bare.
  destruct (flush_ok w (fpos w)); reflexivity.
Qed.

Lemma level_gate (o : option Z) (r level : Z) :
  o = Some r -> r <> 0 -> level < r ->
  JS.truthy_onum o && (level <? default 0 o) = true.
Proof.
  intros -> Hr Hl. cbn [JS.truthy_onum default].
  apply andb_true_iff. split.
  - apply negb_true_iff. now apply Z.eqb_neq.
  - now apply Z.ltb_lt.
Qed.

End Equip.

(** ** Faults and write-back (all handlers) *)

Section Faults.

Import AdventureManager.

Context {engine : Math.Pow}.

Lemma write_back_adventure_run (now : Z) (jid : string) (e : Stored)
    (a : Adventure) (w : World) :
  mem w !! JS.before_at jid = Some e ->
  write_back_adventure now jid (a, w)
  = (if flush_ok w (fpos w) then Ret tt else Throw IOError,
     (a, written_adventure jid e a w)).
Proof.
  intros He.
  unfold write_back_adventure, updateAdventureData, updateUserData,
    LevelManager.getUserData, liftW, get_obj, LevelManager.saveData, Db.save,
    Db.set, Db.get, ret, bind.
  cbn [fst snd]. rewrite before_at_idem, He.
  cbn [fst snd mem disk xpCooldowns rnd rpos flush_ok fpos].
  unfold written_adventure.
  destruct (flush_ok w (fpos w)); reflexivity.
Qed.

Lemma claimDaily_run (now : Z) (jid : string) (w : World) (e : Stored)
    (a : Adventure) :
  mem w !! JS.before_at jid = Some e -> stored_adventure e = Some a ->
  cd_daily (cooldowns a) <= now ->
  claimDaily now jid w
  = mkRun (if flush_ok w (fpos w)
           then mkResult true
                  (MsgDailyClaimed (100 + adv_level a * 10) (20 + adv_level a * 5)
                     (info_leveledUp
                        (snd (_addXP (add_gold (100 + adv_level a * 10) a)
                                     (20 + adv_level a * 5))))
                     (adv_level (claimed now a)))
                  None
                  (Some (mkRewards (Some (100 + adv_level a * 10))
                                   (Some (20 + adv_level a * 5)) None))
                  (Some (info_leveledUp
                           (snd (_addXP (add_gold (100 + adv_level a * 10) a)
                                        (20 + adv_level a * 5)))))
                  None None false
           else failure MsgDailyError)
          (Some (claimed now a))
          (written_adventure jid e (claimed now a) w).
Proof.
  intros He Ha Hcd. unfold claimDaily, run_handler.
  rewrite (getUserData_existing now jid w e a He Ha).
  unfold claimDaily_body. unfold bind at 1. unfold get_obj at 1. cbn [fst snd].
  apply Z.ltb_ge in Hcd. rewrite Hcd.
  unfold bind at 1. unfold modify_obj at 1. cbn [fst snd].
  unfold bind at 1. unfold addXP_obj. cbn [fst snd].
  destruct (_addXP (add_gold (100 + adv_level a * 10) a) (20 + adv_level a * 5))
    as [a2 info] eqn:E.
  unfold claimed. rewrite E. cbn [fst snd].
  unfold bind at 1. unfold modify_obj at 1. cbn [fst snd].
  unfold bind at 1. rewrite (write_back_adventure_run now jid e _ w He).
  destruct (flush_ok w (fpos w)); reflexivity.
Qed.

(** What [try { ... } catch] makes of a handler: the answer of the body
    when [getUserData] and the body return, the generic error when either
    throws.  Nothing is undone in the second case: the world is the one
    the exception left. *)
Lemma run_handler_cases (now : Z) (jid : string) (body : H Result)
    (err : Result) (w : World) :
  let run := run_handler now jid body err w in
  (exists a w1 r a' w2,
     getUserData now jid w = (Ret a, w1) /\ body (a, w1) = (Ret r, (a', w2))
     /\ run = mkRun r (Some a') w2)
  \/ (exists a w1 x a' w2,
        getUserData now jid w = (Ret a, w1) /\ body (a, w1) = (Throw x, (a', w2))
        /\ run = mkRun err (Some a') w2)
  \/ (exists x w1, getUserData now jid w = (Throw x, w1) /\ run = mkRun err None w1).
Proof.
  cbn zeta. unfold run_handler.
  destruct (getUserData now jid w) as [[a | x] w1] eqn:G.
  - destruct (body (a, w1)) as [[r | x] [a' w2]] eqn:E.
    + left. exists a, w1, r, a', w2. repeat split; assumption.
    + right. left. exists a, w1, x, a', w2. repeat split; assumption.
  - right. right. exists x, w1. repeat split.
Qed.

End Faults.

Section FaultsExamples.

Import AdventureManager.

#[local] Existing Instance sample_engine.

(** C9, as stated, fails.  A first daily claim of a new user, with a
    flush that fails at the write-back: the answer is the generic
    failure, yet the store was written twice.  The profile created on
    first access is on disk, and the claimed profile, with the gold, the
    XP and the cooldown, is in the store's memory. *)
Lemma fault_after_writes :
  let w := Sample.world_of ∅ [] [true; false] in
  let run := claimDaily 5000 "bob" w in
  let bob := mkUserData "bob" "bob" 0 1 0 5000 5000 [] in
  let fresh := _createDefaultAdventureData 5000 (SUser bob None) in
  result run = failure MsgDailyError
  /\ mem w !! "bob" = None /\ disk w !! "bob" = None
  /\ disk (world run) !! "bob" = Some (SUser bob (Some fresh))
  /\ mem (world run) !! "bob" = Some (SUser bob (Some (claimed 5000 fresh)))
  /\ gold (inventory (claimed 5000 fresh)) = 210
  /\ cd_daily (cooldowns (claimed 5000 fresh)) = 86405000
  /\ fpos (world run) = 2%nat
  /\ ~ (mem (world run) = mem w /\ disk (world run) = disk w).
Proof.
  cbn zeta. repeat split; try (vm_compute; reflexivity).
  intros [Hm _]. apply (f_equal (fun m => m !! "bob")) in Hm.
  vm_compute in Hm. discriminate.
Qed.

End FaultsExamples.

(** * Leaderboard and progress bar *)

Section Ranking.

Import LevelManager.

Lemma sort_insert_perm x l : Permutation (sort_insert x l) (x :: l).
Proof.
  induction l as [|y l IH]; simpl; [reflexivity|].
  destruct (stored_xp (snd y) <=? stored_xp (snd x)); [reflexivity|].
  rewrite IH. apply perm_swap.
Qed.

Lemma sort_by_xp_perm l : Permutation (sort_by_xp l) l.
Proof.
  induction l as [|x l IH]; simpl; [reflexivity|].
  rewrite sort_insert_perm. now constructor.
Qed.

Lemma sort_insert_sorted x l :
  StronglySorted xp_ge l -> StronglySorted xp_ge (sort_insert x l).
Proof.
  induction 1 as [|y l Hs IH Hy]; simpl.
  - constructor; constructor.
  - destruct (stored_xp (snd y) <=? stored_xp (snd x)) eqn:E.
    + apply Z.leb_le in E. constructor; [now constructor|].
      constructor; [exact E|].
      rewrite List.Forall_forall in *. intros z Hz. specialize (Hy z Hz).
      unfold xp_ge in *. lia.
    + apply Z.leb_gt in E. constructor; [exact IH|].
      rewrite List.Forall_forall in *. intros z Hz.
      apply (Permutation_in _ (sort_insert_perm x l)) in Hz.
      destruct Hz as [<-|Hz]; [unfold xp_ge; lia | now apply Hy].
Qed.

Lemma sort_by_xp_sorted l : StronglySorted xp_ge (sort_by_xp l).
Proof.
  induction l as [|x l IH]; simpl; [constructor | now apply sort_insert_sorted].
Qed.

Lemma sort_insert_filter v x l :
  List.filter (fun z => stored_xp (snd z) =? v) (sort_insert x l)
  = List.filter (fun z => stored_xp (snd z) =? v) (x :: l).
Proof.
  induction l as [|y l IH]; [reflexivity|].
  cbn [sort_insert].
  destruct (stored_xp (snd y) <=? stored_xp (snd x)) eqn:E; [reflexivity|].
  apply Z.leb_gt in E.
  cbn [List.filter] in *. rewrite IH.
  destruct (stored_xp (snd x) =? v) eqn:Ex, (stored_xp (snd y) =? v) eqn:Ey;
    try reflexivity.
  apply Z.eqb_eq in Ex, Ey. lia.
Qed.

Lemma sort_by_xp_stable v l :
  List.filter (fun z => stored_xp (snd z) =? v) (sort_by_xp l)
  = List.filter (fun z => stored_xp (snd z) =? v) l.
Proof.
  induction l as [|x l IH]; [reflexivity|].
  cbn [sort_by_xp fold_right]. rewrite sort_insert_filter.
  cbn [List.filter]. fold (sort_by_xp l). now rewrite IH.
Qed.


Lemma findIndex_cases key l :
  match findIndex key l with
  | Some _ => In key (map fst l)
  | None => ~ In key (map fst l)
  end.
Proof.
  induction l as [|y l IH]; simpl; [tauto|].
  destruct (String.eqb (fst y) key) eqn:E.
  - apply String.eqb_eq in E. now left.
  - apply String.eqb_neq in E.
    destruct (findIndex key l); simpl; tauto.
Qed.

Lemma findIndex_None key l :
  findIndex key l = None <-> ~ In key (map fst l).
Proof.
  pose proof (findIndex_cases key l) as H.
  destruct (findIndex key l); split; try discriminate; tauto.
Qed.

Lemma findIndex_nth key l i :
  findIndex key l = Some i -> exists e, nth_error l i = Some (key, e).
Proof.
  revert i. induction l as [|y l IH]; simpl; [discriminate|]. intros i.
  destruct (String.eqb (fst y) key) eqn:E.
  - apply String.eqb_eq in E. intros [= <-]. exists (snd y). simpl.
    now destruct y; simpl in *; subst.
  - destruct (findIndex key l) as [j|]; [|discriminate].
    intros [= <-]. simpl. now apply IH.
Qed.

Lemma keys_functional (l : list (string * Stored)) k e e' :
  List.NoDup (map fst l) -> In (k, e) l -> In (k, e') l -> e = e'.
Proof.
  induction l as [|y l IH]; simpl; [tauto|].
  intros Hnd. apply List.NoDup_cons_iff in Hnd as [Hy Hnd].
  intros [->|H1] [H2|H2].
  - congruence.
  - exfalso. apply Hy. simpl. now apply (in_map fst) in H2.
  - subst y. exfalso. apply Hy. simpl. now apply (in_map fst) in H1.
  - now apply IH.
Qed.

Lemma filter_length_perm {A} (f : A -> bool) (l l' : list A) :
  Permutation l l' ->
  length (List.filter f l) = length (List.filter f l').
Proof.
  induction 1 as [|x l l' _ IH|x y l|l l' l'' _ IH1 _ IH2]; simpl.
  - reflexivity.
  - destruct (f x); simpl; congruence.
  - destruct (f x), (f y); reflexivity.
  - congruence.
Qed.

Lemma findIndex_insert_self x s :
  StronglySorted xp_ge s -> ~ In (fst x) (map fst s) ->
  findIndex (fst x) (sort_insert x s)
  = Some (length (List.filter
                    (fun z => stored_xp (snd x) <? stored_xp (snd z)) s)).
Proof.
  induction 1 as [|y s Hs IH Hy]; simpl; intros Hk.
  - now rewrite String.eqb_refl.
  - destruct (stored_xp (snd y) <=? stored_xp (snd x)) eqn:E.
    + apply Z.leb_le in E. simpl. rewrite String.eqb_refl.
      destruct (stored_xp (snd x) <? stored_xp (snd y)) eqn:E'.
      { apply Z.ltb_lt in E'. lia. }
      replace (List.filter _ s) with (@nil (string * Stored)); [reflexivity|].
      symmetry. clear IH Hs Hk. induction Hy as [|z s Hz _ IHs]; [reflexivity|].
      simpl. unfold xp_ge in Hz.
      destruct (stored_xp (snd x) <? stored_xp (snd z)) eqn:Ez; [|exact IHs].
      apply Z.ltb_lt in Ez. lia.
    + apply Z.leb_gt in E. simpl.
      destruct (String.eqb (fst y) (fst x)) eqn:Ek.
      { apply String.eqb_eq in Ek. tauto. }
      rewrite IH by tauto. simpl.
      destruct (stored_xp (snd x) <? stored_xp (snd y)) eqn:E'; [reflexivity|].
      apply Z.ltb_ge in E'. lia.
Qed.

Lemma findIndex_insert_other key e x s i :
  StronglySorted xp_ge s -> fst x <> key ->
  findIndex key s = Some i -> nth_error s i = Some (key, e) ->
  findIndex key (sort_insert x s)
  = Some (Nat.add (if stored_xp e <=? stored_xp (snd x) then 1%nat else O) i).
Proof.
  intros Hs Hx. revert i.
  induction Hs as [|y s Hs IH Hy]; simpl; [discriminate|]. intros i Hi Hn.
  destruct (stored_xp (snd y) <=? stored_xp (snd x)) eqn:E.
  - apply Z.leb_le in E. simpl.
    destruct (String.eqb (fst x) key) eqn:Ek.
    { apply String.eqb_eq in Ek. tauto. }
    rewrite Hi. simpl.
    assert (stored_xp e <= stored_xp (snd y)) as Hle.
    { destruct i as [|i]; simpl in Hn.
      - injection Hn as ->. simpl. lia.
      - apply nth_error_In in Hn. rewrite List.Forall_forall in Hy.
        apply Hy in Hn. unfold xp_ge in Hn. simpl in Hn. exact Hn. }
    destruct (stored_xp e <=? stored_xp (snd x)) eqn:E'; [reflexivity|].
    apply Z.leb_gt in E'. lia.
  - apply Z.leb_gt in E. simpl.
    destruct (String.eqb (fst y) key) eqn:Ek.
    + injection Hi as <-. simpl in Hn. injection Hn as ->. simpl in E.
      destruct (stored_xp e <=? stored_xp (snd x)) eqn:E'; [|reflexivity].
      apply Z.leb_le in E'. lia.
    + destruct (findIndex key s) as [j|] eqn:Ej; [|discriminate].
      simpl in Hi. injection Hi as <-. simpl in Hn.
      rewrite (IH j eq_refl Hn). simpl.
      f_equal. lia.
Qed.

Lemma findIndex_sort key e l :
  List.NoDup (map fst l) -> In (key, e) l ->
  findIndex key (sort_by_xp l) = Some (ahead key (stored_xp e) l).
Proof.
  induction l as [|x l IH]; simpl; [tauto|].
  intros Hnd Hin. apply List.NoDup_cons_iff in Hnd as [Hx Hnd].
  fold (sort_by_xp l).
  assert (Permutation (map fst (sort_by_xp l)) (map fst l)) as Hp
    by (apply Permutation_map, sort_by_xp_perm).
  destruct (String.eqb (fst x) key) eqn:Ek.
  - apply String.eqb_eq in Ek.
    assert (x = (key, e)) as ->.
    { destruct Hin as [H|H]; [exact H|]. exfalso. apply Hx. rewrite Ek.
      now apply (in_map fst) in H. }
    simpl in *. 
    rewrite (findIndex_insert_self (key, e)); simpl.
    + f_equal. apply filter_length_perm, sort_by_xp_perm.
    + apply sort_by_xp_sorted.
    + intros H. apply Hx. now apply (Permutation_in _ Hp).
  - apply String.eqb_neq in Ek.
    destruct Hin as [H|Hin]; [subst x; simpl in Ek; tauto|].
    specialize (IH Hnd Hin).
    destruct (findIndex_nth _ _ _ IH) as (e' & Hn).
    assert (e' = e) as ->.
    { apply (keys_functional (sort_by_xp l) key); [| |].
      - apply (Permutation_NoDup (Permutation_sym Hp) Hnd).
      - now apply nth_error_In in Hn.
      - apply (Permutation_in _ (Permutation_sym (sort_by_xp_perm l)) Hin). }
    now rewrite (findIndex_insert_other key e x _ _ (sort_by_xp_sorted l) Ek IH Hn).
Qed.

Lemma slice0_firstn {A} (l : list A) limit :
  0 <= limit -> slice0 l limit = firstn (Z.to_nat limit) l.
Proof. intros H. unfold slice0. destruct (limit <? 0) eqn:E; [lia | reflexivity]. Qed.

(** X1. [getTopUsers (limit)], for a limit that is not negative, is the
    front of the store's records ordered by XP: together with the
    records it leaves out it is a permutation of the store in which no
    record is followed by one with more XP; it has [min (limit, n)]
    records; and records with equal XP keep the order they have in the
    store. *)
Theorem getTopUsers_spec (entries : list (string * Stored)) (limit : Z) :
  0 <= limit ->
  let top := getTopUsers entries limit in
  (exists rest, Permutation (top ++ rest) entries
                /\ StronglySorted xp_ge (top ++ rest)
                /\ forall v,
                     List.filter (fun z => stored_xp (snd z) =? v) (top ++ rest)
                     = List.filter (fun z => stored_xp (snd z) =? v) entries)
  /\ Z.of_nat (length top) = Z.min limit (Z.of_nat (length entries)).
Proof.
  intros Hl top. unfold top, getTopUsers. rewrite slice0_firstn by exact Hl.
  split.
  - exists (skipn (Z.to_nat limit) (sort_by_xp entries)).
    rewrite firstn_skipn. split; [apply sort_by_xp_perm|].
    split; [apply sort_by_xp_sorted | intros v; apply sort_by_xp_stable].
  - rewrite length_firstn, (Permutation_length (sort_by_xp_perm entries)). lia.
Qed.

(** The sample store, asked for the two best. *)
Lemma getTopUsers_spec_witness :
  map fst (getTopUsers Sample.board 2) = ["bob"; "carol"]
  /\ Z.of_nat (length (getTopUsers Sample.board 2))
     = Z.min 2 (Z.of_nat (length Sample.board)).
Proof.
  split; [reflexivity|].
  exact (proj2 (getTopUsers_spec Sample.board 2 ltac:(lia))).
Defined.

(** X2. With one record per key, [getUserRank] is [0] exactly for a user
    without a record; for a user with one it is one more than the number
    of users ahead (more XP, or the same XP and earlier in the store), it
    lies in [1 .. n], and it is the user's position in [getTopUsers] for
    every limit that reaches it. *)
Theorem getUserRank_spec (entries : list (string * Stored)) (userId : string) :
  List.NoDup (map fst entries) ->
  let key := JS.before_at userId in
  (getUserRank entries userId = 0 <-> ~ In key (map fst entries))
  /\ forall e, In (key, e) entries ->
       getUserRank entries userId
       = 1 + Z.of_nat (ahead key (stored_xp e) entries)
       /\ 1 <= getUserRank entries userId <= Z.of_nat (length entries)
       /\ forall limit, getUserRank entries userId <= limit ->
            nth_error (getTopUsers entries limit)
                      (Z.to_nat (getUserRank entries userId - 1))
            = Some (key, e).
Proof.
  intros Hnd key. unfold getUserRank. fold key. split.
  - assert (findIndex key (sort_by_xp entries) = None
            <-> ~ In key (map fst entries)) as Hn.
    { rewrite findIndex_None. split; intros H Hin; apply H.
      - apply (Permutation_in _ (Permutation_sym
                 (Permutation_map fst (sort_by_xp_perm entries))) Hin).
      - apply (Permutation_in _ (Permutation_map fst (sort_by_xp_perm entries))
                 Hin). }
    rewrite <- Hn.
    destruct (findIndex key (sort_by_xp entries)); split;
      try discriminate; try reflexivity; lia.
  - intros e He. pose proof (findIndex_sort key e entries Hnd He) as Hf.
    rewrite Hf.
    destruct (findIndex_nth _ _ _ Hf) as (e' & Hn).
    assert (e' = e) as ->.
    { apply (keys_functional (sort_by_xp entries) key).
      - apply (Permutation_NoDup
                 (Permutation_sym (Permutation_map fst (sort_by_xp_perm entries)))
                 Hnd).
      - now apply nth_error_In in Hn.
      - apply (Permutation_in _ (Permutation_sym (sort_by_xp_perm entries)) He). }
    assert (ahead key (stored_xp e) entries < length entries)%nat as Hlt.
    { rewrite <- (Permutation_length (sort_by_xp_perm entries)).
      apply nth_error_Some. now rewrite Hn. }
    split; [lia|]. split; [lia|].
    intros limit Hlim. unfold getTopUsers.
    rewrite slice0_firstn by lia.
    replace (Z.to_nat (Z.of_nat (ahead key (stored_xp e) entries) + 1 - 1))
      with (ahead key (stored_xp e) entries) by lia.
    rewrite nth_error_firstn.
    destruct (Nat.ltb_spec (ahead key (stored_xp e) entries) (Z.to_nat limit));
      [exact Hn | lia].
Qed.

(** Carol, second in the sample store behind Bob, who has the same XP and
    comes first in the store. *)
Lemma getUserRank_spec_witness :
  getUserRank Sample.board "carol@s.whatsapp.net" = 2
  /\ nth_error (getTopUsers Sample.board 5) 1
     = Some ("carol", SUser (mkUserData "carol" "Carol" 50 1 4 1000 1000 []) None).
Proof.
  assert (List.NoDup (map fst Sample.board)) as Hnd.
  { simpl. repeat constructor; simpl; intuition discriminate. }
  destruct (getUserRank_spec Sample.board "carol@s.whatsapp.net" Hnd) as (_ & H).
  destruct (H (SUser (mkUserData "carol" "Carol" 50 1 4 1000 1000 []) None))
    as (Hr & _ & Hn).
  { simpl. tauto. }
  split; [exact Hr|]. apply (Hn 5). rewrite Hr. simpl. lia.
Defined.

Lemma cells_eqb_eq (l1 l2 : list Cell) : cells_eqb l1 l2 = true -> l1 = l2.
Proof.
  revert l2. induction l1 as [|a l1 IH]; intros [|b l2]; simpl;
    try discriminate; [reflexivity|].
  intros H. apply andb_prop in H as [Hab H]. f_equal; [|now apply IH].
  destruct a, b; simpl in Hab; congruence.
Qed.

Lemma bar_ok_all : forallb bar_ok (map Z.of_nat (seq 0 101)) = true.
Proof. vm_compute. reflexivity. Qed.

Lemma bar_ok_spec (p len : Z) :
  0 <= p <= 100 -> len = 10 \/ len = 15 ->
  createProgressBar (Some p) len = Some (bar (p * len / 100) len).
Proof.
  intros Hp Hlen.
  assert (bar_ok p = true) as Hok.
  { pose proof bar_ok_all as H. rewrite forallb_forall in H. apply H.
    apply in_map_iff. exists (Z.to_nat p). split; [lia|].
    apply in_seq. lia. }
  unfold bar_ok in Hok. cbn [forallb] in Hok.
  apply andb_prop in Hok as [H10 H15]. apply andb_prop in H15 as [H15 _].
  destruct Hlen as [-> | ->].
  - destruct (createProgressBar (Some p) 10); [|discriminate].
    f_equal. now apply cells_eqb_eq.
  - destruct (createProgressBar (Some p) 15); [|discriminate].
    f_equal. now apply cells_eqb_eq.
Qed.

Lemma percentage_range (level xp : Z) :
  match percentage (getProgress level xp) with
  | Some p => 0 <= p <= 100
  | None => True
  end.
Proof.
  unfold getProgress. cbn [percentage].
  match goal with |- context [F64.clamp_percent ?x] => generalize x end.
  intros [| [] | z]; simpl; lia.
Qed.

(** X3. The bar the level command draws.  Whatever the level and the XP,
    the percentage of [getProgress] is an integer from 0 to 100 (or NaN),
    and [createProgressBar] turns it, for the lengths 10 and 15 the
    commands use, into exactly [length] cells of which
    [floor (percentage * length / 100)] are full; a NaN percentage gives
    the empty string.  It never throws. *)
Theorem progress_bar_spec (level xp len : Z) :
  len = 10 \/ len = 15 ->
  match percentage (getProgress level xp) with
  | Some p =>
      0 <= p <= 100
      /\ createProgressBar (Some p) len = Some (bar (p * len / 100) len)
      /\ Z.of_nat (length (bar (p * len / 100) len)) = len
  | None => createProgressBar None len = Some []
  end.
Proof.
  intros Hlen. pose proof (percentage_range level xp) as Hp.
  destruct (percentage (getProgress level xp)) as [p|]; [|reflexivity].
  split; [exact Hp|]. split; [now apply bar_ok_spec|].
  unfold bar. rewrite length_app, !repeat_length.
  assert (0 <= p * len / 100 <= len).
  { split; [apply Z.div_pos; nia|].
    apply Z.div_le_upper_bound; nia. }
  lia.
Qed.

(** Level 1 with 29 XP: 28 percent, 4 of 15 cells. *)
Lemma progress_bar_spec_witness :
  createProgressBar (percentage (getProgress 1 29)) 15
  = Some (repeat Full 4 ++ repeat Blank 11)%list.
Proof.
  pose proof (progress_bar_spec 1 29 15 (or_intror eq_refl)) as H.
  change (percentage (getProgress 1 29)) with (Some 28) in *.
  exact (proj1 (proj2 H)).
Defined.

End Ranking.

(** * Message XP *)

Section Messages.

Import LevelManager.

Lemma addXP_apply_frame (now : Z) (userId : string) (g : option string)
    (amount : Z) (pn : option string) (w : World) :
  let w' := snd (addXP_apply now userId g amount pn w) in
  xpCooldowns w' = xpCooldowns w /\ rnd w' = rnd w /\ rpos w' = rpos w
  /\ fst (addXP_apply now userId g amount pn w) <> Ret None.
Proof.
  unfold addXP_apply, getUserData, saveData, Db.get, Db.set, Db.save, bind, ret,
    throw.
  repeat case_match; simplify_eq/=; repeat split; try congruence; try discriminate.
Qed.


Lemma ends_with_nonempty (s suffix : string) :
  suffix <> "" -> ends_with s suffix = true -> JS.truthy_str s = true.
Proof.
  intros Hs H. destruct s; [|reflexivity].
  unfold ends_with in H. apply andb_prop in H as [Hl He].
  destruct suffix; [congruence|]. simpl in Hl. discriminate.
Qed.

Lemma message_amount_range (d : Draw) :
  messageXpMin
  <= JS.floor_mul (draw_val d) (messageXpMax - messageXpMin + 1) + messageXpMin
  <= messageXpMax.
Proof.
  pose proof (floor_mul_draw_range d (messageXpMax - messageXpMin + 1)) as H.
  unfold messageXpMax, messageXpMin in *. lia.
Qed.

Lemma computeLevel_small (x : Z) : 0 <= x < 100 -> computeLevel x = Some 1.
Proof.
  intros H. rewrite computeLevel_nonneg by lia.
  rewrite Z.div_small by lia. reflexivity.
Qed.

(** X4. The first message of a user.  With the private mode off, a
    message that qualifies (leveling on, at least three code units, not
    a command, sent in a group) from a sender without a record and not
    on cooldown creates the record: level 1, one message, the group as
    the only group, and between 10 and 25 XP, which is reported as
    gained without a level-up.  The sender's cooldown is set to five
    seconds from now, one random draw is used and nothing is saved. *)
Theorem first_message (config : Config)
    (groupMetadata : string -> option (list Participant)) (now : Z)
    (msg : Message) (content : list N) (w : World) :
  qualifies config msg content -> privateMode config = false ->
  mem w !! JS.before_at (sender msg) = None ->
  default 0 (xpCooldowns w !! JS.before_at (sender msg)) <= now ->
  let key := JS.before_at (sender msg) in
  let name := default key (shown_name msg) in
  exists x w',
    10 <= x <= 25
    /\ processMessage config groupMetadata now msg content w
       = (Ret (Some (mkLevelUpResult key (Some name) false 1 (Some 1) x x
                                     (Some 1))), w')
    /\ mem w' = <[key := SUser (mkUserData (sender msg) name x 1 1 now now
                                           [remoteJid msg]) None]> (mem w)
    /\ xpCooldowns w' = <[key := now + 5000]> (xpCooldowns w)
    /\ rpos w' = S (rpos w) /\ disk w' = disk w /\ fpos w' = fpos w.
Proof.
  intros (Hen & Hlen & Hcmd & Hgrp) Hpub Hnew Hcd key name.
  pose proof (message_amount_range (rnd w (rpos w))) as Hx.
  set (x := JS.floor_mul (draw_val (rnd w (rpos w)))
              (messageXpMax - messageXpMin + 1) + messageXpMin) in *.
  unfold messageXpMin, messageXpMax in Hx.
  pose proof (ends_with_nonempty _ "@g.us" ltac:(discriminate) Hgrp) as Hg.
  exists x.
  unfold processMessage. rewrite Hen, Hcmd, Hgrp, Hpub. cbn [negb andb].
  destruct (Z.of_nat (length content) <? minMessageLength) eqn:El.
  { apply Z.ltb_lt in El. unfold minMessageLength in El. lia. }
  fold (sender msg). fold (shown_name msg).
  unfold addXP. cbn [negb andb Z.eqb]. fold key.
  unfold bind at 1. unfold get_xpCooldown at 1.
  destruct (now <? default 0 (xpCooldowns w !! key)) eqn:Ec.
  { apply Z.ltb_lt in Ec. unfold key in Ec. lia. }
  unfold bind at 1. unfold set_xpCooldown at 1.
  unfold bind at 1. unfold random at 1. cbn [rnd rpos]. fold x.
  unfold addXP_apply, getUserData. fold key.
  unfold bind, Db.get, Db.set, saveData, ret. cbn [mem].
  unfold key at 1. rewrite Hnew.
  cbn [addXP_record xp level messages pushName groups jid joinedAt mem].
  replace (0 + x) with x by lia.
  rewrite (computeLevel_small x) by lia.
  cbn [level_gt Z.ltb Z.compare default addXP_record xp level messages
       pushName groups jid joinedAt mem disk xpCooldowns rnd rpos flush_ok fpos].
  change (1 <? 1) with false. cbv iota.
  unfold addXP_record. cbn [xp level messages pushName groups jid joinedAt].
  rewrite Hg. cbn [existsb negb andb app].
  replace (0 + x) with x by lia.
  assert (match shown_name msg with
          | Some p => if JS.truthy_str p then p else key
          | None => key
          end = name) as ->.
  { unfold name, shown_name. destruct (msg_pushName msg) as [p|]; [|reflexivity].
    destruct (JS.truthy_str p) eqn:Ep; [|reflexivity]. cbn. now rewrite Ep. }
  eexists. split; [lia|]. split; [reflexivity|].
  cbn [mem xpCooldowns rpos disk fpos]. rewrite insert_insert_eq.
  repeat split; reflexivity.
Qed.

(** Bob's first message in a group, on an empty store. *)
Lemma first_message_witness :
  exists x w',
    10 <= x <= 25
    /\ processMessage Sample.config (fun _ => None) 1000 Sample.hello Sample.hey
         (Sample.world_of ∅ [] [])
       = (Ret (Some (mkLevelUpResult "bob" (Some "Bob") false 1 (Some 1) x x
                                     (Some 1))), w').
Proof.
  destruct (first_message Sample.config (fun _ => None) 1000 Sample.hello
              Sample.hey (Sample.world_of ∅ [] []))
    as (x & w' & Hx & Hrun & _).
  - repeat split; reflexivity.
  - reflexivity.
  - reflexivity.
  - vm_compute. discriminate.
  - exists x, w'. split; [exact Hx | exact Hrun].
Defined.

Lemma addXP_message (t : Z) (userId : string) (g pn : option string)
    (w : World) :
  addXP t userId g 0 false pn w
  = if t <? default 0 (xpCooldowns w !! JS.before_at userId)
    then (Ret None, w)
    else addXP_apply t userId g
           (JS.floor_mul (draw_val (rnd w (rpos w)))
                         (messageXpMax - messageXpMin + 1) + messageXpMin) pn
           (mkWorld (mem w) (disk w)
                    (<[JS.before_at userId := t + xpCooldown]> (xpCooldowns w))
                    (rnd w) (S (rpos w)) (flush_ok w) (fpos w)).
Proof.
  unfold addXP. cbn [negb andb Z.eqb].
  unfold bind, get_xpCooldown, set_xpCooldown, random, ret.
  cbn [mem disk xpCooldowns rnd rpos flush_ok fpos].
  now destruct (t <? default 0 (xpCooldowns w !! JS.before_at userId)).
Qed.

(** X5. The message cooldown.  Once [addXP] has taken a message of a
    user (it did not answer [null]), every message of that user less
    than five seconds later is answered [null] and changes nothing,
    under any spelling of the JID with the same part before the at-sign;
    from five seconds on the next message is taken again.  Taking a
    message uses one random draw and touches no other user's cooldown.
    A grant with an explicit amount, or with the cooldown bypassed, is
    never answered [null] and neither reads nor sets a cooldown. *)
Theorem message_cooldown (t : Z) (userId : string) (g pn : option string)
    (w : World) :
  (let run := addXP t userId g 0 false pn w in
   fst run <> Ret None ->
   (forall t2 userId2 g2 pn2,
      JS.before_at userId2 = JS.before_at userId -> t2 < t + xpCooldown ->
      addXP t2 userId2 g2 0 false pn2 (snd run) = (Ret None, snd run))
   /\ (forall t2 userId2 g2 pn2,
         JS.before_at userId2 = JS.before_at userId -> t + xpCooldown <= t2 ->
         fst (addXP t2 userId2 g2 0 false pn2 (snd run)) <> Ret None)
   /\ (forall k, k <> JS.before_at userId ->
         xpCooldowns (snd run) !! k = xpCooldowns w !! k)
   /\ rpos (snd run) = S (rpos w))
  /\ (forall amount bypass,
        bypass = true \/ amount <> 0 ->
        let run := addXP t userId g amount bypass pn w in
        fst run <> Ret None
        /\ xpCooldowns (snd run) = xpCooldowns w /\ rpos (snd run) = rpos w).
Proof.
  split.
  - intros run Hrun.
    assert (xpCooldowns (snd run)
            = <[JS.before_at userId := t + xpCooldown]> (xpCooldowns w)
            /\ rpos (snd run) = S (rpos w)) as [Hc Hr].
    { revert Hrun. unfold run. rewrite addXP_message.
      destruct (t <? default 0 (xpCooldowns w !! JS.before_at userId));
        [intros H; now elim H|].
      intros _.
      match goal with
      | |- context [addXP_apply ?n ?u ?g ?a ?p ?w0] =>
          destruct (addXP_apply_frame n u g a p w0) as (H1 & _ & H3 & _)
      end.
      cbn [xpCooldowns rpos] in H1, H3. split; assumption. }
    split; [|split; [|split]].
    + intros t2 u2 g2 pn2 Hk Ht. rewrite addXP_message.
      rewrite Hk, Hc, lookup_insert_eq. cbn [default]. unfold id.
      destruct (Z.ltb_spec t2 (t + xpCooldown)); [reflexivity | lia].
    + intros t2 u2 g2 pn2 Hk Ht. rewrite addXP_message.
      rewrite Hk, Hc, lookup_insert_eq. cbn [default]. unfold id.
      destruct (Z.ltb_spec t2 (t + xpCooldown)); [lia|].
      match goal with
      | |- context [addXP_apply ?n ?u ?g ?a ?p ?w0] =>
          exact (proj2 (proj2 (proj2 (addXP_apply_frame n u g a p w0))))
      end.
    + intros k Hk. rewrite Hc. now rewrite lookup_insert_ne.
    + exact Hr.
  - intros amount bypass Hb run. unfold run, addXP.
    assert (negb bypass && (amount =? 0) = false) as ->.
    { destruct Hb as [-> | Ha]; [reflexivity|].
      apply Z.eqb_neq in Ha. rewrite Ha. now destruct bypass. }
    destruct (addXP_apply_frame t userId g amount pn w) as (H1 & _ & H3 & H4).
    repeat split; assumption.
Qed.

(** Bob's first message at 1000 ms, then one at 5999 ms. *)
Lemma message_cooldown_witness :
  let w1 := snd (addXP 1000 "bob@s.whatsapp.net" (Some "club@g.us") 0 false None
                   (Sample.world_of ∅ [] [])) in
  addXP 5999 "bob@c.us" (Some "club@g.us") 0 false None w1 = (Ret None, w1).
Proof.
  cbn zeta.
  destruct (message_cooldown 1000 "bob@s.whatsapp.net" (Some "club@g.us") None
              (Sample.world_of ∅ [] [])) as (H & _).
  destruct H as (Hgate & _).
  - vm_compute. discriminate.
  - apply Hgate; [reflexivity | unfold xpCooldown; lia].
Defined.

(** X6. The private mode.  With the private mode on, a message of a
    sender who is neither an owner (by the part of the JID before the
    at-sign) nor an admin or superadmin of the group is ignored: nothing
    is returned and nothing changes, also when the group's metadata
    cannot be fetched.  For an owner or an admin the private mode makes
    no difference. *)
Theorem private_mode (config : Config)
    (groupMetadata : string -> option (list Participant)) (now : Z)
    (msg : Message) (content : list N) (w : World) :
  privateMode config = true ->
  let owner :=
    existsb (String.eqb (JS.before_at (sender msg))) (owners config) in
  let admin := is_admin (groupMetadata (remoteJid msg)) (sender msg) in
  (owner || admin = false ->
   processMessage config groupMetadata now msg content w = (Ret None, w))
  /\ (owner || admin = true ->
      processMessage config groupMetadata now msg content w
      = processMessage (public config) groupMetadata now msg content w)
  /\ (groupMetadata (remoteJid msg) = None -> admin = false).
Proof.
  intros Hp owner admin. unfold processMessage, public.
  cbn [leveling_enabled prefix privateMode owners]. rewrite Hp.
  fold (sender msg). fold owner. fold admin.
  split; [|split].
  - intros H. apply orb_false_elim in H as [-> ->]. cbn [negb andb].
    repeat case_match; reflexivity.
  - intros H. destruct owner, admin; try discriminate; cbn [negb andb];
      reflexivity.
  - intros H. unfold admin. now rewrite H.
Qed.

(** A member of the sample group who is not an admin, the bot private. *)
Lemma private_mode_witness :
  processMessage (mkConfig true [33%N] true ["owner"])
    (fun _ => Some [mkParticipant "bob@s.whatsapp.net" None]) 1000
    Sample.hello Sample.hey (Sample.world_of ∅ [] [])
  = (Ret None, Sample.world_of ∅ [] []).
Proof.
  exact (proj1 (private_mode (mkConfig true [33%N] true ["owner"])
                  (fun _ => Some [mkParticipant "bob@s.whatsapp.net" None]) 1000
                  Sample.hello Sample.hey (Sample.world_of ∅ [] []) eq_refl)
               eq_refl).
Defined.

End Messages.

(** * Hunting *)

Section Hunting.

Import AdventureManager.

Context {engine : Math.Pow}.

Lemma index_in_range {A} (l : list A) (i : Z) :
  0 <= i < Z.of_nat (length l) -> exists x, JS.index l i = Some x /\ In x l.
Proof.
  intros H. unfold JS.index. destruct (Z.ltb_spec i 0); [lia|].
  destruct (nth_error l (Z.to_nat i)) as [x|] eqn:E.
  - exists x. split; [reflexivity | now apply nth_error_In in E].
  - apply nth_error_None in E. lia.
Qed.

Lemma map_get_in {A} (m : list (string * A)) (k : string) (v : A) :
  JS.map_get m k = Some v -> In (k, v) m.
Proof.
  induction m as [|[k' v'] m IH]; simpl; [discriminate|].
  destruct (String.eqb k' k) eqn:E.
  - apply String.eqb_eq in E. intros [= ->]. left. now subst.
  - intros H. right. now apply IH.
Qed.

Lemma map_get_key {A} (m : list (string * A)) (k : string) :
  In k (map fst m) -> exists v, JS.map_get m k = Some v.
Proof.
  induction m as [|[k' v'] m IH]; simpl; [tauto|].
  destruct (String.eqb k' k) eqn:E; [eauto|].
  apply String.eqb_neq in E. intros [H|H]; [congruence | now apply IH].
Qed.

Lemma common_pool_in (cat : Catalog) (ids : list string) (level : Z) (m : Monster) :
  In m (common_pool cat ids level) ->
  exists id, In id ids /\ JS.map_get (monsters cat) id = Some m
             /\ monster_minLevel m <= level <= monster_maxLevel m + 3.
Proof.
  unfold common_pool. rewrite in_flat_map. intros (id & Hid & Hm).
  exists id. split; [exact Hid|].
  destruct (JS.map_get (monsters cat) id) as [m'|]; [|destruct Hm].
  destruct ((monster_minLevel m' <=? level)
            && (level <=? monster_maxLevel m' + 3)) eqn:E; [|destruct Hm].
  apply andb_prop in E as [E1 E2]. apply Z.leb_le in E1, E2.
  assert (m' = m) as -> by (simpl in Hm; tauto).
  split; [reflexivity | lia].
Qed.

Lemma rare_pool_in (cat : Catalog) (ids : list string) (level : Z) (m : Monster) :
  In m (rare_pool cat ids level) ->
  exists id, In id ids /\ JS.map_get (monsters cat) id = Some m
             /\ monster_minLevel m <= level <= monster_maxLevel m + 2.
Proof.
  unfold rare_pool. rewrite in_flat_map. intros (id & Hid & Hm).
  exists id. split; [exact Hid|].
  destruct (JS.map_get (monsters cat) id) as [m'|]; [|destruct Hm].
  destruct ((monster_minLevel m' <=? level)
            && (level <=? monster_maxLevel m' + 2)) eqn:E; [|destruct Hm].
  apply andb_prop in E as [E1 E2]. apply Z.leb_le in E1, E2.
  assert (m' = m) as -> by (simpl in Hm; tauto).
  split; [reflexivity | lia].
Qed.

Lemma selectMonster_run (cat : Catalog) (location : Location) (level : Z)
    (w : World) :
  _selectMonsterForLocation cat location level w
  = match pool cat location level with
    | [] => (Ret None, w)
    | _ :: _ =>
        (Ret (JS.index (pool cat location level)
                (JS.floor_mul (draw_val (rnd w (rpos w)))
                   (Z.of_nat (length (pool cat location level))))),
         mkWorld (mem w) (disk w) (xpCooldowns w) (rnd w) (S (rpos w))
                 (flush_ok w) (fpos w))
    end.
Proof.
  unfold _selectMonsterForLocation. fold (pool cat location level).
  destruct (pool cat location level); reflexivity.
Qed.

(** X7. The monster of a hunt.  [_selectMonsterForLocation] answers
    [null], without using a random draw, exactly when no monster of the
    location fits the level; otherwise it uses one draw and answers a
    monster of the catalog that the location lists and whose level window
    holds the level: from [minLevel] up to [maxLevel + 3] for a common
    monster, up to [maxLevel + 2] for a rare one.  It never reaches the
    store. *)
Theorem selectMonster_spec (cat : Catalog) (location : Location) (level : Z)
    (w : World) :
  (pool cat location level = [] ->
   _selectMonsterForLocation cat location level w = (Ret None, w))
  /\ (pool cat location level <> [] ->
      exists m,
        _selectMonsterForLocation cat location level w
        = (Ret (Some m),
           mkWorld (mem w) (disk w) (xpCooldowns w) (rnd w) (S (rpos w))
                   (flush_ok w) (fpos w))
        /\ In m (pool cat location level))
  /\ (forall m, In m (pool cat location level) ->
        (exists id, In id (location_commonMonsters location)
                    /\ JS.map_get (monsters cat) id = Some m
                    /\ monster_minLevel m <= level <= monster_maxLevel m + 3)
        \/ (exists id, In id (location_rareMonsters location)
                       /\ JS.map_get (monsters cat) id = Some m
                       /\ monster_minLevel m <= level <= monster_maxLevel m + 2)).
Proof.
  rewrite selectMonster_run. split; [|split].
  - now intros ->.
  - intros Hne.
    destruct (index_in_range (pool cat location level)
                (JS.floor_mul (draw_val (rnd w (rpos w)))
                   (Z.of_nat (length (pool cat location level)))))
      as (m & Hm & Hin).
    { apply floor_mul_draw_range.
      destruct (pool cat location level); [congruence | simpl; lia]. }
    exists m. split; [|exact Hin].
    destruct (pool cat location level) eqn:E; [congruence|].
    now rewrite Hm.
  - intros m Hm. unfold pool in Hm. apply in_app_or in Hm as [Hm|Hm].
    + left. now apply common_pool_in.
    + right. now apply rare_pool_in.
Qed.

(** A level 1 user in the forest: slimes and rats fit, one is selected. *)
Lemma selectMonster_spec_witness :
  exists m,
    _selectMonsterForLocation Sample.catalog Sample.forest 1
      (Sample.world_of ∅ [] [])
    = (Ret (Some m),
       mkWorld ∅ ∅ ∅ (Sample.draws []) 1 (Sample.flushes []) 0)
    /\ In m (pool Sample.catalog Sample.forest 1).
Proof.
  apply (proj1 (proj2 (selectMonster_spec Sample.catalog Sample.forest 1
                         (Sample.world_of ∅ [] [])))).
  vm_compute. discriminate.
Defined.


Lemma handleCombatDefeat_run (m : Monster) (a : Adventure) (w : World) :
  _handleCombatDefeat m (a, w)
  = (Ret (mkResult false (MsgDefeat (monster_name m)) (Some false)
            None None None None false),
     (with_stats a (mkStats (Z.max 1 (maxHealth (stats a) / 4))
                            (maxHealth (stats a)) (attack (stats a))
                            (defense (stats a)) (speed (stats a))), w)).
Proof. reflexivity. Qed.


Lemma treasure_eligible_spec (level goldBase : Z) (e : string * Item) :
  treasure_eligible level goldBase e = true ->
  item_value (snd e) <= 2 * goldBase
  /\ forall r, item_required_level (snd e) = Some r -> r = 0 \/ r <= level.
Proof.
  unfold treasure_eligible. intros H. apply andb_prop in H as [H1 H2].
  apply Z.leb_le in H2. split; [lia|]. intros r Hr. rewrite Hr in H1.
  cbn in H1. destruct (Z.eqb_spec r 0); [now left|]. cbn in H1.
  apply Z.leb_le in H1. now right.
Qed.

(** [_findTreasure] from any profile and world. *)
Lemma findTreasure_run (cat : Catalog) (location : Location)
    (a : Adventure) (w : World) :
  let quality := Z.min 5 (Z.max 1 (adv_level a / 5 + 1)) in
  let goldBase := 20 * quality in
  exists r a' w' g found,
    _findTreasure cat location (a, w) = (Ret r, (a', w'))
    /\ success r = true
    /\ rewards r = Some (mkRewards (Some g) None found)
    /\ 1 <= quality <= 5
    /\ goldBase <= g < 2 * goldBase
    /\ gold (inventory a') = gold (inventory a) + g
    /\ match found with
       | None => inv_items (inventory a') = inv_items (inventory a)
       | Some id =>
           (exists item,
              In (id, item) (items cat)
              /\ item_value item <= 2 * goldBase
              /\ forall r, item_required_level item = Some r ->
                           r = 0 \/ r <= adv_level a)
           /\ forall id',
                held (inv_items (inventory a')) id'
                = held (inv_items (inventory a)) id'
                  + (if String.eqb id id' then 1 else 0)
       end
    /\ stats a' = stats a /\ adv_level a' = adv_level a
    /\ adv_xp a' = adv_xp a /\ equipment a' = equipment a
    /\ cooldowns a' = cooldowns a
    /\ mem w' = mem w /\ disk w' = disk w /\ fpos w' = fpos w
    /\ (2 + rpos w <= rpos w' <= 3 + rpos w)%nat
    /\ flush_ok w' = flush_ok w /\ rnd w' = rnd w.
Proof.
  intros quality goldBase.
  assert (1 <= quality <= 5) as Hq by (unfold quality; lia).
  pose proof (floor_mul_draw_range (rnd w (rpos w)) goldBase
                ltac:(unfold goldBase; lia)) as Hg.
  unfold _findTreasure.
  unfold bind at 1. unfold get_obj at 1. cbn [fst snd].
  fold quality. fold goldBase.
  unfold bind at 1. unfold liftW at 1, random at 1. cbn [fst snd].
  set (g := goldBase + JS.floor_mul (draw_val (rnd w (rpos w))) goldBase) in *.
  unfold bind at 1. unfold modify_obj at 1. cbn [fst snd].
  unfold bind at 1. unfold liftW at 1, random at 1.
  cbn [fst snd rnd rpos mem disk xpCooldowns flush_ok fpos].
  destruct (JS.Qltb (draw_val (rnd w (S (rpos w)))) (2 # 5)).
  2:{ unfold ret. do 3 eexists. exists g, None.
      split; [reflexivity|]. cbn. repeat split; try reflexivity; lia. }
  set (possible := map fst (filter (treasure_eligible (adv_level a) goldBase)
                                  (items cat))).
  destruct possible as [|p0 ps] eqn:Ep.
  { unfold ret. do 3 eexists. exists g, None.
    split; [reflexivity|]. cbn. repeat split; try reflexivity; lia. }
  rewrite <- Ep.
  unfold bind at 1. unfold liftW at 1, random at 1.
  cbn [fst snd rnd rpos mem disk xpCooldowns flush_ok fpos].
  destruct (index_in_range possible
              (JS.floor_mul (draw_val (rnd w (S (S (rpos w)))))
                            (Z.of_nat (length possible))))
    as (id & Hid & Hin).
  { apply floor_mul_draw_range. rewrite Ep. simpl. lia. }
  rewrite Hid.
  assert (exists item, In (id, item) (items cat)
                       /\ treasure_eligible (adv_level a) goldBase (id, item) = true)
    as (item & Hitem & Hel).
  { unfold possible in Hin. apply in_map_iff in Hin as ([id' item] & <- & Hf).
    exists item. simpl.
    apply list_elem_of_In, list_elem_of_filter in Hf as [Hf1 Hf2].
    split; [now apply list_elem_of_In | now destruct (treasure_eligible _ _ _)]. }
  destruct (map_get_key (items cat) id) as (found & Hfound).
  { apply in_map_iff. now exists (id, item). }
  rewrite Hfound. unfold bind, modify_obj, ret. cbn [fst snd].
  do 3 eexists. exists g, (Some id).
  split; [reflexivity|].
  destruct (treasure_eligible_spec _ _ _ Hel) as (Hv & Hr).
  cbn [success rewards]. split; [reflexivity|]. split; [reflexivity|].
  split; [exact Hq|]. split; [lia|]. split; [reflexivity|].
  split.
  { split; [exists item; repeat split; assumption|].
    intros id'. unfold _addItemToInventory, with_items, with_inventory, add_gold.
    cbn [inventory inv_items]. rewrite held_add_item. reflexivity. }
  cbn. repeat split; try reflexivity; lia.
Qed.

(** X9. A treasure.  [_findTreasure] always succeeds.  With the quality
    [min (5, max (1, floor (level / 5) + 1))] and the base [20 * quality],
    the gold found is at least the base and less than twice the base,
    and it is added to the profile's gold.  If an item is found, it is
    an entry of the catalog worth at most twice the base and without a
    level requirement above the user's level, and the inventory holds
    one more unit of it; otherwise the inventory is as before.  Nothing
    else of the profile changes, the store is not touched, and two or
    three random draws are used. *)
Theorem findTreasure_spec (cat : Catalog) (location : Location)
    (a : Adventure) (w : World) :
  let quality := Z.min 5 (Z.max 1 (adv_level a / 5 + 1)) in
  let goldBase := 20 * quality in
  exists r a' w' g found,
    _findTreasure cat location (a, w) = (Ret r, (a', w'))
    /\ success r = true
    /\ rewards r = Some (mkRewards (Some g) None found)
    /\ 1 <= quality <= 5
    /\ goldBase <= g < 2 * goldBase
    /\ gold (inventory a') = gold (inventory a) + g
    /\ match found with
       | None => inv_items (inventory a') = inv_items (inventory a)
       | Some id =>
           (exists item,
              In (id, item) (items cat)
              /\ item_value item <= 2 * goldBase
              /\ forall r, item_required_level item = Some r ->
                           r = 0 \/ r <= adv_level a)
           /\ forall id',
                held (inv_items (inventory a')) id'
                = held (inv_items (inventory a)) id'
                  + (if String.eqb id id' then 1 else 0)
       end
    /\ stats a' = stats a /\ adv_level a' = adv_level a
    /\ adv_xp a' = adv_xp a /\ equipment a' = equipment a
    /\ cooldowns a' = cooldowns a
    /\ mem w' = mem w /\ disk w' = disk w /\ fpos w' = fpos w
    /\ (2 + rpos w <= rpos w' <= 3 + rpos w)%nat.
Proof.
  intros quality goldBase.
  destruct (findTreasure_run cat location a w)
    as (r & a' & w' & g & found & H1 & H2 & H3 & H4 & H5 & H6 & H7 & H8 & H9
        & H10 & H11 & H12 & H13 & H14 & H15 & H16 & _).
  exists r, a', w', g, found. tauto.
Qed.

End Hunting.

Section HuntingExamples.

Import AdventureManager.

#[local] Existing Instance sample_engine.


End HuntingExamples.

(** * Inventory, equipment and shop *)

Section Items.

Import AdventureManager.

Context {engine : Math.Pow}.

Lemma add_item_key_in (l : list InvItem) (id k : string) (q : Z) :
  In k (map inv_id (add_item l id q)) -> k = id \/ In k (map inv_id l).
Proof.
  induction l as [|it l IH]; simpl; [intuition auto|].
  destruct (String.eqb (inv_id it) id); simpl; [tauto|].
  intros [H|H]; [tauto | apply IH in H; tauto].
Qed.

Lemma add_item_ok (l : list InvItem) (id : string) (q : Z) :
  inv_ok l -> 1 <= q -> inv_ok (add_item l id q).
Proof.
  intros [Hnd Hq] Hpos. split.
  - clear Hq. induction l as [|it l IH]; simpl.
    + repeat constructor. simpl. tauto.
    + simpl in Hnd. apply List.NoDup_cons_iff in Hnd as [Hit Hnd].
      destruct (String.eqb (inv_id it) id) eqn:E; simpl.
      * now constructor.
      * apply String.eqb_neq in E. constructor; [|now apply IH].
        intros H. apply add_item_key_in in H as [H|H]; [congruence | tauto].
  - clear Hnd. induction Hq as [|it l Hit Hq IH]; simpl.
    + repeat constructor. simpl. lia.
    + destruct (String.eqb (inv_id it) id); constructor; simpl;
        try assumption; try lia.
Qed.

Lemma remove_item_key_in (l l' : list InvItem) (id k : string) (q : Z) :
  remove_item l id q = Some l' -> In k (map inv_id l') -> In k (map inv_id l).
Proof.
  revert l'. induction l as [|it l IH]; simpl; [discriminate|]. intros l'.
  destruct (String.eqb (inv_id it) id).
  - destruct (quantity it - q <=? 0); intros [= <-]; simpl; tauto.
  - destruct (remove_item l id q) as [r|]; [|discriminate].
    intros [= <-]. simpl. intros [H|H]; [tauto | right; now apply (IH r)].
Qed.

Lemma remove_item_ok (l l' : list InvItem) (id : string) (q : Z) :
  inv_ok l -> remove_item l id q = Some l' -> inv_ok l'.
Proof.
  intros [Hnd Hq]. revert l'.
  induction l as [|it l IH]; simpl; [discriminate|]. intros l'.
  simpl in Hnd. apply List.NoDup_cons_iff in Hnd as [Hit Hnd].
  apply List.Forall_cons_iff in Hq as [Hqi Hq].
  destruct (String.eqb (inv_id it) id).
  - destruct (Z.leb_spec (quantity it - q) 0); intros [= <-].
    + now split.
    + split; simpl; constructor; simpl; try assumption; lia.
  - destruct (remove_item l id q) as [r|] eqn:E; [|discriminate].
    intros [= <-]. destruct (IH Hnd Hq r eq_refl) as [Hr1 Hr2].
    split; simpl; constructor; try assumption.
    intros H. apply Hit. now apply (remove_item_key_in l r id _ q).
Qed.

Lemma remove_add_item (l : list InvItem) (id : string) (q : Z) :
  inv_ok l -> 1 <= q -> remove_item (add_item l id q) id q = Some l.
Proof.
  intros [_ Hq] Hpos. induction Hq as [|it l Hit Hq IH]; simpl.
  - rewrite String.eqb_refl. simpl.
    destruct (Z.leb_spec (q - q) 0); [reflexivity | lia].
  - destruct (String.eqb (inv_id it) id) eqn:E; simpl; rewrite E.
    + destruct (Z.leb_spec (quantity it + q - q) 0); [lia|].
      replace (quantity it + q - q) with (quantity it) by lia.
      now destruct it.
    + now rewrite IH.
Qed.

Lemma remove_item_none (l : list InvItem) (id : string) (q : Z) :
  remove_item l id q = None <-> inv_find l id = None.
Proof.
  induction l as [|it l IH]; simpl; [tauto|].
  destruct (String.eqb (inv_id it) id).
  - destruct (quantity it - q <=? 0); split; discriminate.
  - rewrite <- IH. destruct (remove_item l id q); simpl; split;
      try discriminate; reflexivity.
Qed.

Lemma held_absent (l : list InvItem) (id : string) :
  inv_ok l -> (inv_find l id = None <-> held l id = 0).
Proof.
  intros [_ Hq]. induction Hq as [|it l Hit Hq IH]; simpl; [tauto|].
  assert (0 <= held l id) as Hh.
  { clear IH Hit. induction Hq as [|it' l' Hit' Hq' IH']; simpl; [lia|].
    destruct (String.eqb (inv_id it') id); lia. }
  destruct (String.eqb (inv_id it) id).
  - split; [discriminate | lia].
  - rewrite IH. split; lia.
Qed.

(** X10. The inventory.  An inventory with one line per item and no
    line below one unit stays that way when units are added or removed;
    removing the units just added gives back the same inventory; and
    [_removeItemFromInventory] finds nothing to remove exactly when no
    unit of the item is held. *)
Theorem inventory_spec (l : list InvItem) (id : string) (q : Z) :
  inv_ok l -> 1 <= q ->
  inv_ok (add_item l id q)
  /\ remove_item (add_item l id q) id q = Some l
  /\ (forall l', remove_item l id q = Some l' -> inv_ok l')
  /\ (remove_item l id q = None <-> held l id = 0).
Proof.
  intros Hok Hq. split; [now apply add_item_ok|].
  split; [now apply remove_add_item|].
  split; [intros l'; now apply remove_item_ok|].
  rewrite remove_item_none. now apply held_absent.
Qed.

(** Two herbs and a potion; a potion is added and taken away again. *)
Lemma inventory_spec_witness :
  remove_item (add_item [mkInvItem "mat_herb" 2; mkInvItem "potion_health" 1]
                        "potion_health" 1) "potion_health" 1
  = Some [mkInvItem "mat_herb" 2; mkInvItem "potion_health" 1].
Proof.
  apply (inventory_spec [mkInvItem "mat_herb" 2; mkInvItem "potion_health" 1]
                        "potion_health" 1).
  - split.
    + simpl. repeat constructor; simpl; intuition discriminate.
    + repeat constructor; simpl; lia.
  - lia.
Defined.


Lemma worn_set_slot (e : Equipment) (t x id : string) :
  equipable t = true ->
  worn (set_slot e t x) id
  = worn e id
    - (if LevelManager.ostr_eqb (get_slot e t) (Some id) then 1 else 0)
    + (if String.eqb x id then 1 else 0).
Proof.
  intros Ht. apply equipable_cases in Ht as [-> | [-> | ->]];
    unfold worn, set_slot, get_slot; cbn;
    destruct (String.eqb x id);
    destruct (LevelManager.ostr_eqb (weapon e) (Some id));
    destruct (LevelManager.ostr_eqb (armor e) (Some id));
    destruct (LevelManager.ostr_eqb (accessory e) (Some id)); lia.
Qed.

Lemma held_equipped (a : Adventure) (t x id : string) (it : InvItem) :
  inv_find (inv_items (inventory a)) x = Some it -> 1 <= quantity it ->
  held (inv_items (inventory (equipped a t x))) id
  = held (inv_items (inventory a)) id
    - (if String.eqb x id then 1 else 0)
    + match get_slot (equipment a) t with
      | Some c => if JS.truthy_str c && String.eqb c id then 1 else 0
      | None => 0
      end.
Proof.
  intros Hf Hq.
  destruct (held_remove_item _ x it Hf Hq) as (l' & Hl' & Hheld).
  unfold equipped, _removeItemFromInventory, _addItemToInventory, with_items,
    with_inventory, with_equipment. cbn [inventory inv_items equipment].
  rewrite Hl'. cbn [inventory inv_items].
  destruct (get_slot (equipment a) t) as [c|]; cbn [inventory inv_items].
  - destruct (JS.truthy_str c); cbn [inventory inv_items andb].
    + rewrite held_add_item, Hheld. reflexivity.
    + rewrite Hheld. lia.
  - rewrite Hheld. lia.
Qed.

Lemma inv_ok_equipped (a : Adventure) (t x : string) :
  inv_ok (inv_items (inventory a)) ->
  inv_ok (inv_items (inventory (equipped a t x))).
Proof.
  intros Hok.
  assert (inv_ok (inv_items (inventory
            (_removeItemFromInventory
               (with_equipment a (set_slot (equipment a) t x)) x 1)))) as H1.
  { unfold _removeItemFromInventory, with_items, with_inventory, with_equipment.
    cbn [inventory inv_items].
    destruct (remove_item (inv_items (inventory a)) x 1) as [l'|] eqn:E;
      cbn [inventory inv_items]; [|exact Hok].
    exact (remove_item_ok _ l' x 1 Hok E). }
  unfold equipped. destruct (get_slot (equipment a) t) as [c|]; [|exact H1].
  destruct (JS.truthy_str c); [|exact H1].
  unfold _addItemToInventory, with_items, with_inventory.
  cbn [inventory inv_items]. apply add_item_ok; [exact H1 | lia].
Qed.

(** X11. Equipping conserves what the user has.  When [equipItem]
    equips an item (the user holds a unit, the catalog knows the item as
    a weapon, an armor or an accessory), then for every item id (other
    than the empty string) the units held plus the units worn are the
    same before and after, whether the slot was empty, held another item
    or held the same item; and an inventory with one line per item and
    no line below one unit stays that way. *)
Theorem equip_conserves (cat : Catalog) (now : Z) (jid itemId : string)
    (w : World) (e : Stored) (a : Adventure) (it : InvItem) (item : Item) :
  mem w !! JS.before_at jid = Some e -> stored_adventure e = Some a ->
  inv_find (inv_items (inventory a)) itemId = Some it -> 1 <= quantity it ->
  JS.map_get (items cat) itemId = Some item ->
  equipable (item_type item) = true ->
  exists a',
    object (equipItem cat now jid itemId w) = Some a'
    /\ (forall id, id <> "" -> owned a' id = owned a id)
    /\ get_slot (equipment a') (item_type item) = Some itemId
    /\ (get_slot (equipment a) (item_type item) = None ->
        forall id, held (inv_items (inventory a')) id
                   = held (inv_items (inventory a)) id
                     - (if String.eqb itemId id then 1 else 0))
    /\ (get_slot (equipment a) (item_type item) = Some itemId ->
        itemId <> "" ->
        forall id, held (inv_items (inventory a')) id
                   = held (inv_items (inventory a)) id)
    /\ (inv_ok (inv_items (inventory a)) -> inv_ok (inv_items (inventory a'))).
Proof.
  intros He Ha Hf Hq Hi Ht.
  rewrite (equipItem_run cat now jid itemId w e a it item He Ha Hf Hq Hi Ht).
  exists (equipped a (item_type item) itemId). cbn [object].
  destruct (equipment_equipped a (item_type item) itemId) as (Heq & _).
  split; [reflexivity|]. split; [|split; [|split; [|split]]].
  - intros id Hid. unfold owned.
    rewrite (held_equipped a _ itemId id it Hf Hq), Heq, worn_set_slot by exact Ht.
    destruct (get_slot (equipment a) (item_type item)) as [c|];
      cbn [LevelManager.ostr_eqb]; [|lia].
    unfold JS.truthy_str. destruct (String.eqb_spec c ""); cbn [negb andb].
    + subst c. destruct (String.eqb_spec "" id); [congruence | lia].
    + lia.
  - rewrite Heq. now apply get_set_slot.
  - intros Hs id. rewrite (held_equipped a _ itemId id it Hf Hq), Hs. lia.
  - intros Hs Hne id. rewrite (held_equipped a _ itemId id it Hf Hq), Hs.
    rewrite (truthy_str_nonempty itemId Hne). cbn [andb]. lia.
  - apply inv_ok_equipped.
Qed.

(** The wooden sword is worn and a second one is held: equipping it again
    keeps one worn and one held. *)
Lemma equip_conserves_witness :
  let a := Sample.profile 1 0 100 [mkInvItem "sword_1" 1]
             (mkEquipment (Some "sword_1") None None) Sample.no_cooldowns in
  exists a',
    object (equipItem Sample.catalog 5000 "alice" "sword_1"
              (Sample.world_of (Sample.store_with a) [] [])) = Some a'
    /\ owned a' "sword_1" = 2.
Proof.
  cbn zeta.
  destruct (equip_conserves Sample.catalog 5000 "alice" "sword_1"
              (Sample.world_of
                 (Sample.store_with
                    (Sample.profile 1 0 100 [mkInvItem "sword_1" 1]
                       (mkEquipment (Some "sword_1") None None)
                       Sample.no_cooldowns)) [] [])
              (SUser Sample.alice
                 (Some (Sample.profile 1 0 100 [mkInvItem "sword_1" 1]
                          (mkEquipment (Some "sword_1") None None)
                          Sample.no_cooldowns)))
              (Sample.profile 1 0 100 [mkInvItem "sword_1" 1]
                 (mkEquipment (Some "sword_1") None None) Sample.no_cooldowns)
              (mkInvItem "sword_1" 1) Sample.sword_1
              eq_refl eq_refl eq_refl ltac:(simpl; lia) eq_refl eq_refl)
    as (a' & Hobj & Hown & _).
  exists a'. split; [exact Hobj|].
  rewrite (Hown "sword_1" ltac:(discriminate)). reflexivity.
Defined.


Lemma useConsumable_run (cat : Catalog) (now : Z) (jid itemId : string)
    (w : World) (e : Stored) (a : Adventure) (it : InvItem) (item : Item) :
  mem w !! JS.before_at jid = Some e -> stored_adventure e = Some a ->
  inv_find (inv_items (inventory a)) itemId = Some it -> 1 <= quantity it ->
  JS.map_get (items cat) itemId = Some item ->
  item_type item = "consumable" ->
  equipItem cat now jid itemId w
  = mkRun (if flush_ok w (fpos w)
           then ok (if JS.truthy_onum (item_restore item)
                    then MsgUsedRestore (item_name item)
                           (health (stats (used a itemId item))
                            - health (stats a))
                           (health (stats (used a itemId item)))
                           (maxHealth (stats a))
                    else if JS.truthy_onum (item_attackBoost item)
                            || JS.truthy_onum (item_defenseBoost item)
                            || JS.truthy_onum (item_speedBoost item)
                    then MsgUsedBoost (item_name item)
                    else MsgUsedNothing)
           else failure MsgUseError)
          (Some (used a itemId item))
          (written_bare jid (used a itemId item) w).
Proof.
  intros He Ha Hf Hq Hi Ht. unfold equipItem, run_handler.
  rewrite (getUserData_existing now jid w e a He Ha).
  unfold equipItem_body. unfold bind at 1. unfold get_obj at 1. cbn [fst snd].
  rewrite Hf. assert (Hq' : (quantity it <? 1) = false) by (apply Z.ltb_ge; lia).
  rewrite Hq', Hi, Ht. cbn [String.eqb Ascii.eqb Bool.eqb andb].
  unfold _useConsumable, catching, used, healed, written_bare.
  unfold bind at 1. unfold get_obj at 1. cbn [fst snd].
  assert (forall b, stats (_removeItemFromInventory b itemId 1) = stats b) as Hst.
  { intros b. unfold _removeItemFromInventory, with_items, with_inventory.
    now destruct (remove_item _ _ _). }
  destruct (JS.truthy_onum (item_restore item));
    [| destruct (JS.truthy_onum (item_attackBoost item)
                 || JS.truthy_onum (item_defenseBoost item)
                 || JS.truthy_onum (item_speedBoost item))];
    unfold bind, modify_obj, ret; cbn [fst snd];
    rewrite write_back_bare_run; rewrite ?Hst; cbn [stats health];
    destruct (flush_ok w (fpos w)); reflexivity.
Qed.

(** X12. Using a consumable.  When [equipItem] is given a consumable the
    user holds, one unit of it leaves the inventory and the profile is
    stored.  If the item restores health, the health becomes
    [min (maxHealth, health + restore)] and the message reports the
    difference.  Otherwise no stat changes: an item with an attack,
    defense or speed boost is answered with the message of the boost,
    an item with no effect at all with the empty message, both as a
    success.  Gold, level, equipment and the other items are as before.
    If the save fails, the answer is the error of [_useConsumable], with
    the profile in hand already changed. *)
Theorem use_consumable (cat : Catalog) (now : Z) (jid itemId : string)
    (w : World) (e : Stored) (a : Adventure) (it : InvItem) (item : Item) :
  mem w !! JS.before_at jid = Some e -> stored_adventure e = Some a ->
  inv_find (inv_items (inventory a)) itemId = Some it -> 1 <= quantity it ->
  JS.map_get (items cat) itemId = Some item ->
  item_type item = "consumable" ->
  let run := equipItem cat now jid itemId w in
  exists a',
    object run = Some a'
    /\ mem (world run) !! JS.before_at jid = Some (bare a')
    /\ (forall id, held (inv_items (inventory a')) id
                   = held (inv_items (inventory a)) id
                     - (if String.eqb itemId id then 1 else 0))
    /\ gold (inventory a') = gold (inventory a)
    /\ equipment a' = equipment a /\ adv_level a' = adv_level a
    /\ maxHealth (stats a') = maxHealth (stats a)
    /\ attack (stats a') = attack (stats a)
    /\ defense (stats a') = defense (stats a)
    /\ speed (stats a') = speed (stats a)
    /\ (forall r, item_restore item = Some r -> r <> 0 ->
          health (stats a') = Z.min (maxHealth (stats a)) (health (stats a) + r)
          /\ (flush_ok w (fpos w) = true ->
              result run
              = ok (MsgUsedRestore (item_name item)
                      (health (stats a') - health (stats a))
                      (health (stats a')) (maxHealth (stats a)))))
    /\ (JS.truthy_onum (item_restore item) = false -> stats a' = stats a)
    /\ (JS.truthy_onum (item_restore item) = false ->
        flush_ok w (fpos w) = true ->
        result run
        = ok (if JS.truthy_onum (item_attackBoost item)
                 || JS.truthy_onum (item_defenseBoost item)
                 || JS.truthy_onum (item_speedBoost item)
              then MsgUsedBoost (item_name item) else MsgUsedNothing))
    /\ (flush_ok w (fpos w) = false -> result run = failure MsgUseError).
Proof.
  intros He Ha Hf Hq Hi Ht run. unfold run.
  rewrite (useConsumable_run cat now jid itemId w e a it item He Ha Hf Hq Hi Ht).
  exists (used a itemId item). cbn [object world result].
  assert (inv_find (inv_items (inventory (healed a item))) itemId = Some it) as Hf'.
  { unfold healed. now destruct (JS.truthy_onum (item_restore item)). }
  destruct (held_remove_item _ itemId it Hf' Hq) as (l' & Hl' & Hheld).
  assert (used a itemId item = with_items (healed a item) l') as Hused.
  { unfold used, _removeItemFromInventory. now rewrite Hl'. }
  assert (inv_items (inventory (healed a item)) = inv_items (inventory a)
          /\ gold (inventory (healed a item)) = gold (inventory a)
          /\ equipment (healed a item) = equipment a
          /\ adv_level (healed a item) = adv_level a
          /\ maxHealth (stats (healed a item)) = maxHealth (stats a)
          /\ attack (stats (healed a item)) = attack (stats a)
          /\ defense (stats (healed a item)) = defense (stats a)
          /\ speed (stats (healed a item)) = speed (stats a))
    as (Hh1 & Hh2 & Hh3 & Hh4 & Hh5 & Hh6 & Hh7 & Hh8).
  { unfold healed. destruct (JS.truthy_onum (item_restore item));
      repeat split; reflexivity. }
  rewrite Hused. unfold with_items, with_inventory.
  cbn [inventory inv_items gold equipment adv_level stats].
  split; [reflexivity|].
  split; [unfold written_bare; cbn [mem]; apply lookup_insert_eq|].
  split; [intros id; rewrite Hheld, Hh1; reflexivity|].
  do 7 (split; [assumption|]).
  split; [|split].
  - intros r Hr Hr0. unfold healed. rewrite Hr. cbn [JS.truthy_onum default].
    destruct (Z.eqb_spec r 0); [congruence|]. cbn [negb stats health].
    split; [reflexivity|]. now intros ->.
  - intros Hno. unfold healed. now rewrite Hno.
  - split; [intros -> ->; reflexivity | now intros ->].
Qed.

(** A health potion at 60 of 100 health restores 40, not 50; a
    strength potion is answered with the message of the boost and
    leaves the attack at 10. *)
Lemma use_consumable_witness :
  let a :=
    with_stats (Sample.profile 1 0 100
                  [mkInvItem "potion_health" 2; mkInvItem "potion_strength" 1]
                  Sample.no_equipment Sample.no_cooldowns)
               (mkStats 60 100 10 5 8) in
  let w := Sample.world_of (Sample.store_with a) [] [] in
  result (equipItem Sample.potions 5000 "alice" "potion_health" w)
  = ok (MsgUsedRestore "Health Potion" 40 100 100)
  /\ result (equipItem Sample.potions 5000 "alice" "potion_strength" w)
     = ok (MsgUsedBoost "Strength Potion")
  /\ option_map (fun a' => attack (stats a'))
       (object (equipItem Sample.potions 5000 "alice" "potion_strength" w))
     = Some 10.
Proof.
  cbn zeta.
  pose proof (fun itemId it item =>
    use_consumable Sample.potions 5000 "alice" itemId
      (Sample.world_of
         (Sample.store_with
            (with_stats
               (Sample.profile 1 0 100
                  [mkInvItem "potion_health" 2; mkInvItem "potion_strength" 1]
                  Sample.no_equipment Sample.no_cooldowns)
               (mkStats 60 100 10 5 8))) [] [])
      (SUser Sample.alice
         (Some (with_stats
                  (Sample.profile 1 0 100
                     [mkInvItem "potion_health" 2; mkInvItem "potion_strength" 1]
                     Sample.no_equipment Sample.no_cooldowns)
                  (mkStats 60 100 10 5 8))))
      (with_stats
         (Sample.profile 1 0 100
            [mkInvItem "potion_health" 2; mkInvItem "potion_strength" 1]
            Sample.no_equipment Sample.no_cooldowns)
         (mkStats 60 100 10 5 8))
      it item eq_refl eq_refl) as H.
  cbn zeta in H.
  split.
  - destruct (H "potion_health" (mkInvItem "potion_health" 2)
                Sample.potion_health eq_refl ltac:(simpl; lia) eq_refl eq_refl)
      as (a' & _ & _ & _ & _ & _ & _ & _ & _ & _ & _ & Hr & _).
    destruct (Hr 50 eq_refl ltac:(lia)) as (Hh & Hres).
    rewrite (Hres eq_refl), Hh. reflexivity.
  - destruct (H "potion_strength" (mkInvItem "potion_strength" 1)
                Sample.potion_strength eq_refl ltac:(simpl; lia) eq_refl eq_refl)
      as (a' & Ho & _ & _ & _ & _ & _ & _ & Hatt & _ & _ & _ & _ & Hboost & _).
    split; [rewrite (Hboost eq_refl eq_refl); reflexivity |].
    rewrite Ho. cbn [option_map]. now rewrite Hatt.
Defined.

(** X13. What [equipItem] refuses.  For a user with a profile, an item
    that is not held (no line, or a line below one unit), that the
    catalog does not know, or whose type is neither consumable nor one
    of the three slots (a material), is refused with its own message:
    the profile in hand and the store are as before, and nothing is
    saved. *)
Theorem equip_refused (cat : Catalog) (now : Z) (jid itemId : string)
    (w : World) (e : Stored) (a : Adventure) :
  mem w !! JS.before_at jid = Some e -> stored_adventure e = Some a ->
  let run := equipItem cat now jid itemId w in
  let line := inv_find (inv_items (inventory a)) itemId in
  let missing :=
    match line with Some it => quantity it <? 1 | None => true end in
  (missing = true -> run = mkRun (failure MsgNotInInventory) (Some a) w)
  /\ (missing = false -> JS.map_get (items cat) itemId = None ->
      run = mkRun (failure MsgNotInDatabase) (Some a) w)
  /\ (forall item,
        missing = false -> JS.map_get (items cat) itemId = Some item ->
        item_type item <> "consumable" -> equipable (item_type item) = false ->
        run = mkRun (failure MsgCannotEquip) (Some a) w).
Proof.
  intros He Ha run line missing.
  assert (run = match equipItem_body cat jid itemId (a, w) with
                | (Ret r, (a', w2)) => mkRun r (Some a') w2
                | (Throw _, (a', w2)) => mkRun (failure MsgEquipError) (Some a') w2
                end) as ->.
  { unfold run, equipItem, run_handler.
    now rewrite (getUserData_existing now jid w e a He Ha). }
  unfold equipItem_body, bind, get_obj. cbn [fst snd].
  unfold missing, line.
  destruct (inv_find (inv_items (inventory a)) itemId) as [it|].
  2:{ split; [reflexivity|]. split; [discriminate|]. intros; discriminate. }
  split; [intros ->; reflexivity|]. split.
  - intros -> ->. reflexivity.
  - intros item -> -> Hc Hq. apply String.eqb_neq in Hc. rewrite Hc, Hq.
    reflexivity.
Qed.

(** Medicinal herbs, a material, cannot be equipped. *)
Lemma equip_refused_witness :
  let a := Sample.profile 1 0 100 [mkInvItem "mat_herb" 3]
             Sample.no_equipment Sample.no_cooldowns in
  equipItem Sample.catalog 5000 "alice" "mat_herb"
    (Sample.world_of (Sample.store_with a) [] [])
  = mkRun (failure MsgCannotEquip) (Some a)
          (Sample.world_of (Sample.store_with a) [] []).
Proof.
  cbn zeta.
  destruct (equip_refused Sample.catalog 5000 "alice" "mat_herb"
              (Sample.world_of
                 (Sample.store_with
                    (Sample.profile 1 0 100 [mkInvItem "mat_herb" 3]
                       Sample.no_equipment Sample.no_cooldowns)) [] [])
              (SUser Sample.alice
                 (Some (Sample.profile 1 0 100 [mkInvItem "mat_herb" 3]
                          Sample.no_equipment Sample.no_cooldowns)))
              (Sample.profile 1 0 100 [mkInvItem "mat_herb" 3]
                 Sample.no_equipment Sample.no_cooldowns)
              eq_refl eq_refl) as (_ & _ & H).
  apply (H Sample.mat_herb eq_refl eq_refl); [discriminate | reflexivity].
Defined.

Lemma shop_lists (cat : Catalog) (level : Z) (id : string) (item : Item) :
  In (id, item) (getShopItems cat level)
  <-> In (id, item) (items cat)
      /\ JS.truthy_onum (item_required_level item)
         && (level <? default 0 (item_required_level item)) = false.
Proof.
  unfold getShopItems. rewrite filter_In. cbn [snd].
  assert ((negb (JS.truthy_onum (item_required_level item))
           || (default 0 (item_required_level item) <=? level) = true)
          <-> (JS.truthy_onum (item_required_level item)
               && (level <? default 0 (item_required_level item)) = false)) as H.
  { destruct (JS.truthy_onum (item_required_level item)); cbn [negb orb andb].
    - rewrite Z.leb_le, Z.ltb_ge. tauto.
    - tauto. }
  tauto.
Qed.

(** X14. The shop and the purchase agree on the level.  For the item the
    catalog gives for an id, [getShopItems] lists it for a level exactly
    when [buyItem] does not refuse it for that level: a user can buy
    every item the shop shows them as soon as they have the gold, and
    every item of the catalog the shop hides is refused with the
    level message, leaving everything as it was. *)
Theorem shop_matches_purchase (cat : Catalog) (now : Z) (jid itemId : string)
    (w : World) (e : Stored) (a : Adventure) (item : Item) :
  mem w !! JS.before_at jid = Some e -> stored_adventure e = Some a ->
  JS.map_get (items cat) itemId = Some item ->
  let run := buyItem cat now jid itemId w in
  (In (itemId, item) (getShopItems cat (adv_level a)) ->
   item_value item <= gold (inventory a) ->
   object run = Some (purchased a itemId item)
   /\ (flush_ok w (fpos w) = true -> success (result run) = true))
  /\ (~ In (itemId, item) (getShopItems cat (adv_level a)) ->
      run = mkRun (failure (MsgLevelTooLow
                              (default 0 (item_required_level item))
                              (adv_level a))) (Some a) w)
  /\ (forall level, In (itemId, item) (getShopItems cat level) ->
        forall level', level <= level' ->
                       In (itemId, item) (getShopItems cat level')).
Proof.
  intros He Ha Hi run. unfold run.
  rewrite (buyItem_run cat now jid itemId w e a He Ha), Hi.
  pose proof (map_get_in _ _ _ Hi) as Hin.
  split; [|split].
  - intros Hshop Hgold. apply shop_lists in Hshop as [_ ->].
    destruct (Z.ltb_spec (gold (inventory a)) (item_value item)); [lia|].
    cbn [object result]. split; [reflexivity|]. now intros ->.
  - intros Hno.
    destruct (JS.truthy_onum (item_required_level item)
              && (adv_level a <? default 0 (item_required_level item))) eqn:E;
      [reflexivity|].
    exfalso. apply Hno. apply shop_lists. now split.
  - intros level Hl level' Hle. apply shop_lists in Hl as [Hl1 Hl2].
    apply shop_lists. split; [exact Hl1|].
    destruct (JS.truthy_onum (item_required_level item)); [|reflexivity].
    cbn [andb] in *. apply Z.ltb_ge in Hl2. apply Z.ltb_ge. lia.
Qed.

(** The battle axe (level 5) is hidden from a level 3 user and refused. *)
Lemma shop_matches_purchase_witness :
  let a := Sample.profile 3 0 144 [] Sample.no_equipment Sample.no_cooldowns in
  buyItem Sample.catalog 5000 "alice" "axe_1"
    (Sample.world_of (Sample.store_with a) [] [])
  = mkRun (failure (MsgLevelTooLow 5 3)) (Some a)
          (Sample.world_of (Sample.store_with a) [] []).
Proof.
  cbn zeta.
  destruct (shop_matches_purchase Sample.catalog 5000 "alice" "axe_1"
              (Sample.world_of
                 (Sample.store_with
                    (Sample.profile 3 0 144 [] Sample.no_equipment
                                    Sample.no_cooldowns)) [] [])
              (SUser Sample.alice
                 (Some (Sample.profile 3 0 144 [] Sample.no_equipment
                                       Sample.no_cooldowns)))
              (Sample.profile 3 0 144 [] Sample.no_equipment Sample.no_cooldowns)
              Sample.axe_1 eq_refl eq_refl eq_refl) as (_ & H & _).
  apply H. vm_compute. intuition discriminate.
Defined.

End Items.

(** * Growth: the cost of levels, training and the daily reward *)

Section Growth.

Import AdventureManager.

Context {engine : Math.Pow}.

Lemma addXP_iter (a : Adventure) (amount : Z) :
  exists k, runs_for k (with_xp a (adv_xp a + amount))
            /\ _addXP a amount
               = (Nat.iter k level_up (with_xp a (adv_xp a + amount)),
                  mkLevelUpInfo (negb (Nat.eqb k 0)) (negb (Nat.eqb k 0))).
Proof.
  destruct (runs_for_any (with_xp a (adv_xp a + amount))) as (k & Hk & Hr).
  exists k. split; [exact Hr|]. unfold _addXP.
  now rewrite (loop_iter k _ _ false Hr Hk).
Qed.

Lemma addXP_ok (a : Adventure) (amount : Z) :
  profile_ok a -> 0 <= amount -> profile_ok (fst (_addXP a amount)).
Proof.
  intros (Hl & Hx & Hn & Hh & Hg & Hi) Ha.
  destruct (addXP_iter a amount) as (k & Hr & ->). cbn [fst].
  set (a1 := with_xp a (adv_xp a + amount)) in *.
  destruct (iter_level_up_fields k a1)
    as (Fl & Fm & _ & _ & _ & Fk & Finv & _).
  destruct Hr as [Hturn Hexit].
  unfold profile_ok. rewrite Fl, Finv.
  change (adv_level a1) with (adv_level a).
  change (inventory a1) with (inventory a).
  split; [lia|]. split; [|split; [|split; [|split; assumption]]].
  - split; [|exact Hexit].
    destruct k as [|k]; [cbn; lia|].
    specialize (Hturn k ltac:(lia)). rewrite Nat.iter_succ.
    cbn [level_up adv_xp]. lia.
  - destruct k as [|k];
      [cbn [Nat.iter nat_rect]; replace (adv_level a + Z.of_nat 0) with (adv_level a) by lia; exact Hn|].
    destruct (Fk ltac:(lia)) as (_ & ->). now rewrite Fl.
  - destruct k as [|k]; [exact Hh|].
    destruct (Fk ltac:(lia)) as (-> & _). rewrite Fm.
    change (maxHealth (stats a1)) with (maxHealth (stats a)). lia.
Qed.

Lemma addXP_small (a : Adventure) (amount : Z) :
  profile_ok a -> 0 <= amount < xpNeededFor (adv_level a + 1) ->
  fst (_addXP a amount)
  = if adv_xpNeeded a <=? adv_xp a + amount
    then level_up (with_xp a (adv_xp a + amount))
    else with_xp a (adv_xp a + amount).
Proof.
  intros (Hl & Hx & Hn & _) Ha.
  destruct (Z.leb_spec (adv_xpNeeded a) (adv_xp a + amount)) as [Hup|Hno].
  - destruct (addXP_iter a amount) as (k & Hr & ->). cbn [fst].
    assert (runs_for 1 (with_xp a (adv_xp a + amount))) as H1.
    { split.
      - intros j Hj. assert (j = O) as -> by lia. exact Hup.
      - cbn [Nat.iter nat_rect level_up adv_xp adv_xpNeeded with_xp adv_level].
        lia. }
    now rewrite (runs_for_unique k 1 _ Hr H1).
  - now rewrite _addXP_no_levelup.
Qed.

(** X15. The cost of a level.  The first level asks for 100 XP and no
    level from 1 on for less.  So a gain below what the next level asks
    for, a gain below 100 XP in particular, on a profile whose XP is
    below what its level asks for, raises the level by one at most: by
    one exactly when the new XP reaches [xpNeeded]. *)
Theorem one_level_at_a_time (l : Z) :
  1 <= l ->
  xpNeededFor 1 = 100
  /\ 100 <= xpNeededFor l
  /\ forall a amount,
       profile_ok a -> adv_level a = l ->
       0 <= amount -> amount < 100 \/ amount < xpNeededFor (l + 1) ->
       adv_level (fst (_addXP a amount))
       = l + (if adv_xpNeeded a <=? adv_xp a + amount then 1 else 0).
Proof.
  intros Hl. split; [exact xpNeededFor_1 |].
  split; [exact (xpNeededFor_min l Hl) |].
  intros a amount Hok Hlev Ha Hsmall.
  pose proof (xpNeededFor_min (l + 1) ltac:(lia)) as Hnext.
  rewrite (addXP_small a amount Hok) by (rewrite Hlev; lia).
  destruct (adv_xpNeeded a <=? adv_xp a + amount); cbn; lia.
Qed.

Lemma stored_adventure_set (e : Stored) (a : Adventure) :
  stored_adventure (set_stored_adventure e a) = Some a.
Proof. now destruct e. Qed.

Lemma train_cooling (now : Z) (jid : string) (w : World) (e : Stored)
    (a : Adventure) :
  mem w !! JS.before_at jid = Some e -> stored_adventure e = Some a ->
  now < cd_train (cooldowns a) ->
  train now jid w
  = mkRun (failure (MsgTrainCooldown
             (JS.ceil_div (cd_train (cooldowns a) - now) 1000 / 60)
             (JS.ceil_div (cd_train (cooldowns a) - now) 1000 mod 60)))
          (Some a) w.
Proof.
  intros He Ha Hcd. unfold train, run_handler.
  rewrite (getUserData_existing now jid w e a He Ha).
  unfold train_body, bind, get_obj, ret. cbn [fst snd].
  apply Z.ltb_lt in Hcd. now rewrite Hcd.
Qed.

Lemma claimDaily_cooling (now : Z) (jid : string) (w : World) (e : Stored)
    (a : Adventure) :
  mem w !! JS.before_at jid = Some e -> stored_adventure e = Some a ->
  now < cd_daily (cooldowns a) ->
  claimDaily now jid w
  = mkRun (failure (MsgDailyCooldown
             (JS.ceil_div (cd_daily (cooldowns a) - now) 1000 / 3600)
             (JS.ceil_div (cd_daily (cooldowns a) - now) 1000 mod 3600 / 60)))
          (Some a) w.
Proof.
  intros He Ha Hcd. unfold claimDaily, run_handler.
  rewrite (getUserData_existing now jid w e a He Ha).
  unfold claimDaily_body, bind, get_obj, ret. cbn [fst snd].
  apply Z.ltb_lt in Hcd. now rewrite Hcd.
Qed.

Lemma addXP_keeps (a : Adventure) (amount : Z) :
  inventory (fst (_addXP a amount)) = inventory a
  /\ equipment (fst (_addXP a amount)) = equipment a
  /\ cooldowns (fst (_addXP a amount)) = cooldowns a
  /\ adv_location (fst (_addXP a amount)) = adv_location a.
Proof.
  destruct (addXP_iter a amount) as (k & _ & ->). cbn [fst].
  destruct (iter_level_up_fields k (with_xp a (adv_xp a + amount)))
    as (_ & _ & _ & _ & _ & _ & Hi & He & Hc & Hl & _).
  repeat split; assumption.
Qed.

Lemma boost_stat_keeps (s : string) (n : Z) (a : Adventure) :
  inventory (boost_stat s n a) = inventory a
  /\ equipment (boost_stat s n a) = equipment a
  /\ cooldowns (boost_stat s n a) = cooldowns a
  /\ adv_level (boost_stat s n a) = adv_level a
  /\ adv_xp (boost_stat s n a) = adv_xp a
  /\ adv_xpNeeded (boost_stat s n a) = adv_xpNeeded a.
Proof. unfold boost_stat. repeat case_match; repeat split; reflexivity. Qed.

Lemma train_run (now : Z) (jid : string) (w : World) (e : Stored)
    (a : Adventure) :
  mem w !! JS.before_at jid = Some e -> stored_adventure e = Some a ->
  cd_train (cooldowns a) <= now ->
  let x := 15 + JS.floor_mul (draw_val (rnd w (rpos w))) 10 in
  let hit := JS.Qltb (draw_val (rnd w (S (rpos w)))) (1 # 5) in
  let bonus :=
    if hit
    then JS.index train_bonuses
           (JS.floor_mul (draw_val (rnd w (S (S (rpos w))))) 4)
    else None in
  15 <= x <= 24
  /\ (bonus = None <-> hit = false)
  /\ (forall b, bonus = Some b -> In b train_bonuses)
  /\ train now jid w
     = mkRun (if flush_ok w (fpos w)
              then mkResult true
                     (MsgTrained x bonus
                        (info_leveledUp
                           (snd (_addXP (match bonus with
                                         | Some (stat, amount) =>
                                             boost_stat stat amount a
                                         | None => a
                                         end) x)))
                        (adv_level (trained now a bonus x)))
                     None None
                     (Some (info_leveledUp
                              (snd (_addXP (match bonus with
                                            | Some (stat, amount) =>
                                                boost_stat stat amount a
                                            | None => a
                                            end) x))))
                     bonus None false
              else failure MsgTrainError)
             (Some (trained now a bonus x))
             (written_adventure jid e (trained now a bonus x)
                (mkWorld (mem w) (disk w) (xpCooldowns w) (rnd w)
                         ((if hit then 3 else 2) + rpos w)
                         (flush_ok w) (fpos w))).
Proof.
  intros He Ha Hcd x hit bonus.
  pose proof (floor_mul_draw_range (rnd w (rpos w)) 10 ltac:(lia)) as Hx.
  pose proof (floor_mul_draw_range (rnd w (S (S (rpos w)))) 4 ltac:(lia)) as Hi.
  split; [unfold x; lia |].
  assert (Hcase : hit = false /\ bonus = None
                  \/ hit = true
                     /\ exists s, JS.index ["attack"; "defense"; "speed"; "maxHealth"]
                                   (JS.floor_mul (draw_val (rnd w (S (S (rpos w))))) 4)
                                 = Some s
                                 /\ bonus = Some (s, if String.eqb s "maxHealth"
                                                     then 5 else 1)
                                 /\ In (s, if String.eqb s "maxHealth" then 5 else 1)
                                       train_bonuses).
  { unfold bonus. destruct hit; [right | now left]. split; [reflexivity |].
    set (i := JS.floor_mul _ 4) in *.
    assert (i = 0 \/ i = 1 \/ i = 2 \/ i = 3) as Hc by lia. clearbody i.
    destruct Hc as [-> | [-> | [-> | ->]]]; eexists;
      (split; [reflexivity |]); (split; [reflexivity |]); simpl; tauto. }
  split.
  { destruct Hcase as [[Hh Hb] | (Hh & s & _ & Hb & _)]; rewrite Hh, Hb;
      split; congruence. }
  split.
  { destruct Hcase as [[Hh Hb] | (Hh & s & _ & Hb & Hin)]; rewrite Hb;
      intros b Hb'; [discriminate | injection Hb' as <-; exact Hin]. }
  unfold train, run_handler.
  rewrite (getUserData_existing now jid w e a He Ha).
  unfold train_body. unfold bind at 1. unfold get_obj at 1. cbn [fst snd].
  apply Z.ltb_ge in Hcd. rewrite Hcd.
  unfold bind at 1. unfold liftW at 1, random at 1. cbn [fst snd].
  unfold bind at 1. unfold liftW at 1, random at 1.
  cbn [fst snd rnd rpos mem disk xpCooldowns flush_ok fpos].
  fold x. fold hit.
  destruct Hcase as [[Hh Hb] | (Hh & s & Hs & Hb & _)]; rewrite Hb, Hh.
  - unfold bind, modify_obj, ret, addXP_obj. cbn [fst snd].
    unfold trained.
    destruct (_addXP a x) as [a2 info] eqn:E. cbn [fst snd].
    erewrite (write_back_adventure_run now jid e) by exact He.
    unfold written_adventure. cbn [mem disk flush_ok fpos].
    destruct (flush_ok w (fpos w)); reflexivity.
  - unfold bind at 1. unfold bind at 1. unfold liftW at 1, random at 1.
    cbn [fst snd rnd rpos mem disk xpCooldowns flush_ok fpos].
    change (Z.of_nat (length ["attack"; "defense"; "speed"; "maxHealth"]))
      with 4.
    rewrite Hs.
    unfold bind, modify_obj, ret, addXP_obj. cbn [fst snd].
    unfold trained.
    destruct (_addXP (boost_stat s (if String.eqb s "maxHealth" then 5 else 1) a) x)
      as [a2 info] eqn:E. cbn [fst snd].
    erewrite (write_back_adventure_run now jid e) by exact He.
    unfold written_adventure. cbn [mem disk flush_ok fpos].
    destruct (flush_ok w (fpos w)); reflexivity.
Qed.

Lemma trained_fields (now : Z) (a : Adventure) (bonus : option (string * Z))
    (x : Z) :
  cd_train (cooldowns (trained now a bonus x)) = now + COOLDOWN_TRAIN
  /\ inventory (trained now a bonus x) = inventory a
  /\ equipment (trained now a bonus x) = equipment a
  /\ cd_hunt (cooldowns (trained now a bonus x)) = cd_hunt (cooldowns a)
  /\ cd_daily (cooldowns (trained now a bonus x)) = cd_daily (cooldowns a).
Proof.
  unfold trained.
  match goal with
  | |- context [_addXP ?b x] =>
      destruct (addXP_keeps b x) as (Hi & He & Hc & _);
      assert (inventory b = inventory a /\ equipment b = equipment a
              /\ cooldowns b = cooldowns a) as (Hi' & He' & Hc')
  end.
  { destruct bonus as [[st n]|]; [|repeat split; reflexivity].
    destruct (boost_stat_keeps st n a) as (H1 & H2 & H3 & _).
    repeat split; assumption. }
  unfold set_cd_train, with_cooldowns.
  cbn [cooldowns cd_train cd_hunt cd_daily inventory equipment].
  rewrite Hi, He, Hc, Hi', He', Hc'. repeat split; reflexivity.
Qed.



(** X17. The daily reward, once a day.  For a user with a profile and no
    daily cooldown, a claim adds [100 + 10 * level] gold and
    [20 + 5 * level] XP (through the level-up routine) and puts the
    profile back into the user's record, whose leveling part is kept;
    for the next 24 hours every other claim is refused with the time
    left and changes nothing, and from then on a claim is taken again. *)
Theorem daily_once (now : Z) (jid : string) (w : World) (e : Stored)
    (a : Adventure) :
  mem w !! JS.before_at jid = Some e -> stored_adventure e = Some a ->
  cd_daily (cooldowns a) <= now ->
  let run := claimDaily now jid w in
  let a' := claimed now a in
  object run = Some a'
  /\ mem (world run) !! JS.before_at jid = Some (set_stored_adventure e a')
  /\ gold (inventory a') = gold (inventory a) + 100 + 10 * adv_level a
  /\ inv_items (inventory a') = inv_items (inventory a)
  /\ equipment a' = equipment a
  /\ (forall now2,
        now2 < now + COOLDOWN_DAILY ->
        claimDaily now2 jid (world run)
        = mkRun (failure (MsgDailyCooldown
                   (JS.ceil_div (now + COOLDOWN_DAILY - now2) 1000 / 3600)
                   (JS.ceil_div (now + COOLDOWN_DAILY - now2) 1000 mod 3600 / 60)))
                (Some a') (world run))
  /\ (forall now2,
        now + COOLDOWN_DAILY <= now2 ->
        object (claimDaily now2 jid (world run)) = Some (claimed now2 a')).
Proof.
  intros He Ha Hcd run a'. unfold run.
  rewrite (claimDaily_run now jid w e a He Ha Hcd). cbn [object world].
  fold a'.
  assert (cd_daily (cooldowns a') = now + COOLDOWN_DAILY
          /\ inventory a'
             = mkInventory (gold (inventory a) + (100 + adv_level a * 10))
                           (inv_items (inventory a))
          /\ equipment a' = equipment a) as (Hct & Hinv & Heq).
  { unfold a', claimed.
    destruct (addXP_keeps (add_gold (100 + adv_level a * 10) a)
                          (20 + adv_level a * 5)) as (Hi & He' & Hc & _).
    unfold set_cd_daily, with_cooldowns.
    cbn [cooldowns cd_daily inventory equipment].
    rewrite Hi, He'. repeat split; reflexivity. }
  assert (mem (written_adventure jid e a' w) !! JS.before_at jid
          = Some (set_stored_adventure e a')) as Hmem.
  { unfold written_adventure. cbn [mem]. apply lookup_insert_eq. }
  split; [reflexivity|]. split; [exact Hmem|].
  split; [rewrite Hinv; cbn [gold]; lia|].
  split; [now rewrite Hinv|]. split; [exact Heq|]. split.
  - intros now2 Hnow2.
    rewrite (claimDaily_cooling now2 jid _ _ a' Hmem (stored_adventure_set _ _))
      by (rewrite Hct; exact Hnow2).
    now rewrite Hct.
  - intros now2 Hnow2.
    rewrite (claimDaily_run now2 jid _ _ a' Hmem (stored_adventure_set _ _))
      by (rewrite Hct; exact Hnow2).
    reflexivity.
Qed.

End Growth.

Section GrowthExamples.

Import AdventureManager.

#[local] Existing Instance sample_engine.

(** Ten XP on a profile at level 1 with 95 XP of the 100 asked for:
    one level. *)
Lemma one_level_at_a_time_witness :
  adv_level (fst (_addXP (Sample.profile 1 95 100 [] Sample.no_equipment
                                         Sample.no_cooldowns) 10)) = 2.
Proof.
  destruct (one_level_at_a_time 1 ltac:(lia)) as (H1 & _ & H).
  rewrite (H (Sample.profile 1 95 100 [] Sample.no_equipment
                             Sample.no_cooldowns) 10).
  - reflexivity.
  - unfold profile_ok, inv_ok. cbn [Sample.profile adv_level adv_xp
      adv_xpNeeded stats health maxHealth inventory gold inv_items map].
    rewrite H1.
    repeat split; try lia; constructor.
  - reflexivity.
  - lia.
  - left. lia.
Defined.

(** X24. The thresholds with the power of the examples, the product of
    the factors in binary64: 100, 120, 144, 172 and 207 XP for the
    levels 1 to 5; the floor of the real [100 * 1.2 ^ (level - 1)] for
    every level up to 154; and one XP less than that floor for level
    155, the double nearest to [1.2] being below [1.2]. *)
Lemma thresholds_in_binary64 :
  map xpNeededFor [1; 2; 3; 4; 5] = [100; 120; 144; 172; 207]
  /\ (forall l, In l (map Z.of_nat (seq 1 154)) ->
        xpNeededFor l = 100 * 6 ^ (l - 1) / 5 ^ (l - 1))
  /\ xpNeededFor 155 = 156283054700875
  /\ 100 * 6 ^ 154 / 5 ^ 154 = 156283054700876.
Proof.
  split; [vm_compute; reflexivity |].
  split; [| split; vm_compute; reflexivity].
  assert (H : forallb (fun l => xpNeededFor l =? 100 * 6 ^ (l - 1) / 5 ^ (l - 1))
                      (map Z.of_nat (seq 1 154)) = true)
    by (vm_compute; reflexivity).
  rewrite forallb_forall in H. intros l Hl. apply Z.eqb_eq. now apply H.
Qed.


(** A claim at 5000 ms gives 110 gold at level 1; one an hour later is
    refused with 23 hours left. *)
Lemma daily_once_witness :
  let a := Sample.profile 1 0 100 [] Sample.no_equipment Sample.no_cooldowns in
  let run := claimDaily 5000 "alice"
               (Sample.world_of (Sample.store_with a) [] []) in
  gold (inventory (claimed 5000 a)) = 210
  /\ message (result (claimDaily 3605000 "alice" (world run)))
     = MsgDailyCooldown 23 0.
Proof.
  cbn zeta.
  destruct (daily_once 5000 "alice"
              (Sample.world_of
                 (Sample.store_with
                    (Sample.profile 1 0 100 [] Sample.no_equipment
                                    Sample.no_cooldowns)) [] [])
              (SUser Sample.alice
                 (Some (Sample.profile 1 0 100 [] Sample.no_equipment
                                       Sample.no_cooldowns)))
              (Sample.profile 1 0 100 [] Sample.no_equipment Sample.no_cooldowns)
              eq_refl eq_refl ltac:(simpl; lia))
    as (_ & _ & Hg & _ & _ & Hnext & _).
  split; [rewrite Hg; reflexivity|].
  rewrite (Hnext 3605000 ltac:(unfold COOLDOWN_DAILY; lia)). reflexivity.
Defined.

End GrowthExamples.

(** * Profiles in the store *)

Section Profiles.

Import AdventureManager.

Context {engine : Math.Pow}.

Lemma getUserData_stored (now : Z) (jid : string) (w : World) (e : Stored) :
  mem w !! JS.before_at jid = Some e ->
  getUserData now jid w
  = match stored_adventure e with
    | Some a => (Ret a, w)
    | None =>
        let a := _createDefaultAdventureData now e in
        (if flush_ok w (fpos w) then Ret a else Throw IOError,
         mkWorld (<[JS.before_at jid := set_stored_adventure e a]> (mem w))
                 (if flush_ok w (fpos w)
                  then <[JS.before_at jid := set_stored_adventure e a]> (mem w)
                  else disk w)
                 (xpCooldowns w) (rnd w) (rpos w) (flush_ok w) (S (fpos w)))
    end.
Proof.
  intros He.
  unfold getUserData, updateUserData, LevelManager.getUserData,
    LevelManager.saveData, Db.save, Db.set, Db.get, ret, bind.
  rewrite before_at_idem, He.
  destruct (stored_adventure e); [reflexivity|].
  cbn [mem disk xpCooldowns rnd rpos flush_ok fpos].
  destruct (flush_ok w (fpos w)); reflexivity.
Qed.

Lemma getUserData_new (now : Z) (jid : string) (w : World) :
  mem w !! JS.before_at jid = None ->
  let key := JS.before_at jid in
  let u := SUser (mkUserData key key 0 1 0 now now []) None in
  let a := _createDefaultAdventureData now u in
  getUserData now jid w
  = (if flush_ok w (fpos w) then Ret a else Throw IOError,
     mkWorld (<[key := set_stored_adventure u a]> (mem w))
             (if flush_ok w (fpos w)
              then <[key := set_stored_adventure u a]> (mem w)
              else disk w)
             (xpCooldowns w) (rnd w) (rpos w) (flush_ok w) (S (fpos w))).
Proof.
  intros He key u a.
  unfold getUserData, updateUserData, LevelManager.getUserData,
    LevelManager.saveData, Db.save, Db.set, Db.get, ret, bind.
  rewrite before_at_idem. fold key. unfold key at 1. rewrite He.
  cbn [mem disk xpCooldowns rnd rpos flush_ok fpos stored_adventure].
  rewrite insert_insert_eq. fold u. fold a.
  destruct (flush_ok w (fpos w)); reflexivity.
Qed.

(** X18. The profile of a user is created once.  Without a record,
    [getUserData] creates the leveling record and, in it, the default
    profile (level 1, 0 of 100 XP, 100 of 100 health, 100 gold, nothing
    held or worn, in town, no cooldown), and saves; the profile is in
    the store even when that save fails.  Whatever the store held, once
    [getUserData] has answered with a profile, asking again, at any
    time and under any spelling of the JID with the same part before
    the at-sign, answers the same profile and changes nothing. *)
Theorem getUserData_once (now : Z) (jid : string) (w : World) :
  (mem w !! JS.before_at jid = None ->
   let a := _createDefaultAdventureData now
              (SUser (mkUserData (JS.before_at jid) (JS.before_at jid)
                                 0 1 0 now now []) None) in
   fst (getUserData now jid w)
   = (if flush_ok w (fpos w) then Ret a else Throw IOError)
   /\ mem (snd (getUserData now jid w)) !! JS.before_at jid
      = Some (SUser (mkUserData (JS.before_at jid) (JS.before_at jid)
                                0 1 0 now now []) (Some a))
   /\ adv_level a = 1 /\ adv_xp a = 0 /\ adv_xpNeeded a = 100
   /\ stats a = mkStats 100 100 10 5 8
   /\ inventory a = mkInventory 100 []
   /\ equipment a = mkEquipment None None None
   /\ adv_location a = "town" /\ cooldowns a = mkCooldowns 0 0 0 0)
  /\ (forall a w1,
        getUserData now jid w = (Ret a, w1) ->
        forall now2 jid2,
          JS.before_at jid2 = JS.before_at jid ->
          getUserData now2 jid2 w1 = (Ret a, w1)).
Proof.
  split.
  - intros He a. rewrite (getUserData_new now jid w He). cbn [fst snd mem].
    split; [reflexivity|]. split; [apply lookup_insert_eq|].
    repeat split; reflexivity.
  - intros a w1 Hrun now2 jid2 Hk.
    assert (exists e1, mem w1 !! JS.before_at jid = Some e1
                       /\ stored_adventure e1 = Some a) as (e1 & He1 & Ha1).
    { destruct (mem w !! JS.before_at jid) as [e|] eqn:He.
      - rewrite (getUserData_stored now jid w e He) in Hrun.
        destruct (stored_adventure e) as [a0|] eqn:Ha.
        + injection Hrun as <- <-. now exists e.
        + cbn zeta in Hrun. destruct (flush_ok w (fpos w)); [|discriminate].
          injection Hrun as <- <-. eexists. cbn [mem].
          split; [apply lookup_insert_eq | apply stored_adventure_set].
      - rewrite (getUserData_new now jid w He) in Hrun. cbn zeta in Hrun.
        destruct (flush_ok w (fpos w)); [|discriminate].
        injection Hrun as <- <-. eexists. cbn [mem].
        split; [apply lookup_insert_eq | reflexivity]. }
    rewrite <- Hk in He1.
    now rewrite (getUserData_stored now2 jid2 w1 e1 He1), Ha1.
Qed.

(** Bob's first command: the default profile, named after the key. *)
Lemma getUserData_once_witness :
  fst (getUserData 5000 "bob@s.whatsapp.net" (Sample.world_of ∅ [] []))
  = Ret (mkAdventure "bob" 1 0 100 (mkStats 100 100 10 5 8)
           (mkInventory 100 []) (mkEquipment None None None) "town" [] 0
           (mkCooldowns 0 0 0 0) 5000 5000).
Proof.
  exact (proj1 (proj1 (getUserData_once 5000 "bob@s.whatsapp.net"
                         (Sample.world_of ∅ [] [])) eq_refl)).
Defined.

(** X19. A purchase puts the profile in place of the user's record, and
    the next command starts from scratch.  After [buyItem] has taken the
    gold and added the item, the store holds the profile itself under
    the user's key, where a record with an [adventure] field is
    expected.  So the next [getUserData] of that user, with which every
    command begins, finds no [adventure] field, creates a default
    profile named Adventurer with 100 gold and no item, stores it inside
    the old profile and answers it: the item bought, like everything
    else of the old profile, is out of the commands' reach. *)
Theorem purchase_resets_profile (cat : Catalog) (now : Z) (jid itemId : string)
    (w : World) (e : Stored) (a : Adventure) (item : Item) :
  mem w !! JS.before_at jid = Some e -> stored_adventure e = Some a ->
  JS.map_get (items cat) itemId = Some item ->
  In (itemId, item) (getShopItems cat (adv_level a)) ->
  item_value item <= gold (inventory a) ->
  let w1 := world (buyItem cat now jid itemId w) in
  let bought := purchased a itemId item in
  mem w1 !! JS.before_at jid = Some (bare bought)
  /\ held (inv_items (inventory bought)) itemId
     = held (inv_items (inventory a)) itemId + 1
  /\ forall now2,
       let fresh := _createDefaultAdventureData now2 (bare bought) in
       fst (getUserData now2 jid w1)
       = (if flush_ok w1 (fpos w1) then Ret fresh else Throw IOError)
       /\ mem (snd (getUserData now2 jid w1)) !! JS.before_at jid
          = Some (SAdv bought None (Some fresh))
       /\ adv_name fresh = "Adventurer"
       /\ inventory fresh = mkInventory 100 []
       /\ adv_level fresh = 1
       /\ forall itemId2,
            object (equipItem cat now2 jid itemId2 w1)
            = (if flush_ok w1 (fpos w1) then Some fresh else None)
            /\ (flush_ok w1 (fpos w1) = true ->
                result (equipItem cat now2 jid itemId2 w1)
                = failure MsgNotInInventory).
Proof.
  intros He Ha Hi Hshop Hgold w1 bought.
  assert (w1 = written_bare jid bought w) as Hw1.
  { unfold w1. rewrite (buyItem_run cat now jid itemId w e a He Ha), Hi.
    apply shop_lists in Hshop as [_ ->].
    destruct (Z.ltb_spec (gold (inventory a)) (item_value item)); [lia|].
    reflexivity. }
  assert (mem w1 !! JS.before_at jid = Some (bare bought)) as Hmem.
  { rewrite Hw1. unfold written_bare. cbn [mem]. apply lookup_insert_eq. }
  split; [exact Hmem|]. split.
  { unfold bought, purchased, _addItemToInventory, with_items, with_inventory,
      add_gold. cbn [inventory inv_items]. rewrite held_add_item.
    now rewrite String.eqb_refl. }
  intros now2 fresh.
  pose proof (getUserData_stored now2 jid w1 (bare bought) Hmem) as Hget.
  cbn [bare stored_adventure] in Hget. cbn zeta in Hget. fold fresh in Hget.
  rewrite Hget. cbn [fst snd mem].
  split; [now destruct (flush_ok w1 (fpos w1))|].
  split; [apply lookup_insert_eq|].
  split; [reflexivity|]. split; [reflexivity|]. split; [reflexivity|].
  intros itemId2. unfold equipItem, run_handler. rewrite Hget.
  destruct (flush_ok w1 (fpos w1)); [|split; [reflexivity | discriminate]].
  unfold equipItem_body, bind, get_obj, ret. cbn. split; reflexivity.
Qed.

(** Alice buys a wooden sword for 50 of her 100 gold; the next command
    sees a new adventurer with 100 gold and an empty inventory. *)
Lemma purchase_resets_profile_witness :
  let a := Sample.profile 1 0 100 [] Sample.no_equipment Sample.no_cooldowns in
  let w1 := world (buyItem Sample.catalog 5000 "alice" "sword_1"
                     (Sample.world_of (Sample.store_with a) [] [])) in
  option_map inventory (object (equipItem Sample.catalog 6000 "alice" "sword_1" w1))
  = Some (mkInventory 100 []).
Proof.
  cbn zeta.
  destruct (purchase_resets_profile Sample.catalog 5000 "alice" "sword_1"
              (Sample.world_of
                 (Sample.store_with
                    (Sample.profile 1 0 100 [] Sample.no_equipment
                                    Sample.no_cooldowns)) [] [])
              (SUser Sample.alice
                 (Some (Sample.profile 1 0 100 [] Sample.no_equipment
                                       Sample.no_cooldowns)))
              (Sample.profile 1 0 100 [] Sample.no_equipment Sample.no_cooldowns)
              Sample.sword_1 eq_refl eq_refl eq_refl
              ltac:(simpl; tauto) ltac:(simpl; lia))
    as (_ & _ & Hnext).
  destruct (Hnext 6000) as (_ & _ & _ & _ & _ & Hequip).
  destruct (Hequip "sword_1") as (-> & _). reflexivity.
Defined.

End Profiles.

(** * The profile in place of the record

    [buyItem], [equipItem], [travel] and the hunts that find a treasure
    or nothing hand the adventure profile itself to [updateUserData],
    whose parameter is the full record of the user.  The profile then
    sits under the user's key, where [getUserData] looks for the
    [adventure] field of a record and, finding none, creates a default
    profile: the next command of the user starts from scratch. *)

Section InPlace.

Import AdventureManager.

Context {engine : Math.Pow}.

Lemma getUserData_fresh (now : Z) (jid : string) (w : World) (e : Stored) :
  mem w !! JS.before_at jid = Some e -> stored_adventure e = None ->
  getUserData now jid w
  = (if flush_ok w (fpos w)
     then Ret (_createDefaultAdventureData now e) else Throw IOError,
     refreshed now jid e w).
Proof.
  intros He Ha. rewrite (getUserData_stored now jid w e He), Ha. reflexivity.
Qed.

(** A handler on a record without a profile: the generic error when the
    save of the default profile fails, else the handler as it runs on
    the default profile. *)
Lemma run_handler_fresh (now : Z) (jid : string) (body : H Result)
    (err : Result) (w : World) (e : Stored) :
  mem w !! JS.before_at jid = Some e -> stored_adventure e = None ->
  run_handler now jid body err w
  = if flush_ok w (fpos w)
    then run_handler now jid body err (refreshed now jid e w)
    else mkRun err None (refreshed now jid e w).
Proof.
  intros He Ha. unfold run_handler at 1.
  rewrite (getUserData_fresh now jid w e He Ha).
  destruct (flush_ok w (fpos w)); [| reflexivity].
  unfold run_handler.
  rewrite (getUserData_existing now jid (refreshed now jid e w)
             (set_stored_adventure e (_createDefaultAdventureData now e))
             (_createDefaultAdventureData now e)).
  - reflexivity.
  - unfold refreshed. cbn [mem]. apply lookup_insert_eq.
  - apply stored_adventure_set.
Qed.

Lemma refreshed_lookup (now : Z) (jid : string) (e : Stored) (w : World) :
  mem (refreshed now jid e w) !! JS.before_at jid
  = Some (set_stored_adventure e (_createDefaultAdventureData now e)).
Proof. unfold refreshed. cbn [mem]. apply lookup_insert_eq. Qed.

(** No cooldown message for a record without a profile: the default
    profile has its four timestamps at [0]. *)
Lemma fresh_not_cooling (cat : Catalog) (now : Z) (jid : string) (w : World)
    (e : Stored) :
  mem w !! JS.before_at jid = Some e -> stored_adventure e = None ->
  0 <= now ->
  is_cooldown_msg (message (result (hunt cat now jid w))) = false
  /\ is_cooldown_msg (message (result (train now jid w))) = false
  /\ is_cooldown_msg (message (result (claimDaily now jid w))) = false.
Proof.
  intros He Ha Hnow.
  pose proof (refreshed_lookup now jid e w) as He1.
  pose proof (stored_adventure_set e (_createDefaultAdventureData now e)) as Ha1.
  pose proof (getUserData_existing now jid _ _ _ He1 Ha1) as Hg.
  unfold hunt, train, claimDaily.
  rewrite !(run_handler_fresh now jid _ _ w e He Ha).
  destruct (flush_ok w (fpos w)); [| repeat split].
  split; [| split].
  - apply (run_handler_ready now jid _ _ _ _ Hg); [reflexivity |].
    intros r s' Hb. eapply hunt_body_ready; [| exact Hb]. exact Hnow.
  - apply (run_handler_ready now jid _ _ _ _ Hg); [reflexivity |].
    intros r s' Hb. eapply train_body_ready; [| exact Hb]. exact Hnow.
  - apply (run_handler_ready now jid _ _ _ _ Hg); [reflexivity |].
    intros r s' Hb. eapply claimDaily_body_ready; [| exact Hb]. exact Hnow.
Qed.

(** Training and the daily claim on a record without a profile are
    taken when the two saves succeed: the one of the default profile and
    the one of the write-back. *)
Lemma fresh_taken (now : Z) (jid : string) (w : World) (e : Stored) :
  mem w !! JS.before_at jid = Some e -> stored_adventure e = None ->
  0 <= now ->
  flush_ok w (fpos w) = true -> flush_ok w (S (fpos w)) = true ->
  success (result (train now jid w)) = true
  /\ success (result (claimDaily now jid w)) = true.
Proof.
  intros He Ha Hnow Hf1 Hf2.
  pose proof (refreshed_lookup now jid e w) as He1.
  pose proof (stored_adventure_set e (_createDefaultAdventureData now e)) as Ha1.
  unfold train, claimDaily.
  rewrite !(run_handler_fresh now jid _ _ w e He Ha), Hf1.
  fold (train now jid (refreshed now jid e w)).
  fold (claimDaily now jid (refreshed now jid e w)).
  assert (Hf : flush_ok (refreshed now jid e w) (fpos (refreshed now jid e w))
               = true) by exact Hf2.
  split.
  - destruct (train_run now jid _ _ _ He1 Ha1 Hnow) as (_ & _ & _ & ->).
    cbn [result]. now rewrite Hf.
  - rewrite (claimDaily_run now jid _ _ _ He1 Ha1 Hnow).
    cbn [result]. now rewrite Hf.
Qed.


Lemma Qltb_false_le (a b : Q) : JS.Qltb a b = false <-> (b <= a)%Q.
Proof.
  unfold JS.Qltb. rewrite negb_false_iff. apply Qle_bool_iff.
Qed.

(** A hunt whose encounter roll is 0.9 or more finds nothing: thirty
    seconds of cooldown on the profile, which is handed to
    [updateUserData] as it is. *)
Lemma hunt_nothing_run (cat : Catalog) (now : Z) (jid : string) (w : World)
    (e : Stored) (a : Adventure) (location : Location) :
  mem w !! JS.before_at jid = Some e -> stored_adventure e = Some a ->
  cd_hunt (cooldowns a) <= now ->
  JS.map_get (locations cat)
    (if JS.truthy_str (adv_location a) then adv_location a else "forest")
  = Some location ->
  location_safeZone location = false ->
  (9 # 10 <= draw_val (rnd w (rpos w)))%Q ->
  hunt cat now jid w
  = mkRun (if flush_ok w (fpos w)
           then ok (MsgNothingFound (location_name location))
           else failure MsgHuntError)
          (Some (set_cd_hunt (now + 30000) a))
          (written_bare jid (set_cd_hunt (now + 30000) a)
             (mkWorld (mem w) (disk w) (xpCooldowns w) (rnd w) (S (rpos w))
                      (flush_ok w) (fpos w))).
Proof.
  intros He Ha Hcd Hloc Hsafe Hroll.
  assert (H9 : JS.Qltb (draw_val (rnd w (rpos w))) (9 # 10) = false)
    by (now apply Qltb_false_le).
  assert (H7 : JS.Qltb (draw_val (rnd w (rpos w))) (7 # 10) = false).
  { apply Qltb_false_le. eapply Qle_trans; [| exact Hroll]. discriminate. }
  unfold hunt, run_handler.
  rewrite (getUserData_existing now jid w e a He Ha).
  unfold hunt_body. unfold bind at 1. unfold get_obj at 1. cbn [fst snd].
  destruct (Z.ltb_spec now (cd_hunt (cooldowns a))); [lia|].
  rewrite Hloc, Hsafe.
  unfold bind at 1. unfold liftW at 1, random at 1. cbn [fst snd].
  rewrite H7, H9.
  unfold bind at 1. unfold modify_obj at 1. cbn [fst snd].
  unfold bind at 1. rewrite write_back_bare_run.
  unfold written_bare. cbn [mem disk xpCooldowns rnd rpos flush_ok fpos].
  destruct (flush_ok w (fpos w)); reflexivity.
Qed.

(** A hunt whose encounter roll is between 0.7 and 0.9 looks for a
    treasure: what [_findTreasure] left on the profile, with the hunt
    cooldown, is handed to [updateUserData] as it is. *)
Lemma hunt_treasure_run (cat : Catalog) (now : Z) (jid : string) (w : World)
    (e : Stored) (a : Adventure) (location : Location)
    (r : Result) (a' : Adventure) (w' : World) :
  mem w !! JS.before_at jid = Some e -> stored_adventure e = Some a ->
  cd_hunt (cooldowns a) <= now ->
  JS.map_get (locations cat)
    (if JS.truthy_str (adv_location a) then adv_location a else "forest")
  = Some location ->
  location_safeZone location = false ->
  (7 # 10 <= draw_val (rnd w (rpos w)))%Q ->
  JS.Qltb (draw_val (rnd w (rpos w))) (9 # 10) = true ->
  _findTreasure cat location
    (a, mkWorld (mem w) (disk w) (xpCooldowns w) (rnd w) (S (rpos w))
                (flush_ok w) (fpos w)) = (Ret r, (a', w')) ->
  hunt cat now jid w
  = mkRun (if flush_ok w' (fpos w') then r else failure MsgHuntError)
          (Some (set_cd_hunt (now + COOLDOWN_HUNT) a'))
          (written_bare jid (set_cd_hunt (now + COOLDOWN_HUNT) a') w').
Proof.
  intros He Ha Hcd Hloc Hsafe H7 H9 Hfind.
  apply Qltb_false_le in H7.
  unfold hunt, run_handler.
  rewrite (getUserData_existing now jid w e a He Ha).
  unfold hunt_body. unfold bind at 1. unfold get_obj at 1. cbn [fst snd].
  destruct (Z.ltb_spec now (cd_hunt (cooldowns a))); [lia|].
  rewrite Hloc, Hsafe.
  unfold bind at 1. unfold liftW at 1, random at 1. cbn [fst snd].
  rewrite H7, H9.
  unfold bind at 1. rewrite Hfind.
  unfold bind at 1. unfold modify_obj at 1. cbn [fst snd].
  unfold bind at 1. rewrite write_back_bare_run.
  unfold written_bare. cbn [mem disk xpCooldowns rnd rpos flush_ok fpos].
  destruct (flush_ok w' (fpos w')); reflexivity.
Qed.

(** [equipItem] on a record without a profile: the default profile
    holds nothing. *)
Lemma fresh_holds_nothing (cat : Catalog) (now : Z) (jid itemId : string)
    (w : World) (e : Stored) :
  mem w !! JS.before_at jid = Some e -> stored_adventure e = None ->
  equipItem cat now jid itemId w
  = if flush_ok w (fpos w)
    then mkRun (failure MsgNotInInventory)
               (Some (_createDefaultAdventureData now e))
               (refreshed now jid e w)
    else mkRun (failure MsgEquipError) None (refreshed now jid e w).
Proof.
  intros He Ha. unfold equipItem.
  rewrite (run_handler_fresh now jid _ _ w e He Ha).
  destruct (flush_ok w (fpos w)); [| reflexivity].
  unfold run_handler.
  rewrite (getUserData_existing now jid _ _ _ (refreshed_lookup now jid e w)
             (stored_adventure_set _ _)).
  reflexivity.
Qed.


(** C5.  While the record of a user holds their profile, [hunt],
    [train] and [claimDaily] are gated as claimed: each looks at the
    timestamp of its own track only, answers with the cooldown message
    and changes nothing while that timestamp is in the future, and never
    answers with a cooldown message from the timestamp on.  But the
    timestamps do not stay in reach.  A hunt that finds nothing is a
    success that sets thirty seconds of cooldown on the profile and hands
    the profile itself to [updateUserData]; a purchase hands over the
    profile with the timestamps of an earlier training or daily claim.
    The record is then a profile without an [adventure] field, and on
    such a record no command is refused for a cooldown: the next hunt,
    training or daily claim, at any time from the epoch on, runs on a
    default profile whose timestamps are [0], and training and the daily
    claim are taken again when the saves succeed. *)
Theorem cooldown_gating (cat : Catalog) (now : Z) (jid : string) (w : World)
    (e : Stored) (a : Adventure) :
  mem w !! JS.before_at jid = Some e -> stored_adventure e = Some a ->
  let forgets (w1 : World) : Prop :=
    forall now2,
      0 <= now2 ->
      is_cooldown_msg (message (result (hunt cat now2 jid w1))) = false
      /\ is_cooldown_msg (message (result (train now2 jid w1))) = false
      /\ is_cooldown_msg (message (result (claimDaily now2 jid w1))) = false
      /\ (flush_ok w1 (fpos w1) = true -> flush_ok w1 (S (fpos w1)) = true ->
          success (result (train now2 jid w1)) = true
          /\ success (result (claimDaily now2 jid w1)) = true) in
  (now < cd_hunt (cooldowns a) ->
   hunt cat now jid w
   = mkRun (failure (MsgHuntCooldown
                       (JS.ceil_div (cd_hunt (cooldowns a) - now) 1000)))
           (Some a) w)
  /\ (now < cd_train (cooldowns a) ->
      train now jid w
      = mkRun (failure (MsgTrainCooldown
                 (JS.ceil_div (cd_train (cooldowns a) - now) 1000 / 60)
                 (JS.ceil_div (cd_train (cooldowns a) - now) 1000 mod 60)))
              (Some a) w)
  /\ (now < cd_daily (cooldowns a) ->
      claimDaily now jid w
      = mkRun (failure (MsgDailyCooldown
                 (JS.ceil_div (cd_daily (cooldowns a) - now) 1000 / 3600)
                 (JS.ceil_div (cd_daily (cooldowns a) - now) 1000 mod 3600 / 60)))
              (Some a) w)
  /\ is_cooldown_msg (message (result (hunt cat now jid w)))
     = (now <? cd_hunt (cooldowns a))
  /\ is_cooldown_msg (message (result (train now jid w)))
     = (now <? cd_train (cooldowns a))
  /\ is_cooldown_msg (message (result (claimDaily now jid w)))
     = (now <? cd_daily (cooldowns a))
  /\ (forall w1 e1,
        mem w1 !! JS.before_at jid = Some e1 -> stored_adventure e1 = None ->
        forgets w1)
  /\ (forall location,
        cd_hunt (cooldowns a) <= now ->
        JS.map_get (locations cat)
          (if JS.truthy_str (adv_location a) then adv_location a else "forest")
        = Some location ->
        location_safeZone location = false ->
        (9 # 10 <= draw_val (rnd w (rpos w)))%Q ->
        flush_ok w (fpos w) = true ->
        let run := hunt cat now jid w in
        result run = ok (MsgNothingFound (location_name location))
        /\ option_map (fun a' => cd_hunt (cooldowns a')) (object run)
           = Some (now + 30000)
        /\ forgets (world run))
  /\ (forall itemId item,
        JS.map_get (items cat) itemId = Some item ->
        (forall r, item_required_level item = Some r -> r <= adv_level a) ->
        item_value item <= gold (inventory a) ->
        flush_ok w (fpos w) = true ->
        let run := buyItem cat now jid itemId w in
        success (result run) = true
        /\ option_map cooldowns (object run) = Some (cooldowns a)
        /\ forgets (world run)).
Proof.
  intros He Ha forgets.
  destruct (gating_on_profile cat now jid w e a He Ha)
    as (H1 & H2 & H3 & H4 & H5 & H6).
  split; [exact H1 |]. split; [exact H2 |]. split; [exact H3 |].
  split; [exact H4 |]. split; [exact H5 |]. split; [exact H6 |].
  assert (Hforgets : forall w1 e1,
            mem w1 !! JS.before_at jid = Some e1 -> stored_adventure e1 = None ->
            forgets w1).
  { intros w1 e1 He1 Ha1 now2 Hnow2.
    destruct (fresh_not_cooling cat now2 jid w1 e1 He1 Ha1 Hnow2)
      as (Hh & Ht & Hd).
    split; [exact Hh |]. split; [exact Ht |]. split; [exact Hd |].
    intros Hf1 Hf2. exact (fresh_taken now2 jid w1 e1 He1 Ha1 Hnow2 Hf1 Hf2). }
  split; [exact Hforgets |]. split.
  - intros location Hcd Hloc Hsafe Hroll Hfl run. unfold run.
    rewrite (hunt_nothing_run cat now jid w e a location He Ha Hcd Hloc Hsafe
               Hroll), Hfl.
    cbn [result object world option_map].
    split; [reflexivity |]. split; [reflexivity |].
    eapply Hforgets;
      [unfold written_bare; cbn [mem]; apply lookup_insert_eq | reflexivity].
  - intros itemId item Hi Hreq Hg Hfl run. unfold run.
    rewrite (buyItem_run cat now jid itemId w e a He Ha), Hi.
    assert (Hgate : JS.truthy_onum (item_required_level item)
                    && (adv_level a <? default 0 (item_required_level item))
                    = false).
    { destruct (item_required_level item) as [r |]; [| reflexivity].
      cbn [default]. apply andb_false_iff. right.
      apply Z.ltb_ge. now apply Hreq. }
    assert (Hgold : (gold (inventory a) <? item_value item) = false)
      by (apply Z.ltb_ge; lia).
    rewrite Hgate, Hgold, Hfl. cbn [result object world option_map success ok].
    split; [reflexivity |]. split; [reflexivity |].
    eapply Hforgets;
      [unfold written_bare; cbn [mem]; apply lookup_insert_eq | reflexivity].
Qed.

(** C7.  A user holds [B], an item of an equipment type, and the slot of
    that type holds another item [A].  On the profile in hand
    [equipItem] makes the swap as claimed: [B] in the slot, the other
    slots as they were, one [B] less and one [A] more in the inventory,
    every other item, gold, stats and level untouched; the answer is the
    success message when the flush succeeds.  But that profile is handed
    to [updateUserData] as it is and takes the place of the user's
    record.  The next command finds no [adventure] field there and goes
    on with a default profile, nothing worn and nothing held: the item
    put back and the item equipped are both out of reach, and equipping
    either is refused as not in the inventory. *)
Theorem equip_swap (cat : Catalog) (now : Z) (jid B A : string) (w : World)
    (e : Stored) (a : Adventure) (it : InvItem) (item : Item) :
  mem w !! JS.before_at jid = Some e -> stored_adventure e = Some a ->
  inv_find (inv_items (inventory a)) B = Some it -> 1 <= quantity it ->
  JS.map_get (items cat) B = Some item ->
  equipable (item_type item) = true ->
  get_slot (equipment a) (item_type item) = Some A ->
  A <> B -> A <> "" ->
  let run := equipItem cat now jid B w in
  exists a',
    object run = Some a'
    /\ (flush_ok w (fpos w) = true ->
        success (result run) = true
        /\ message (result run) = MsgEquipped (item_name item))
    /\ get_slot (equipment a') (item_type item) = Some B
    /\ (forall t, t <> item_type item ->
          get_slot (equipment a') t = get_slot (equipment a) t)
    /\ held (inv_items (inventory a')) B = held (inv_items (inventory a)) B - 1
    /\ held (inv_items (inventory a')) A = held (inv_items (inventory a)) A + 1
    /\ (forall id, id <> A -> id <> B ->
          held (inv_items (inventory a')) id = held (inv_items (inventory a)) id)
    /\ gold (inventory a') = gold (inventory a)
    /\ stats a' = stats a /\ adv_level a' = adv_level a
    /\ forall now2,
         flush_ok (world run) (fpos (world run)) = true ->
         exists fresh w2,
           getUserData now2 jid (world run) = (Ret fresh, w2)
           /\ equipment fresh = mkEquipment None None None
           /\ inventory fresh = mkInventory 100 []
           /\ owned fresh A = 0 /\ owned fresh B = 0
           /\ result (equipItem cat now2 jid A (world run))
              = failure MsgNotInInventory
           /\ result (equipItem cat now2 jid B (world run))
              = failure MsgNotInInventory.
Proof.
  intros He Ha Hf Hq Hi Ht Hs HAB HA run. unfold run.
  rewrite (equipItem_run cat now jid B w e a it item He Ha Hf Hq Hi Ht).
  exists (equipped a (item_type item) B). cbn [object world result].
  destruct (equipment_equipped a (item_type item) B) as (Heq & Hg & Hst & Hl & _).
  split; [reflexivity |].
  split; [intros ->; split; reflexivity |].
  split; [rewrite Heq; now apply get_set_slot |].
  split; [intros t Hne; rewrite Heq; now apply get_set_slot_other |].
  assert (Hheld : forall id,
            held (inv_items (inventory (equipped a (item_type item) B))) id
            = held (inv_items (inventory a)) id
              - (if String.eqb B id then 1 else 0)
              + (if String.eqb A id then 1 else 0)).
  { intros id. unfold equipped. rewrite Hs, (truthy_str_nonempty A HA).
    unfold _addItemToInventory, _removeItemFromInventory, with_items,
      with_inventory, with_equipment.
    cbn [inventory inv_items gold].
    destruct (held_remove_item _ B it Hf Hq) as (l' & -> & Hl').
    cbn [inventory inv_items gold]. rewrite held_add_item, Hl'. reflexivity. }
  assert (EAB : String.eqb A B = false) by (now apply String.eqb_neq).
  assert (EBA : String.eqb B A = false) by (apply String.eqb_neq; congruence).
  split; [rewrite Hheld, String.eqb_refl, EAB; lia |].
  split; [rewrite Hheld, String.eqb_refl, EBA; lia |].
  split.
  { intros id HnA HnB. rewrite Hheld.
    assert (E1 : String.eqb B id = false) by (apply String.eqb_neq; congruence).
    assert (E2 : String.eqb A id = false) by (apply String.eqb_neq; congruence).
    rewrite E1, E2. lia. }
  split; [exact Hg |]. split; [exact Hst |]. split; [exact Hl |].
  intros now2 Hfl2.
  set (a' := equipped a (item_type item) B) in *.
  assert (Hb : mem (written_bare jid a' w) !! JS.before_at jid = Some (bare a'))
    by (unfold written_bare; cbn [mem]; apply lookup_insert_eq).
  exists (_createDefaultAdventureData now2 (bare a')),
         (refreshed now2 jid (bare a') (written_bare jid a' w)).
  split.
  { rewrite (getUserData_fresh now2 jid _ (bare a') Hb eq_refl).
    now rewrite Hfl2. }
  split; [reflexivity |]. split; [reflexivity |].
  split; [reflexivity |]. split; [reflexivity |].
  rewrite !(fresh_holds_nothing cat now2 jid _ _ (bare a') Hb eq_refl), Hfl2.
  split; reflexivity.
Qed.

(** C8.  For a user with a profile, [buyItem] fails and leaves the
    profile and the world as they were when the item id is unknown, when
    the item has a required level above the user's level, or when the
    user's gold is below the item's value; a level-3 user who asks for
    the Battle Axe (required level 5) gets a failure and nothing
    changes.  Otherwise exactly [item.value] gold is taken from the
    profile in hand and exactly one unit of the item is added to it, the
    rest of it untouched, and the answer is the purchase message when
    the flush succeeds.  But that profile is handed to [updateUserData]
    as it is and takes the place of the user's record: the next command
    finds no [adventure] field, goes on with a default profile of 100
    gold and no item, and equipping the item bought is refused as not in
    the inventory. *)
Theorem buyItem_spec (cat : Catalog) (now : Z) (jid itemId : string)
    (w : World) (e : Stored) (a : Adventure) :
  mem w !! JS.before_at jid = Some e -> stored_adventure e = Some a ->
  let run := buyItem cat now jid itemId w in
  (JS.map_get (items cat) itemId = None ->
   run = mkRun (failure MsgItemNotFound) (Some a) w)
  /\ (forall item r,
        JS.map_get (items cat) itemId = Some item ->
        item_required_level item = Some r -> 0 <= adv_level a ->
        adv_level a < r ->
        run = mkRun (failure (MsgLevelTooLow r (adv_level a))) (Some a) w)
  /\ (forall item,
        JS.map_get (items cat) itemId = Some item ->
        gold (inventory a) < item_value item ->
        success (result run) = false /\ object run = Some a /\ world run = w)
  /\ (JS.map_get (items cat) itemId = Some Sample.axe_1 -> adv_level a = 3 ->
      success (result run) = false /\ object run = Some a /\ world run = w)
  /\ (forall item,
        JS.map_get (items cat) itemId = Some item ->
        (forall r, item_required_level item = Some r -> r <= adv_level a) ->
        item_value item <= gold (inventory a) ->
        exists a',
          object run = Some a'
          /\ (flush_ok w (fpos w) = true ->
              result run
              = ok (MsgPurchased (item_name item) (item_value item)
                                 (String.eqb (item_type item) "consumable")))
          /\ gold (inventory a') = gold (inventory a) - item_value item
          /\ held (inv_items (inventory a')) itemId
             = held (inv_items (inventory a)) itemId + 1
          /\ (forall id, id <> itemId ->
                held (inv_items (inventory a')) id
                = held (inv_items (inventory a)) id)
          /\ stats a' = stats a /\ adv_level a' = adv_level a
          /\ adv_xp a' = adv_xp a /\ equipment a' = equipment a
          /\ cooldowns a' = cooldowns a /\ adv_location a' = adv_location a
          /\ forall now2,
               flush_ok (world run) (fpos (world run)) = true ->
               exists fresh w2,
                 getUserData now2 jid (world run) = (Ret fresh, w2)
                 /\ gold (inventory fresh) = 100
                 /\ inv_items (inventory fresh) = []
                 /\ held (inv_items (inventory fresh)) itemId = 0
                 /\ result (equipItem cat now2 jid itemId (world run))
                    = failure MsgNotInInventory).
Proof.
  intros He Ha run. unfold run. rewrite (buyItem_run cat now jid itemId w e a He Ha).
  assert (Hlow : forall item r,
            JS.map_get (items cat) itemId = Some item ->
            item_required_level item = Some r -> 0 <= adv_level a ->
            adv_level a < r ->
            match JS.map_get (items cat) itemId with
            | None => mkRun (failure MsgItemNotFound) (Some a) w
            | Some item =>
                if JS.truthy_onum (item_required_level item)
                   && (adv_level a <? default 0 (item_required_level item))
                then mkRun (failure (MsgLevelTooLow
                                       (default 0 (item_required_level item))
                                       (adv_level a))) (Some a) w
                else if gold (inventory a) <? item_value item
                then mkRun (failure (MsgNotEnoughGold (item_value item))) (Some a) w
                else mkRun (if flush_ok w (fpos w)
                            then ok (MsgPurchased (item_name item) (item_value item)
                                       (String.eqb (item_type item) "consumable"))
                            else failure MsgBuyError)
                           (Some (purchased a itemId item))
                           (written_bare jid (purchased a itemId item) w)
            end = mkRun (failure (MsgLevelTooLow r (adv_level a))) (Some a) w).
  { intros item r Hi Hr H0 Hl. rewrite Hi.
    rewrite (level_gate _ r (adv_level a) Hr ltac:(lia) Hl). now rewrite Hr. }
  split; [intros ->; reflexivity |].
  split; [exact Hlow |].
  split.
  { intros item Hi Hg. rewrite Hi.
    destruct (JS.truthy_onum _ && _); [repeat split |].
    apply Z.ltb_lt in Hg. rewrite Hg. repeat split. }
  split.
  { intros Hi Hl.
    rewrite (Hlow Sample.axe_1 5 Hi eq_refl ltac:(lia) ltac:(lia)).
    repeat split. }
  intros item Hi Hreq Hg. rewrite Hi.
  assert (Hgate : JS.truthy_onum (item_required_level item)
                  && (adv_level a <? default 0 (item_required_level item))
                  = false).
  { destruct (item_required_level item) as [r |]; [| reflexivity].
    cbn [default]. apply andb_false_iff. right.
    apply Z.ltb_ge. now apply Hreq. }
  rewrite Hgate.
  assert (Hgold : (gold (inventory a) <? item_value item) = false)
    by (apply Z.ltb_ge; lia).
  rewrite Hgold. exists (purchased a itemId item). cbn [object world result].
  split; [reflexivity |].
  split; [intros ->; reflexivity |].
  split; [unfold purchased, _addItemToInventory, add_gold, with_items,
            with_inventory; cbn [inventory gold]; lia |].
  split.
  { unfold purchased, _addItemToInventory, add_gold, with_items, with_inventory.
    cbn [inventory inv_items]. rewrite held_add_item, String.eqb_refl. lia. }
  split.
  { intros id Hne.
    unfold purchased, _addItemToInventory, add_gold, with_items, with_inventory.
    cbn [inventory inv_items]. rewrite held_add_item.
    assert (E : String.eqb itemId id = false) by (apply String.eqb_neq; congruence).
    rewrite E. lia. }
  split; [reflexivity |]. split; [reflexivity |]. split; [reflexivity |].
  split; [reflexivity |]. split; [reflexivity |]. split; [reflexivity |].
  intros now2 Hfl2.
  set (a' := purchased a itemId item) in *.
  assert (Hb : mem (written_bare jid a' w) !! JS.before_at jid = Some (bare a'))
    by (unfold written_bare; cbn [mem]; apply lookup_insert_eq).
  exists (_createDefaultAdventureData now2 (bare a')),
         (refreshed now2 jid (bare a') (written_bare jid a' w)).
  split.
  { rewrite (getUserData_fresh now2 jid _ (bare a') Hb eq_refl).
    now rewrite Hfl2. }
  split; [reflexivity |]. split; [reflexivity |]. split; [reflexivity |].
  now rewrite (fresh_holds_nothing cat now2 jid _ _ (bare a') Hb eq_refl), Hfl2.
Qed.


(** When an item of the catalog drops, the victory handler does not
    return: it raises the [ReferenceError] where the item was to be
    added, and the inventory is as it was. *)
Lemma handleCombatVictory_drop_throws (cat : Catalog) (m : Monster)
    (a : Adventure) (w : World) (d : string) (itemData : Item) :
  JS.Qltb (draw_val (rnd w (S (rpos w)))) (monster_dropChance m) = true ->
  JS.index (monster_possibleDrops m)
    (JS.floor_mul (draw_val (rnd w (S (S (rpos w)))))
       (Z.of_nat (length (monster_possibleDrops m)))) = Some d ->
  JS.map_get (items cat) d = Some itemData ->
  fst (_handleCombatVictory cat m (a, w)) = Throw ReferenceError
  /\ inv_items (inventory (fst (snd (_handleCombatVictory cat m (a, w)))))
     = inv_items (inventory a).
Proof.
  intros Hdrop Hidx Hitem.
  assert (Hlen : (0 <? Z.of_nat (length (monster_possibleDrops m))) = true).
  { destruct (monster_possibleDrops m); [| reflexivity].
    unfold JS.index in Hidx. destruct (_ <? 0); [discriminate |].
    now destruct (Z.to_nat _). }
  unfold _handleCombatVictory, bind, liftW, random, modify_obj, addXP_obj,
    get_obj, ret, throw.
  cbn [fst snd mem disk xpCooldowns rnd rpos flush_ok fpos].
  match goal with
  | |- context [_addXP ?b ?x] =>
      destruct (addXP_keeps b x) as (Hinv & _);
      destruct (_addXP b x) as [a2 info] eqn:E
  end.
  cbn [fst snd mem disk xpCooldowns rnd rpos flush_ok fpos] in *.
  rewrite Hdrop, Hlen. cbn [andb fst snd rnd rpos].
  rewrite Hidx, Hitem. cbn [fst snd].
  split; [reflexivity |].
  unfold with_monstersDefeated. cbn [inventory]. now rewrite Hinv.
Qed.

(** C10.  [equipItem] reads no level: for a user whose profile holds an
    item of an equipment type, the item goes into its slot and the
    answer is the success message (when the flush succeeds), also when
    the level is strictly below the item's required level, where
    [buyItem] refuses the same item; [travel] refuses a location whose
    minimum level is above the user's.  But the items of a treasure and
    the drops of a monster do not get that far.  An item found in a
    treasure is added to the profile in hand, which the hunt then hands
    to [updateUserData] as it is: the next command goes on with a
    default profile, and equipping the item found is refused as not in
    the inventory.  When a monster drops an item of the catalog, the
    victory handler raises a [ReferenceError] where the item was to be
    added: the inventory is as it was. *)
Theorem equip_ignores_required_level (cat : Catalog) (now : Z)
    (jid : string) (w : World) (e : Stored) (a : Adventure) :
  mem w !! JS.before_at jid = Some e -> stored_adventure e = Some a ->
  (forall itemId it item r,
     inv_find (inv_items (inventory a)) itemId = Some it -> 1 <= quantity it ->
     JS.map_get (items cat) itemId = Some item ->
     equipable (item_type item) = true ->
     item_required_level item = Some r -> 0 <= adv_level a < r ->
     (exists a',
        object (equipItem cat now jid itemId w) = Some a'
        /\ get_slot (equipment a') (item_type item) = Some itemId
        /\ adv_level a' = adv_level a
        /\ (flush_ok w (fpos w) = true ->
            result (equipItem cat now jid itemId w)
            = mkResult true (MsgEquipped (item_name item)) None None None None
                       (Some (item_type item)) false))
     /\ buyItem cat now jid itemId w
        = mkRun (failure (MsgLevelTooLow r (adv_level a))) (Some a) w)
  /\ (forall locationId location m,
        JS.map_get (locations cat) locationId = Some location ->
        location_minLevel location = Some m -> 0 <= adv_level a < m ->
        travel cat now jid locationId w
        = mkRun (failure (MsgTravelLevel m (location_name location)
                                        (adv_level a))) (Some a) w)
  /\ (forall location,
        cd_hunt (cooldowns a) <= now ->
        JS.map_get (locations cat)
          (if JS.truthy_str (adv_location a) then adv_location a else "forest")
        = Some location ->
        location_safeZone location = false ->
        (7 # 10 <= draw_val (rnd w (rpos w)))%Q ->
        JS.Qltb (draw_val (rnd w (rpos w))) (9 # 10) = true ->
        let run := hunt cat now jid w in
        exists a' g found,
          object run = Some a'
          /\ (flush_ok w (fpos w) = true ->
              success (result run) = true
              /\ rewards (result run) = Some (mkRewards (Some g) None found))
          /\ forall id,
               found = Some id ->
               (exists item, In (id, item) (items cat))
               /\ held (inv_items (inventory a')) id
                  = held (inv_items (inventory a)) id + 1
               /\ forall now2,
                    flush_ok (world run) (fpos (world run)) = true ->
                    result (equipItem cat now2 jid id (world run))
                    = failure MsgNotInInventory)
  /\ (forall m w0 d itemData,
        JS.Qltb (draw_val (rnd w0 (S (rpos w0)))) (monster_dropChance m) = true ->
        JS.index (monster_possibleDrops m)
          (JS.floor_mul (draw_val (rnd w0 (S (S (rpos w0)))))
             (Z.of_nat (length (monster_possibleDrops m)))) = Some d ->
        JS.map_get (items cat) d = Some itemData ->
        fst (_handleCombatVictory cat m (a, w0)) = Throw ReferenceError
        /\ inv_items (inventory (fst (snd (_handleCombatVictory cat m (a, w0)))))
           = inv_items (inventory a)).
Proof.
  intros He Ha.
  split; [| split; [| split]].
  - intros itemId it item r Hf Hq Hi Ht Hr Hl. split.
    + rewrite (equipItem_run cat now jid itemId w e a it item He Ha Hf Hq Hi Ht).
      exists (equipped a (item_type item) itemId). cbn [object world result].
      destruct (equipment_equipped a (item_type item) itemId)
        as (Heq & _ & _ & Hlv & _).
      split; [reflexivity |].
      split; [rewrite Heq; now apply get_set_slot |].
      split; [exact Hlv |].
      intros ->. reflexivity.
    + rewrite (buyItem_run cat now jid itemId w e a He Ha), Hi.
      rewrite (level_gate _ r (adv_level a) Hr ltac:(lia) ltac:(lia)).
      now rewrite Hr.
  - intros locationId location m Hloc Hm Hlt.
    rewrite (travel_run cat now jid locationId w e a He Ha), Hloc.
    rewrite (level_gate _ m (adv_level a) Hm ltac:(lia) ltac:(lia)).
    now rewrite Hm.
  - intros location Hcd Hloc Hsafe H7 H9 run.
    destruct (findTreasure_run cat location a
                (mkWorld (mem w) (disk w) (xpCooldowns w) (rnd w) (S (rpos w))
                         (flush_ok w) (fpos w)))
      as (r & a' & w' & g & found & Hrun & Hsucc & Hrew & _ & _ & _ & Hfound
          & _ & _ & _ & _ & _ & _ & _ & Hfpos & _ & Hflush & _).
    cbn [flush_ok fpos] in Hfpos, Hflush.
    unfold run.
    rewrite (hunt_treasure_run cat now jid w e a location r a' w' He Ha Hcd
               Hloc Hsafe H7 H9 Hrun).
    rewrite Hflush, Hfpos. cbn [object world result].
    exists (set_cd_hunt (now + COOLDOWN_HUNT) a'), g, found.
    split; [reflexivity |].
    split; [intros ->; split; assumption |].
    intros id Hid. subst found. destruct Hfound as ((item & Hin & _) & Hheld).
    split; [now exists item |].
    split.
    { change (inventory (set_cd_hunt (now + COOLDOWN_HUNT) a'))
        with (inventory a').
      rewrite Hheld, String.eqb_refl. reflexivity. }
    intros now2 Hfl2.
    rewrite (fresh_holds_nothing cat now2 jid id _
               (bare (set_cd_hunt (now + COOLDOWN_HUNT) a')));
      [now rewrite Hfl2 | | reflexivity].
    unfold written_bare. cbn [mem]. apply lookup_insert_eq.
  - intros m w0 d itemData Hdrop Hidx Hitem.
    exact (handleCombatVictory_drop_throws cat m a w0 d itemData Hdrop Hidx Hitem).
Qed.

End InPlace.

Section InPlaceExamples.

Import AdventureManager.

#[local] Existing Instance sample_engine.

(** Alice trained and claimed at 5000 ms; her timestamps stand at 30
    minutes and 24 hours.  At 65000 ms training is refused with 29
    minutes left.  She buys a wooden sword at 6000 ms: at 65000 ms
    training and the daily claim are both taken.  A hunt at 5000 ms with
    an encounter roll of 0.9 finds nothing; the hunt a millisecond later
    is not refused for the cooldown: it is answered from the town of a
    default profile. *)
Lemma cooldown_gating_witness :
  let a := Sample.profile 1 0 100 [] Sample.no_equipment
                          (mkCooldowns 0 1805000 86405000 0) in
  let w := Sample.world_of (Sample.store_with a) [mkDraw 9 0] [] in
  let bought := world (buyItem Sample.catalog 6000 "alice" "sword_1" w) in
  train 65000 "alice" w = mkRun (failure (MsgTrainCooldown 29 0)) (Some a) w
  /\ success (result (train 65000 "alice" bought)) = true
  /\ success (result (claimDaily 65000 "alice" bought)) = true
  /\ is_cooldown_msg
       (message (result (hunt Sample.catalog 5001 "alice"
                           (world (hunt Sample.catalog 5000 "alice" w)))))
     = false
  /\ message (result (hunt Sample.catalog 5001 "alice"
                        (world (hunt Sample.catalog 5000 "alice" w))))
     = MsgSafeZone "Town".
Proof.
  cbn zeta.
  pose proof (fun now =>
    cooldown_gating Sample.catalog now "alice"
      (Sample.world_of
         (Sample.store_with
            (Sample.profile 1 0 100 [] Sample.no_equipment
                            (mkCooldowns 0 1805000 86405000 0)))
         [mkDraw 9 0] [])
      (SUser Sample.alice
         (Some (Sample.profile 1 0 100 [] Sample.no_equipment
                               (mkCooldowns 0 1805000 86405000 0))))
      (Sample.profile 1 0 100 [] Sample.no_equipment
                      (mkCooldowns 0 1805000 86405000 0))
      eq_refl eq_refl) as H.
  cbn zeta in H.
  split; [| split; [| split; [| split]]].
  - destruct (H 65000) as (_ & Ht & _). apply Ht. simpl. lia.
  - destruct (H 6000) as (_ & _ & _ & _ & _ & _ & _ & _ & Hbuy).
    destruct (Hbuy "sword_1" Sample.sword_1 eq_refl
                ltac:(intros r [= <-]; simpl; lia) ltac:(simpl; lia) eq_refl)
      as (_ & _ & Hf).
    destruct (Hf 65000 ltac:(lia)) as (_ & _ & _ & Htaken).
    exact (proj1 (Htaken eq_refl eq_refl)).
  - destruct (H 6000) as (_ & _ & _ & _ & _ & _ & _ & _ & Hbuy).
    destruct (Hbuy "sword_1" Sample.sword_1 eq_refl
                ltac:(intros r [= <-]; simpl; lia) ltac:(simpl; lia) eq_refl)
      as (_ & _ & Hf).
    destruct (Hf 65000 ltac:(lia)) as (_ & _ & _ & Htaken).
    exact (proj2 (Htaken eq_refl eq_refl)).
  - destruct (H 5000) as (_ & _ & _ & _ & _ & _ & _ & Hhunt & _).
    destruct (Hhunt Sample.forest ltac:(simpl; lia) eq_refl eq_refl
                ltac:(vm_compute; discriminate) eq_refl) as (_ & _ & Hf).
    exact (proj1 (Hf 5001 ltac:(lia))).
  - vm_compute. reflexivity.
Defined.

(** The wooden sword is in the weapon slot, one iron sword is held.
    After the swap, the wooden sword cannot be equipped again: the next
    command does not find it. *)
Lemma equip_swap_witness :
  let a := Sample.profile 3 0 144 [mkInvItem "sword_2" 1]
             (mkEquipment (Some "sword_1") None None) Sample.no_cooldowns in
  let run := equipItem Sample.catalog 5000 "alice@s.whatsapp.net" "sword_2"
               (Sample.world_of (Sample.store_with a) [] []) in
  (exists a', object run = Some a'
              /\ get_slot (equipment a') "weapon" = Some "sword_2"
              /\ held (inv_items (inventory a')) "sword_2" = 0
              /\ held (inv_items (inventory a')) "sword_1" = 1)
  /\ result (equipItem Sample.catalog 6000 "alice@s.whatsapp.net" "sword_1"
               (world run))
     = failure MsgNotInInventory.
Proof.
  cbn zeta.
  destruct (equip_swap Sample.catalog 5000 "alice@s.whatsapp.net" "sword_2"
              "sword_1"
              (Sample.world_of
                 (Sample.store_with
                    (Sample.profile 3 0 144 [mkInvItem "sword_2" 1]
                       (mkEquipment (Some "sword_1") None None)
                       Sample.no_cooldowns)) [] [])
              (SUser Sample.alice
                 (Some (Sample.profile 3 0 144 [mkInvItem "sword_2" 1]
                          (mkEquipment (Some "sword_1") None None)
                          Sample.no_cooldowns)))
              (Sample.profile 3 0 144 [mkInvItem "sword_2" 1]
                 (mkEquipment (Some "sword_1") None None) Sample.no_cooldowns)
              (mkInvItem "sword_2" 1) Sample.sword_2
              eq_refl eq_refl eq_refl ltac:(simpl; lia) eq_refl eq_refl eq_refl
              ltac:(discriminate) ltac:(discriminate))
    as (a' & Ho & _ & Hslot & _ & HB & HA & _ & _ & _ & _ & Hnext).
  split; [exists a'; repeat split; assumption |].
  destruct (Hnext 6000 eq_refl) as (fresh & w2 & _ & _ & _ & _ & _ & HrA & _).
  exact HrA.
Defined.

(** A level-3 user is refused the Battle Axe.  Alice buys a wooden
    sword for 50 of her 100 gold; she cannot equip it afterwards. *)
Lemma buyItem_spec_witness :
  let a := Sample.profile 3 0 144 [] Sample.no_equipment Sample.no_cooldowns in
  let w := Sample.world_of (Sample.store_with a) [] [] in
  buyItem Sample.catalog 5000 "alice@s.whatsapp.net" "axe_1" w
  = mkRun (failure (MsgLevelTooLow 5 3)) (Some a) w
  /\ success (result (buyItem Sample.catalog 5000 "alice@s.whatsapp.net"
                        "sword_1" w)) = true
  /\ result (equipItem Sample.catalog 6000 "alice@s.whatsapp.net" "sword_1"
               (world (buyItem Sample.catalog 5000 "alice@s.whatsapp.net"
                         "sword_1" w)))
     = failure MsgNotInInventory.
Proof.
  cbn zeta.
  pose proof (fun itemId =>
    buyItem_spec Sample.catalog 5000 "alice@s.whatsapp.net" itemId
      (Sample.world_of
         (Sample.store_with
            (Sample.profile 3 0 144 [] Sample.no_equipment
                            Sample.no_cooldowns)) [] [])
      (SUser Sample.alice
         (Some (Sample.profile 3 0 144 [] Sample.no_equipment
                               Sample.no_cooldowns)))
      (Sample.profile 3 0 144 [] Sample.no_equipment Sample.no_cooldowns)
      eq_refl eq_refl) as H.
  cbn zeta in H.
  split.
  { destruct (H "axe_1") as (_ & Hlow & _).
    apply (Hlow Sample.axe_1 5 eq_refl eq_refl); simpl; lia. }
  destruct (H "sword_1") as (_ & _ & _ & _ & Hbuy).
  destruct (Hbuy Sample.sword_1 eq_refl ltac:(intros r [= <-]; simpl; lia)
              ltac:(simpl; lia))
    as (a' & _ & Hres & _ & _ & _ & _ & _ & _ & _ & _ & _ & Hnext).
  split; [now rewrite (Hres eq_refl) |].
  destruct (Hnext 6000 eq_refl) as (fresh & w2 & _ & _ & _ & _ & Hr).
  exact Hr.
Defined.

(** A level-1 user whose profile holds an iron sword (required level 3)
    equips it.  At level 5 a hunt with an encounter roll of 0.8 finds a
    treasure with a wooden sword in it: one wooden sword is on the
    profile in hand, and equipping it afterwards is refused. *)
Lemma equip_ignores_required_level_witness :
  let a := Sample.profile 1 0 100 [mkInvItem "sword_2" 1] Sample.no_equipment
                          Sample.no_cooldowns in
  let w := Sample.world_of (Sample.store_with a) [] [] in
  let b := Sample.profile 5 0 207 [] Sample.no_equipment Sample.no_cooldowns in
  let found := hunt Sample.catalog 5000 "alice"
                 (Sample.world_of (Sample.store_with b) [mkDraw 4 0] []) in
  (exists a', object (equipItem Sample.catalog 5000 "alice" "sword_2" w) = Some a'
              /\ get_slot (equipment a') "weapon" = Some "sword_2"
              /\ adv_level a' = 1)
  /\ buyItem Sample.catalog 5000 "alice" "sword_2" w
     = mkRun (failure (MsgLevelTooLow 3 1)) (Some a) w
  /\ message (result found) = MsgTreasure 40 (Some "Wooden Sword")
  /\ option_map (fun a' => inv_items (inventory a')) (object found)
     = Some [mkInvItem "sword_1" 1]
  /\ result (equipItem Sample.catalog 6000 "alice" "sword_1" (world found))
     = failure MsgNotInInventory.
Proof.
  cbn zeta.
  destruct (equip_ignores_required_level Sample.catalog 5000 "alice"
              (Sample.world_of
                 (Sample.store_with
                    (Sample.profile 1 0 100 [mkInvItem "sword_2" 1]
                       Sample.no_equipment Sample.no_cooldowns)) [] [])
              (SUser Sample.alice
                 (Some (Sample.profile 1 0 100 [mkInvItem "sword_2" 1]
                          Sample.no_equipment Sample.no_cooldowns)))
              (Sample.profile 1 0 100 [mkInvItem "sword_2" 1]
                 Sample.no_equipment Sample.no_cooldowns)
              eq_refl eq_refl) as (Hequip & _).
  destruct (Hequip "sword_2" (mkInvItem "sword_2" 1) Sample.sword_2 3
              eq_refl ltac:(simpl; lia) eq_refl eq_refl eq_refl
              ltac:(simpl; lia))
    as ((a' & Ho & Hs & Hl & _) & Hb).
  split; [exists a'; repeat split; assumption |].
  split; [exact Hb |].
  destruct (equip_ignores_required_level Sample.catalog 5000 "alice"
              (Sample.world_of
                 (Sample.store_with
                    (Sample.profile 5 0 207 [] Sample.no_equipment
                                    Sample.no_cooldowns)) [mkDraw 4 0] [])
              (SUser Sample.alice
                 (Some (Sample.profile 5 0 207 [] Sample.no_equipment
                                       Sample.no_cooldowns)))
              (Sample.profile 5 0 207 [] Sample.no_equipment Sample.no_cooldowns)
              eq_refl eq_refl) as (_ & _ & Hhunt & _).
  destruct (Hhunt Sample.forest ltac:(simpl; lia) eq_refl eq_refl
              ltac:(vm_compute; discriminate) eq_refl)
    as (a2 & g & found & _ & Hres & Hfound).
  destruct (Hres eq_refl) as (_ & Hrew).
  assert (found = Some "sword_1") as ->.
  { vm_compute in Hrew. now injection Hrew. }
  destruct (Hfound "sword_1" eq_refl) as (_ & _ & Hnext).
  split; [vm_compute; reflexivity |].
  split; [vm_compute; reflexivity |].
  exact (Hnext 6000 eq_refl).
Defined.

End InPlaceExamples.

(** * Faults: what is caught, and what stays written *)

Section Caught.

Import AdventureManager.

Context {engine : Math.Pow}.

(** [getUserData] for a user the store does not know. *)
Lemma getUserData_newcomer (now : Z) (jid : string) (w : World) :
  mem w !! JS.before_at jid = None ->
  getUserData now jid w
  = (if flush_ok w (fpos w)
     then Ret (_createDefaultAdventureData now (newcomer now jid))
     else Throw IOError,
     refreshed now jid (newcomer now jid) w).
Proof.
  intros He. rewrite (getUserData_new now jid w He). reflexivity.
Qed.

Lemma getUserData_unsettled (now : Z) (jid : string) (w : World) (e0 : Stored) :
  unsettled now jid w e0 ->
  getUserData now jid w
  = (if flush_ok w (fpos w)
     then Ret (_createDefaultAdventureData now e0) else Throw IOError,
     refreshed now jid e0 w).
Proof.
  intros [[He ->] | [He Ha]].
  - now apply getUserData_newcomer.
  - now apply getUserData_fresh.
Qed.

Lemma run_handler_unsettled (now : Z) (jid : string) (body : H Result)
    (err : Result) (w : World) (e0 : Stored) :
  unsettled now jid w e0 ->
  run_handler now jid body err w
  = if flush_ok w (fpos w)
    then run_handler now jid body err (refreshed now jid e0 w)
    else mkRun err None (refreshed now jid e0 w).
Proof.
  intros Hu. unfold run_handler at 1.
  rewrite (getUserData_unsettled now jid w e0 Hu).
  destruct (flush_ok w (fpos w)); [| reflexivity].
  unfold run_handler.
  now rewrite (getUserData_existing now jid _ _ _ (refreshed_lookup now jid e0 w)
                 (stored_adventure_set _ _)).
Qed.

Lemma handlers_run (cat : Catalog) (now : Z) (jid itemId locationId : string)
    (h : World -> Run) (err : Result) :
  In (h, err) (handlers cat now jid itemId locationId) ->
  success err = false /\ exists body, h = run_handler now jid body err.
Proof.
  unfold handlers. cbn [In].
  intros [H | [H | [H | [H | [H | [H | []]]]]]]; injection H as <- <-;
    (split; [reflexivity | eexists; reflexivity]).
Qed.


(** The refusals of [hunt] before the encounter roll. *)
Lemma hunt_refused_run (cat : Catalog) (now : Z) (jid : string) (w : World)
    (e : Stored) (a : Adventure) :
  mem w !! JS.before_at jid = Some e -> stored_adventure e = Some a ->
  cd_hunt (cooldowns a) <= now ->
  (JS.map_get (locations cat)
     (if JS.truthy_str (adv_location a) then adv_location a else "forest")
   = None ->
   hunt cat now jid w = mkRun (failure MsgInvalidLocation) (Some a) w)
  /\ (forall location,
        JS.map_get (locations cat)
          (if JS.truthy_str (adv_location a) then adv_location a else "forest")
        = Some location ->
        location_safeZone location = true ->
        hunt cat now jid w
        = mkRun (failure (MsgSafeZone (location_name location))) (Some a) w).
Proof.
  intros He Ha Hcd.
  split.
  - intros Hl. unfold hunt, run_handler.
    rewrite (getUserData_existing now jid w e a He Ha).
    unfold hunt_body. unfold bind at 1. unfold get_obj at 1. cbn [fst snd].
    destruct (Z.ltb_spec now (cd_hunt (cooldowns a))); [lia|].
    rewrite Hl. reflexivity.
  - intros location Hl Hs. unfold hunt, run_handler.
    rewrite (getUserData_existing now jid w e a He Ha).
    unfold hunt_body. unfold bind at 1. unfold get_obj at 1. cbn [fst snd].
    destruct (Z.ltb_spec now (cd_hunt (cooldowns a))); [lia|].
    rewrite Hl, Hs. reflexivity.
Qed.

(** What [equipItem] refuses, on a user with a profile. *)
Lemma equipItem_refused_run (cat : Catalog) (now : Z) (jid itemId : string)
    (w : World) (e : Stored) (a : Adventure) :
  mem w !! JS.before_at jid = Some e -> stored_adventure e = Some a ->
  let missing :=
    match inv_find (inv_items (inventory a)) itemId with
    | Some it => quantity it <? 1
    | None => true
    end in
  (missing = true ->
   equipItem cat now jid itemId w = mkRun (failure MsgNotInInventory) (Some a) w)
  /\ (missing = false -> JS.map_get (items cat) itemId = None ->
      equipItem cat now jid itemId w
      = mkRun (failure MsgNotInDatabase) (Some a) w)
  /\ (forall item,
        missing = false -> JS.map_get (items cat) itemId = Some item ->
        item_type item <> "consumable" -> equipable (item_type item) = false ->
        equipItem cat now jid itemId w
        = mkRun (failure MsgCannotEquip) (Some a) w).
Proof.
  intros He Ha missing.
  assert (equipItem cat now jid itemId w
          = match equipItem_body cat jid itemId (a, w) with
            | (Ret r, (a', w2)) => mkRun r (Some a') w2
            | (Throw _, (a', w2)) => mkRun (failure MsgEquipError) (Some a') w2
            end) as ->.
  { unfold equipItem, run_handler.
    now rewrite (getUserData_existing now jid w e a He Ha). }
  unfold equipItem_body, bind, get_obj. cbn [fst snd].
  unfold missing.
  destruct (inv_find (inv_items (inventory a)) itemId) as [it|].
  2:{ split; [reflexivity|]. split; [discriminate|]. intros; discriminate. }
  split; [intros ->; reflexivity|]. split.
  - intros -> ->. reflexivity.
  - intros item -> -> Hc Hq. apply String.eqb_neq in Hc. rewrite Hc, Hq.
    reflexivity.
Qed.

Lemma bare_is_not (e : Stored) (a a' : Adventure) :
  stored_adventure e = Some a -> Some (bare a') <> Some e.
Proof. intros Ha [= <-]. discriminate. Qed.

(** C9, amended.  Each of [hunt], [train], [claimDaily], [buyItem],
    [equipItem] and [travel] is its body under one [try]/[catch]: it
    returns the result object of the body, or, when reading the profile
    or the body throws, its own generic failure ([success = false]); no
    exception reaches the caller.  Nothing is rolled back.  Reading the
    profile throws when the store has no profile for the user and the
    save of the default profile fails: the answer is the generic
    failure, and the default profile is in the store's memory all the
    same.  When that save succeeds, the default profile is in memory and
    on disk before the handler runs, whatever the handler then answers.
    For a user whose record holds a profile, when the flush of the
    write-back fails the answer is a failure, the profile in hand
    carries the update, the store's memory holds what was written and
    the disk keeps the old state: so for the daily claim, the training,
    the purchase, the equipped item, the consumable, the new location
    and the hunt that finds a treasure or nothing.  A request that is
    refused before its write-back (a cooldown, an unknown or safe
    location, an unknown item, an item that is not held or cannot be
    equipped, a level or an amount of gold that is too low) leaves the
    profile and the world as they were. *)
Theorem faults_caught_not_rolled_back (cat : Catalog) (now : Z)
    (jid itemId locationId : string) (w : World) :
  let key := JS.before_at jid in
  let all := handlers cat now jid itemId locationId in
  (forall h err,
     In (h, err) all ->
     success err = false /\ exists body, h = run_handler now jid body err)
  /\ (forall body err,
        let run := run_handler now jid body err w in
        (exists a w1 r a' w2,
           getUserData now jid w = (Ret a, w1)
           /\ body (a, w1) = (Ret r, (a', w2)) /\ run = mkRun r (Some a') w2)
        \/ (exists a w1 x a' w2,
              getUserData now jid w = (Ret a, w1)
              /\ body (a, w1) = (Throw x, (a', w2))
              /\ run = mkRun err (Some a') w2)
        \/ (exists x w1,
              getUserData now jid w = (Throw x, w1) /\ run = mkRun err None w1))
  /\ (forall e0,
        unsettled now jid w e0 ->
        let fresh := _createDefaultAdventureData now e0 in
        let w1 := refreshed now jid e0 w in
        mem w1 !! key = Some (set_stored_adventure e0 fresh)
        /\ (flush_ok w (fpos w) = false ->
            disk w1 = disk w
            /\ fst (getUserData now jid w) = Throw IOError
            /\ forall h err, In (h, err) all -> h w = mkRun err None w1)
        /\ (flush_ok w (fpos w) = true ->
            disk w1 = mem w1
            /\ getUserData now jid w = (Ret fresh, w1)
            /\ forall h err, In (h, err) all -> h w = h w1))
  /\ (forall e a,
        mem w !! key = Some e -> stored_adventure e = Some a ->
        let refused (run : Run) : Prop :=
          success (result run) = false /\ object run = Some a /\ world run = w in
        let kept (run : Run) (err : Result) (a' : Adventure) : Prop :=
          result run = err /\ object run = Some a'
          /\ mem (world run) !! key <> Some e /\ disk (world run) = disk w in
        let locationNow :=
          if JS.truthy_str (adv_location a) then adv_location a else "forest" in
        let missing :=
          match inv_find (inv_items (inventory a)) itemId with
          | Some it => quantity it <? 1
          | None => true
          end in
        (* refused before the write-back *)
        (now < cd_hunt (cooldowns a) -> refused (hunt cat now jid w))
        /\ (now < cd_train (cooldowns a) -> refused (train now jid w))
        /\ (now < cd_daily (cooldowns a) -> refused (claimDaily now jid w))
        /\ (cd_hunt (cooldowns a) <= now ->
            JS.map_get (locations cat) locationNow = None ->
            refused (hunt cat now jid w))
        /\ (forall location,
              cd_hunt (cooldowns a) <= now ->
              JS.map_get (locations cat) locationNow = Some location ->
              location_safeZone location = true ->
              refused (hunt cat now jid w))
        /\ (JS.map_get (items cat) itemId = None ->
            refused (buyItem cat now jid itemId w))
        /\ (forall item r,
              JS.map_get (items cat) itemId = Some item ->
              item_required_level item = Some r -> 0 <= adv_level a < r ->
              refused (buyItem cat now jid itemId w))
        /\ (forall item,
              JS.map_get (items cat) itemId = Some item ->
              gold (inventory a) < item_value item ->
              refused (buyItem cat now jid itemId w))
        /\ (missing = true -> refused (equipItem cat now jid itemId w))
        /\ (JS.map_get (items cat) itemId = None ->
            refused (equipItem cat now jid itemId w))
        /\ (forall item,
              JS.map_get (items cat) itemId = Some item ->
              item_type item <> "consumable" ->
              equipable (item_type item) = false ->
              refused (equipItem cat now jid itemId w))
        /\ (JS.map_get (locations cat) locationId = None ->
            refused (travel cat now jid locationId w))
        /\ (forall location m,
              JS.map_get (locations cat) locationId = Some location ->
              location_minLevel location = Some m -> 0 <= adv_level a < m ->
              refused (travel cat now jid locationId w))
        (* the flush of the write-back fails *)
        /\ (flush_ok w (fpos w) = false ->
            (cd_daily (cooldowns a) <= now ->
             result (claimDaily now jid w) = failure MsgDailyError
             /\ object (claimDaily now jid w) = Some (claimed now a)
             /\ mem (world (claimDaily now jid w)) !! key
                = Some (set_stored_adventure e (claimed now a))
             /\ disk (world (claimDaily now jid w)) = disk w)
            /\ (cd_train (cooldowns a) <= now ->
                exists a',
                  result (train now jid w) = failure MsgTrainError
                  /\ object (train now jid w) = Some a'
                  /\ cd_train (cooldowns a') = now + COOLDOWN_TRAIN
                  /\ mem (world (train now jid w)) !! key
                     = Some (set_stored_adventure e a')
                  /\ disk (world (train now jid w)) = disk w)
            /\ (forall item,
                  JS.map_get (items cat) itemId = Some item ->
                  (forall r, item_required_level item = Some r ->
                             r <= adv_level a) ->
                  item_value item <= gold (inventory a) ->
                  kept (buyItem cat now jid itemId w) (failure MsgBuyError)
                       (purchased a itemId item))
            /\ (forall it item,
                  inv_find (inv_items (inventory a)) itemId = Some it ->
                  1 <= quantity it ->
                  JS.map_get (items cat) itemId = Some item ->
                  (equipable (item_type item) = true ->
                   kept (equipItem cat now jid itemId w) (failure MsgEquipError)
                        (equipped a (item_type item) itemId))
                  /\ (item_type item = "consumable" ->
                      kept (equipItem cat now jid itemId w) (failure MsgUseError)
                           (used a itemId item)))
            /\ (forall location,
                  JS.map_get (locations cat) locationId = Some location ->
                  (forall m, location_minLevel location = Some m ->
                             m <= adv_level a) ->
                  kept (travel cat now jid locationId w) (failure MsgTravelError)
                       (with_location a locationId))
            /\ (forall location,
                  cd_hunt (cooldowns a) <= now ->
                  JS.map_get (locations cat) locationNow = Some location ->
                  location_safeZone location = false ->
                  ((9 # 10 <= draw_val (rnd w (rpos w)))%Q ->
                   kept (hunt cat now jid w) (failure MsgHuntError)
                        (set_cd_hunt (now + 30000) a))
                  /\ ((7 # 10 <= draw_val (rnd w (rpos w)))%Q ->
                      JS.Qltb (draw_val (rnd w (rpos w))) (9 # 10) = true ->
                      exists a',
                        kept (hunt cat now jid w) (failure MsgHuntError) a'
                        /\ cd_hunt (cooldowns a') = now + COOLDOWN_HUNT
                        /\ gold (inventory a) < gold (inventory a'))))).
Proof.
  intros key all.
  split; [intros h err Hin; exact (handlers_run _ _ _ _ _ h err Hin) |].
  split; [intros body err; exact (run_handler_cases now jid body err w) |].
  split.
  { intros e0 Hu fresh w1.
    split; [apply refreshed_lookup |].
    split.
    - intros Hfl.
      split; [unfold w1, refreshed; cbn [disk]; now rewrite Hfl |].
      split; [rewrite (getUserData_unsettled now jid w e0 Hu), Hfl; reflexivity |].
      intros h err Hin.
      destruct (handlers_run _ _ _ _ _ h err Hin) as (_ & body & ->).
      now rewrite (run_handler_unsettled now jid body err w e0 Hu), Hfl.
    - intros Hfl.
      split; [unfold w1, refreshed; cbn [disk mem]; now rewrite Hfl |].
      split; [rewrite (getUserData_unsettled now jid w e0 Hu), Hfl; reflexivity |].
      intros h err Hin.
      destruct (handlers_run _ _ _ _ _ h err Hin) as (_ & body & ->).
      now rewrite (run_handler_unsettled now jid body err w e0 Hu), Hfl. }
  intros e a He Ha refused kept locationNow missing.
  destruct (gating_on_profile cat now jid w e a He Ha) as (Gh & Gt & Gd & _).
  pose proof (buyItem_run cat now jid itemId w e a He Ha) as Hbuy.
  pose proof (travel_run cat now jid locationId w e a He Ha) as Htravel.
  destruct (equipItem_refused_run cat now jid itemId w e a He Ha)
    as (Eq1 & Eq2 & Eq3).
  assert (Href : forall r, success r = false -> refused (mkRun r (Some a) w))
    by (intros r Hr; repeat split; exact Hr).
  split; [intros Hc; rewrite (Gh Hc); now apply Href |].
  split; [intros Hc; rewrite (Gt Hc); now apply Href |].
  split; [intros Hc; rewrite (Gd Hc); now apply Href |].
  split.
  { intros Hcd Hloc.
    rewrite (proj1 (hunt_refused_run cat now jid w e a He Ha Hcd) Hloc).
    now apply Href. }
  split.
  { intros location Hcd Hloc Hsafe.
    rewrite (proj2 (hunt_refused_run cat now jid w e a He Ha Hcd)
               location Hloc Hsafe).
    now apply Href. }
  split; [intros Hi; rewrite Hbuy, Hi; now apply Href |].
  split.
  { intros item r Hi Hr Hl. rewrite Hbuy, Hi.
    rewrite (level_gate _ r (adv_level a) Hr ltac:(lia) ltac:(lia)).
    now apply Href. }
  split.
  { intros item Hi Hg. rewrite Hbuy, Hi.
    destruct (JS.truthy_onum _ && _); [now apply Href |].
    apply Z.ltb_lt in Hg. rewrite Hg. now apply Href. }
  split; [intros Hm; rewrite (Eq1 Hm); now apply Href |].
  split.
  { intros Hi. unfold missing in *. clear missing.
    destruct (match inv_find (inv_items (inventory a)) itemId with
              | Some it => quantity it <? 1
              | None => true
              end) eqn:Em.
    - rewrite (Eq1 eq_refl). now apply Href.
    - rewrite (Eq2 eq_refl Hi). now apply Href. }
  split.
  { intros item Hi Hc Ht. unfold missing in *. clear missing.
    destruct (match inv_find (inv_items (inventory a)) itemId with
              | Some it => quantity it <? 1
              | None => true
              end) eqn:Em.
    - rewrite (Eq1 eq_refl). now apply Href.
    - rewrite (Eq3 item eq_refl Hi Hc Ht). now apply Href. }
  split; [intros Hloc; rewrite Htravel, Hloc; now apply Href |].
  split.
  { intros location m Hloc Hm Hl. rewrite Htravel, Hloc.
    rewrite (level_gate _ m (adv_level a) Hm ltac:(lia) ltac:(lia)).
    now apply Href. }
  intros Hfl.
  assert (Hkept : forall err a',
            kept (mkRun err (Some a') (written_bare jid a' w)) err a').
  { intros err a'. unfold kept, written_bare. cbn [result object world mem disk].
    rewrite Hfl. split; [reflexivity |]. split; [reflexivity |].
    split; [| reflexivity].
    unfold key. rewrite lookup_insert_eq. now apply (bare_is_not e a a'). }
  split.
  { intros Hcd. rewrite (claimDaily_run now jid w e a He Ha Hcd), Hfl.
    cbn [result object world]. unfold written_adventure. cbn [mem disk].
    rewrite Hfl. split; [reflexivity |]. split; [reflexivity |].
    split; [apply lookup_insert_eq | reflexivity]. }
  split.
  { intros Hcd.
    destruct (train_run now jid w e a He Ha Hcd) as (_ & _ & _ & ->).
    rewrite Hfl. cbn [result object world].
    eexists. split; [reflexivity |]. split; [reflexivity |].
    split; [exact (proj1 (trained_fields now a _ _)) |].
    unfold written_adventure. cbn [mem disk flush_ok fpos]. rewrite Hfl.
    split; [apply lookup_insert_eq | reflexivity]. }
  split.
  { intros item Hi Hreq Hg. rewrite Hbuy, Hi.
    assert (Hgate : JS.truthy_onum (item_required_level item)
                    && (adv_level a <? default 0 (item_required_level item))
                    = false).
    { destruct (item_required_level item) as [r |]; [| reflexivity].
      cbn [default]. apply andb_false_iff. right.
      apply Z.ltb_ge. now apply Hreq. }
    assert (Hgold : (gold (inventory a) <? item_value item) = false)
      by (apply Z.ltb_ge; lia).
    rewrite Hgate, Hgold, Hfl. apply Hkept. }
  split.
  { intros it item Hf Hq Hi. split.
    - intros Ht.
      rewrite (equipItem_run cat now jid itemId w e a it item He Ha Hf Hq Hi Ht),
        Hfl.
      apply Hkept.
    - intros Ht.
      rewrite (useConsumable_run cat now jid itemId w e a it item He Ha Hf Hq
                 Hi Ht), Hfl.
      apply Hkept. }
  split.
  { intros location Hloc Hmin. rewrite Htravel, Hloc.
    assert (Hgate : JS.truthy_onum (location_minLevel location)
                    && (adv_level a <? default 0 (location_minLevel location))
                    = false).
    { destruct (location_minLevel location) as [m |]; [| reflexivity].
      cbn [default]. apply andb_false_iff. right.
      apply Z.ltb_ge. now apply Hmin. }
    rewrite Hgate, Hfl. apply Hkept. }
  intros location Hcd Hloc Hsafe. split.
  - intros Hroll.
    rewrite (hunt_nothing_run cat now jid w e a location He Ha Hcd Hloc Hsafe
               Hroll), Hfl.
    unfold kept, written_bare. cbn [result object world mem disk flush_ok fpos].
    rewrite Hfl. split; [reflexivity |]. split; [reflexivity |].
    split; [| reflexivity].
    unfold key. rewrite lookup_insert_eq. now apply (bare_is_not e a).
  - intros H7 H9.
    destruct (findTreasure_run cat location a
                (mkWorld (mem w) (disk w) (xpCooldowns w) (rnd w) (S (rpos w))
                         (flush_ok w) (fpos w)))
      as (r & a' & w' & g & found & Hrun & _ & _ & Hq & Hg & Hgold & _
          & _ & _ & _ & _ & _ & Hmem & Hdisk & Hfpos & _ & Hflush & _).
    cbn [mem disk flush_ok fpos] in Hmem, Hdisk, Hfpos, Hflush.
    rewrite (hunt_treasure_run cat now jid w e a location r a' w' He Ha Hcd
               Hloc Hsafe H7 H9 Hrun).
    rewrite Hflush, Hfpos, Hfl.
    exists (set_cd_hunt (now + COOLDOWN_HUNT) a').
    split.
    { unfold kept, written_bare. cbn [result object world mem disk].
      rewrite Hflush, Hfpos, Hfl, Hdisk.
      split; [reflexivity |]. split; [reflexivity |]. split; [| reflexivity].
      unfold key. rewrite lookup_insert_eq. now apply (bare_is_not e a). }
    split; [reflexivity |].
    change (inventory (set_cd_hunt (now + COOLDOWN_HUNT) a')) with (inventory a').
    rewrite Hgold. cbn zeta in Hq, Hg. lia.
Qed.

End Caught.

Section CaughtExamples.

Import AdventureManager.

#[local] Existing Instance sample_engine.

(** A daily claim of Alice, the flush of the write-back failing: the
    generic failure, the claimed profile in the store's memory, the disk
    as before.  A daily claim of Bob, whom the store does not know, the
    save of his default profile failing: the generic failure, no profile
    in hand, and his record in the store's memory. *)
Lemma faults_caught_not_rolled_back_witness :
  let a := Sample.profile 1 0 100 [] Sample.no_equipment Sample.no_cooldowns in
  let w := Sample.world_of (Sample.store_with a) [] [false] in
  let w0 := Sample.world_of ∅ [] [false] in
  result (claimDaily 5000 "alice" w) = failure MsgDailyError
  /\ mem (world (claimDaily 5000 "alice" w)) !! "alice"
     = Some (SUser Sample.alice (Some (claimed 5000 a)))
  /\ disk (world (claimDaily 5000 "alice" w)) = disk w
  /\ claimDaily 5000 "bob" w0
     = mkRun (failure MsgDailyError) None
             (refreshed 5000 "bob" (newcomer 5000 "bob") w0)
  /\ mem (world (claimDaily 5000 "bob" w0)) !! "bob"
     = Some (SUser (mkUserData "bob" "bob" 0 1 0 5000 5000 [])
                   (Some (_createDefaultAdventureData 5000
                            (newcomer 5000 "bob")))).
Proof.
  cbn zeta.
  pose proof (faults_caught_not_rolled_back Sample.catalog 5000 "alice" "axe_1"
                "forest"
                (Sample.world_of
                   (Sample.store_with
                      (Sample.profile 1 0 100 [] Sample.no_equipment
                                      Sample.no_cooldowns)) [] [false])) as H.
  cbn zeta in H. destruct H as (_ & _ & _ & H).
  destruct (H (SUser Sample.alice
                 (Some (Sample.profile 1 0 100 [] Sample.no_equipment
                                       Sample.no_cooldowns)))
              (Sample.profile 1 0 100 [] Sample.no_equipment Sample.no_cooldowns)
              eq_refl eq_refl)
    as (_ & _ & _ & _ & _ & _ & _ & _ & _ & _ & _ & _ & _ & Hfail).
  destruct (Hfail eq_refl) as (Hd & _).
  destruct (Hd ltac:(simpl; lia)) as (Hres & _ & Hmem & Hdisk).
  split; [exact Hres |]. split; [exact Hmem |]. split; [exact Hdisk |].
  pose proof (faults_caught_not_rolled_back Sample.catalog 5000 "bob" "axe_1"
                "forest" (Sample.world_of ∅ [] [false])) as H0.
  cbn zeta in H0. destruct H0 as (_ & _ & H0 & _).
  destruct (H0 (newcomer 5000 "bob") ltac:(left; split; reflexivity))
    as (Hm & Hthrow & _).
  destruct (Hthrow eq_refl) as (_ & _ & Hall).
  rewrite (Hall (claimDaily 5000 "bob") (failure MsgDailyError)
             ltac:(right; right; left; reflexivity)).
  split; [reflexivity |]. exact Hm.
Defined.

End CaughtExamples.

(** * What the handlers leave alone *)

Section Frame.

Import AdventureManager.

Context {engine : Math.Pow}.

Variable key : string.

Lemma frame_refl (w : World) : frame key w w.
Proof. now split. Qed.

Lemma frame_trans (w1 w2 w3 : World) : frame key w1 w2 -> frame key w2 w3 -> frame key w1 w3.
Proof.
  intros [H1 H2] [H3 H4]. split; [|congruence].
  intros k Hk. now rewrite H3, H1.
Qed.

Lemma localW_bind {A B} (m : M World A) (k : A -> M World B) :
  localW key m -> (forall x, localW key (k x)) -> localW key (bind m k).
Proof.
  intros Hm Hk w. unfold bind. specialize (Hm w).
  destruct (m w) as [[x|x] w1]; cbn [snd] in *; [|exact Hm].
  exact (frame_trans _ _ _ Hm (Hk x w1)).
Qed.

Lemma local_bind {A B} (m : H A) (k : A -> H B) :
  local key m -> (forall x, local key (k x)) -> local key (bind m k).
Proof.
  intros Hm Hk s. unfold bind. specialize (Hm s).
  destruct (m s) as [[x|x] s1]; cbn [snd] in *; [|exact Hm].
  exact (frame_trans _ _ _ Hm (Hk x s1)).
Qed.

Lemma localW_ret {A} (x : A) : localW key (ret x).
Proof. intros w. apply frame_refl. Qed.

Lemma local_ret {A} (x : A) : local key (ret x).
Proof. intros s. apply frame_refl. Qed.

Lemma local_throw {A} (x : Exn) : local key (@throw _ A x).
Proof. intros s. apply frame_refl. Qed.

Lemma local_get_obj : local key get_obj.
Proof. intros s. apply frame_refl. Qed.

Lemma local_modify_obj (f : Adventure -> Adventure) : local key (modify_obj f).
Proof. intros s. apply frame_refl. Qed.

Lemma local_addXP_obj (x : Z) : local key (addXP_obj x).
Proof.
  intros s. unfold addXP_obj. destruct (_addXP (fst s) x). apply frame_refl.
Qed.

Lemma local_liftW {A} (m : M World A) : localW key m -> local key (liftW m).
Proof.
  intros Hm s. unfold liftW. specialize (Hm (snd s)).
  now destruct (m (snd s)).
Qed.

Lemma local_catching {A} (m : H A) (r : A) : local key m -> local key (catching m r).
Proof.
  intros Hm s. unfold catching. specialize (Hm s).
  now destruct (m s) as [[x|x] s1].
Qed.

Lemma localW_random : localW key random.
Proof. intros w. now split. Qed.

Lemma localW_save : localW key Db.save.
Proof.
  intros w. unfold Db.save. now destruct (flush_ok w (fpos w)).
Qed.

Lemma localW_set (v : Stored) : localW key (Db.set key v).
Proof.
  intros w. split; [|reflexivity]. intros k Hk. cbn.
  now apply lookup_insert_ne.
Qed.

Lemma localW_get (k : string) : localW key (Db.get k).
Proof. intros w. apply frame_refl. Qed.


Hypothesis key_clean : JS.before_at key = key.

Lemma localW_LM_getUserData (now : Z) (pn : option string) :
  localW key (LevelManager.getUserData now key pn).
Proof.
  unfold LevelManager.getUserData. rewrite key_clean.
  apply localW_bind; [apply localW_get|]. intros e.
  repeat case_match;
    repeat first [ apply localW_ret | apply localW_set
                 | apply localW_bind; [|intros ?] ].
Qed.

Lemma localW_updateUserData (jid : string) (v : Stored) :
  JS.before_at jid = key -> localW key (updateUserData jid v).
Proof.
  intros Hjid. unfold updateUserData, LevelManager.saveData. rewrite Hjid.
  repeat first [ apply localW_ret | apply localW_set | apply localW_save
               | apply localW_bind; [|intros ?] ].
Qed.


Lemma localW_updateAdventureData (now : Z) (jid : string) (a : Adventure) :
  JS.before_at jid = key -> localW key (updateAdventureData now jid a).
Proof.
  intros Hjid. unfold updateAdventureData. rewrite Hjid.
  apply localW_bind; [apply localW_LM_getUserData|]. intros e.
  now apply localW_updateUserData.
Qed.

Lemma localW_getUserData (now : Z) (jid : string) :
  JS.before_at jid = key -> localW key (getUserData now jid).
Proof.
  intros Hjid. unfold getUserData. rewrite Hjid.
  apply localW_bind; [apply localW_LM_getUserData|]. intros e.
  case_match; [apply localW_ret|].
  apply localW_bind; [now apply localW_updateUserData|]. intros _.
  apply localW_ret.
Qed.

Lemma localW_selectMonster (cat : Catalog) (location : Location) (level : Z) :
  localW key (_selectMonsterForLocation cat location level).
Proof.
  intros w. rewrite selectMonster_run. now case_match.
Qed.

End Frame.

Ltac local_step :=
  first [ apply local_ret | apply local_throw | apply local_get_obj
        | apply local_modify_obj | apply local_addXP_obj
        | apply local_liftW; first [ apply localW_random
                                   | apply localW_selectMonster
                                   | apply localW_updateUserData; assumption
                                   | apply localW_updateAdventureData; assumption ]
        | apply local_catching
        | apply local_bind; [|intros ?]
        | case_match ].

Section Locality.

Import AdventureManager.

Context {engine : Math.Pow}.

Variables (cat : Catalog) (now : Z) (jid : string).

Lemma local_hunt_body : local (JS.before_at jid) (hunt_body cat now jid).
Proof.
  pose proof (before_at_idem jid) as Hc.
  assert (JS.before_at jid = JS.before_at jid) as Hk by reflexivity.
  unfold hunt_body, _monsterEncounter, _handleCombatVictory,
    _handleCombatDefeat, _findTreasure, write_back_adventure, write_back_bare.
  repeat local_step.
Qed.

Lemma local_train_body : local (JS.before_at jid) (train_body now jid).
Proof.
  pose proof (before_at_idem jid) as Hc.
  assert (JS.before_at jid = JS.before_at jid) as Hk by reflexivity.
  unfold train_body, write_back_adventure. repeat local_step.
Qed.

Lemma local_claimDaily_body : local (JS.before_at jid) (claimDaily_body now jid).
Proof.
  pose proof (before_at_idem jid) as Hc.
  assert (JS.before_at jid = JS.before_at jid) as Hk by reflexivity.
  unfold claimDaily_body, write_back_adventure. repeat local_step.
Qed.

Lemma local_buyItem_body (itemId : string) :
  local (JS.before_at jid) (buyItem_body cat jid itemId).
Proof.
  pose proof (before_at_idem jid) as Hc.
  assert (JS.before_at jid = JS.before_at jid) as Hk by reflexivity.
  unfold buyItem_body, write_back_bare. repeat local_step.
Qed.

Lemma local_equipItem_body (itemId : string) :
  local (JS.before_at jid) (equipItem_body cat jid itemId).
Proof.
  pose proof (before_at_idem jid) as Hc.
  assert (JS.before_at jid = JS.before_at jid) as Hk by reflexivity.
  unfold equipItem_body, _useConsumable, write_back_bare. repeat local_step.
Qed.

Lemma local_travel_body (locationId : string) :
  local (JS.before_at jid) (travel_body cat jid locationId).
Proof.
  pose proof (before_at_idem jid) as Hc.
  assert (JS.before_at jid = JS.before_at jid) as Hk by reflexivity.
  unfold travel_body, write_back_bare. repeat local_step.
Qed.

Lemma run_handler_local (body : H Result) (err : Result) (w : World) :
  local (JS.before_at jid) body ->
  frame (JS.before_at jid) w (world (run_handler now jid body err w)).
Proof.
  intros Hb. unfold run_handler.
  pose proof (localW_getUserData (JS.before_at jid) (before_at_idem jid)
                now jid eq_refl w) as Hg.
  destruct (getUserData now jid w) as [[a|x] w1]; cbn [snd] in Hg; [|exact Hg].
  specialize (Hb (a, w1)). cbn [snd] in Hb.
  destruct (body (a, w1)) as [[r|x] [a' w2]]; cbn [snd world] in *;
    exact (frame_trans _ _ _ _ Hg Hb).
Qed.

(** X20. Every handler keeps to the record of its user.  Whatever the
    store holds and whatever the draws and the saves do, [hunt],
    [train], [claimDaily], [buyItem], [equipItem] and [travel] leave the
    record of every other user in the store as it was, and never touch
    the message cooldowns of the leveling engine. *)
Theorem handlers_keep_to_their_record (itemId locationId : string) (w : World) :
  frame (JS.before_at jid) w (world (hunt cat now jid w))
  /\ frame (JS.before_at jid) w (world (train now jid w))
  /\ frame (JS.before_at jid) w (world (claimDaily now jid w))
  /\ frame (JS.before_at jid) w (world (buyItem cat now jid itemId w))
  /\ frame (JS.before_at jid) w (world (equipItem cat now jid itemId w))
  /\ frame (JS.before_at jid) w (world (travel cat now jid locationId w)).
Proof.
  repeat split; try (apply run_handler_local;
    first [ apply local_hunt_body | apply local_train_body
          | apply local_claimDaily_body | apply local_buyItem_body
          | apply local_equipItem_body | apply local_travel_body ]).
Qed.

End Locality.

(** * Profiles stay in good standing *)

Section Standing.

Import AdventureManager.

Context {engine : Math.Pow}.

Lemma profile_ok_ext (a b : Adventure) :
  adv_level b = adv_level a -> adv_xp b = adv_xp a ->
  adv_xpNeeded b = adv_xpNeeded a ->
  health (stats b) = health (stats a) ->
  maxHealth (stats b) = maxHealth (stats a) ->
  inventory b = inventory a ->
  profile_ok a -> profile_ok b.
Proof.
  unfold profile_ok. intros -> -> -> -> -> ->. tauto.
Qed.

Lemma default_ok (now : Z) (e : Stored) :
  profile_ok (_createDefaultAdventureData now e).
Proof.
  unfold profile_ok, _createDefaultAdventureData, inv_ok.
  cbn [adv_level adv_xp adv_xpNeeded stats health maxHealth inventory gold
       inv_items map].
  rewrite xpNeededFor_1.
  repeat split; try lia; try reflexivity; constructor.
Qed.

Lemma add_gold_ok (g : Z) (a : Adventure) :
  0 <= gold (inventory a) + g -> profile_ok a -> profile_ok (add_gold g a).
Proof.
  unfold profile_ok, add_gold, with_inventory. cbn. tauto.
Qed.

Lemma add_item_profile_ok (id : string) (a : Adventure) :
  profile_ok a -> profile_ok (_addItemToInventory a id 1).
Proof.
  unfold profile_ok, _addItemToInventory, with_items, with_inventory. cbn.
  intros (H1 & H2 & H3 & H4 & H5 & H6). repeat split; try tauto; try lia;
    apply add_item_ok; try assumption; lia.
Qed.

Lemma remove_item_profile_ok (id : string) (a : Adventure) :
  profile_ok a -> profile_ok (_removeItemFromInventory a id 1).
Proof.
  unfold _removeItemFromInventory.
  destruct (remove_item (inv_items (inventory a)) id 1) as [l'|] eqn:E; [|tauto].
  unfold profile_ok, with_items, with_inventory. cbn.
  intros (H1 & H2 & H3 & H4 & H5 & H6). repeat split; try tauto; try lia;
    now apply (remove_item_ok _ l' id 1 H6 E).
Qed.

Lemma purchased_ok (a : Adventure) (id : string) (item : Item) :
  item_value item <= gold (inventory a) ->
  profile_ok a -> profile_ok (purchased a id item).
Proof.
  intros Hg Hok. unfold purchased. apply add_item_profile_ok.
  apply add_gold_ok; [lia | exact Hok].
Qed.

Lemma equipped_ok (a : Adventure) (t x : string) :
  profile_ok a -> profile_ok (equipped a t x).
Proof.
  intros Hok. unfold equipped.
  assert (profile_ok (_removeItemFromInventory
                        (with_equipment a (set_slot (equipment a) t x)) x 1)) as H.
  { apply remove_item_profile_ok.
    now apply (profile_ok_ext a). }
  destruct (get_slot (equipment a) t) as [c|]; [|exact H].
  destruct (JS.truthy_str c); [|exact H]. now apply add_item_profile_ok.
Qed.

Lemma used_ok (a : Adventure) (itemId : string) (item : Item) :
  (forall r, item_restore item = Some r -> 0 <= r) ->
  profile_ok a -> profile_ok (used a itemId item).
Proof.
  intros Hr Hok. unfold used. apply remove_item_profile_ok. unfold healed.
  destruct (item_restore item) as [r|] eqn:E; cbn [JS.truthy_onum]; [|exact Hok].
  destruct (negb (r =? 0)); [|exact Hok].
  specialize (Hr r eq_refl). revert Hok.
  unfold profile_ok, with_stats. cbn. unfold id.
  intros (H1 & H2 & H3 & H4 & H5 & H6).
  repeat split; try tauto; try lia; apply H6.
Qed.

Lemma boost_stat_ok (s : string) (n : Z) (a : Adventure) :
  0 <= n -> profile_ok a -> profile_ok (boost_stat s n a).
Proof.
  intros Hn. unfold boost_stat, profile_ok, with_stats.
  repeat case_match; cbn; intros (Q1 & Q2 & Q3 & Q4 & Q5 & Q6);
    repeat split; try tauto; try lia; apply Q6.
Qed.

Lemma set_cd_ok (a : Adventure) (c : Cooldowns) :
  profile_ok a -> profile_ok (with_cooldowns a c).
Proof. now apply (profile_ok_ext a). Qed.

Lemma trained_ok (now : Z) (a : Adventure) (bonus : option (string * Z)) (x : Z) :
  0 <= x -> (bonus = None \/ exists b, bonus = Some b /\ In b train_bonuses) ->
  profile_ok a -> profile_ok (trained now a bonus x).
Proof.
  intros Hx Hb Hok. unfold trained, set_cd_train. apply set_cd_ok.
  apply addXP_ok; [|exact Hx].
  destruct Hb as [-> | ([s n] & -> & Hin)]; [exact Hok|].
  apply boost_stat_ok; [|exact Hok].
  simpl in Hin. destruct Hin as [H|[H|[H|[H|[]]]]]; injection H as <- <-; lia.
Qed.

Lemma claimed_ok (now : Z) (a : Adventure) :
  profile_ok a -> profile_ok (claimed now a).
Proof.
  intros Hok. unfold claimed, set_cd_daily. apply set_cd_ok.
  pose proof Hok as (Hl & _ & _ & _ & Hg & _).
  apply addXP_ok; [|lia]. apply add_gold_ok; [lia | exact Hok].
Qed.


Lemma keeps_bind {A B} (m : H A) (k : A -> H B) (R : A -> Prop) :
  keeps m R -> (forall x, R x -> keeps (k x) (fun _ => True)) ->
  keeps (bind m k) (fun _ => True).
Proof.
  intros Hm Hk a w Hok. unfold bind. destruct (Hm a w Hok) as [H1 H2].
  destruct (m (a, w)) as [[x|x] [a1 w1]]; cbn [fst snd] in *.
  - destruct (Hk x (H2 x eq_refl) a1 w1 H1) as [H3 _]. split; [exact H3 | trivial].
  - split; [exact H1 | trivial].
Qed.

Lemma keeps_ret {A} (x : A) : keeps (ret x) (fun _ => True).
Proof. intros a w Hok. split; [exact Hok | trivial]. Qed.

Lemma keeps_throw {A} (x : Exn) : keeps (@throw _ A x) (fun _ => True).
Proof. intros a w Hok. split; [exact Hok | trivial]. Qed.

Lemma keeps_get_obj : keeps get_obj (fun _ => True).
Proof. intros a w Hok. split; [exact Hok | trivial]. Qed.

Lemma keeps_modify_obj (f : Adventure -> Adventure) :
  (forall a, profile_ok a -> profile_ok (f a)) ->
  keeps (modify_obj f) (fun _ => True).
Proof. intros Hf a w Hok. split; [now apply Hf | trivial]. Qed.

Lemma keeps_addXP_obj (x : Z) : 0 <= x -> keeps (addXP_obj x) (fun _ => True).
Proof.
  intros Hx a w Hok. unfold addXP_obj. cbn [fst snd].
  pose proof (addXP_ok a x Hok Hx) as H.
  destruct (_addXP a x). split; [exact H | trivial].
Qed.

Lemma keeps_liftW {A} (m : M World A) (R : A -> Prop) :
  (forall w x, fst (m w) = Ret x -> R x) -> keeps (liftW m) R.
Proof.
  intros Hm a w Hok. unfold liftW. cbn [fst snd]. specialize (Hm w).
  destruct (m w) as [o w1]. cbn [fst snd] in *. split; [exact Hok | exact Hm].
Qed.

Lemma keeps_random : keeps (liftW random) (fun q => exists d, q = draw_val d).
Proof.
  apply keeps_liftW. intros w x [= <-]. now eexists.
Qed.

Lemma keeps_select (cat : Catalog) (location : Location) (level : Z) :
  cat_ok cat ->
  keeps (liftW (_selectMonsterForLocation cat location level))
        (fun om => forall m, om = Some m ->
           0 <= gold_min (monster_goldReward m) <= gold_max (monster_goldReward m)
           /\ 0 <= monster_xpReward m).
Proof.
  intros [Hcat _]. apply keeps_liftW. intros w x. rewrite selectMonster_run.
  destruct (pool cat location level) as [|m0 ms] eqn:Ep;
    cbn [fst]; intros [= <-] m Hm; [discriminate|].
  assert (In m (pool cat location level)) as Hin.
  { rewrite Ep. unfold JS.index in Hm. case_match; [discriminate|].
    now apply nth_error_In in Hm. }
  unfold pool in Hin. apply in_app_or in Hin as [Hin|Hin].
  - apply common_pool_in in Hin as (id & _ & Hg & _).
    exact (Hcat id m (map_get_in _ _ _ Hg)).
  - apply rare_pool_in in Hin as (id & _ & Hg & _).
    exact (Hcat id m (map_get_in _ _ _ Hg)).
Qed.

Lemma keeps_weaken {A} (m : H A) (R : A -> Prop) :
  keeps m R -> keeps m (fun _ => True).
Proof. intros Hm a w Hok. split; [apply (Hm a w Hok) | trivial]. Qed.

End Standing.

Ltac keeps_step :=
  lazymatch goal with
  | |- keeps (ret _) _ => apply keeps_ret
  | |- keeps (throw _) _ => apply keeps_throw
  | |- keeps AdventureManager.get_obj _ => apply keeps_get_obj
  | |- keeps (AdventureManager.addXP_obj _) _ => apply keeps_addXP_obj; lia
  | |- keeps (AdventureManager.liftW random) _ => apply keeps_random
  | |- keeps (AdventureManager.liftW _) _ => apply keeps_liftW; intros; exact I
  | |- keeps (bind _ _) _ => eapply keeps_bind; [| intros ? ?]
  | |- keeps (if ?c then _ else _) _ => destruct c eqn:?
  | |- keeps (match ?c with _ => _ end) _ => destruct c eqn:?
  | |- keeps (let _ := _ in _) _ => cbv zeta
  end.

Section StandingHunt.

Import AdventureManager.

Context {engine : Math.Pow}.

Variable cat : Catalog.
Hypothesis Hcat : cat_ok cat.

Lemma keeps_victory (m : Monster) :
  0 <= gold_min (monster_goldReward m) <= gold_max (monster_goldReward m)
  /\ 0 <= monster_xpReward m ->
  keeps (_handleCombatVictory cat m) (fun _ => True).
Proof.
  intros [Hg Hx]. unfold _handleCombatVictory.
  eapply keeps_bind; [apply keeps_random|]. intros r1 (d & ->).
  pose proof (floor_mul_draw_range d
                (gold_max (monster_goldReward m) - gold_min (monster_goldReward m) + 1)
                ltac:(lia)) as Hf.
  eapply keeps_bind.
  { apply keeps_modify_obj. intros a Hok. apply add_gold_ok; [|exact Hok].
    destruct Hok as (_ & _ & _ & _ & Hgold & _). lia. }
  intros _ _.
  eapply keeps_bind; [apply keeps_addXP_obj; lia|]. intros info _.
  eapply keeps_bind.
  { apply keeps_modify_obj. intros a Hok. now apply (profile_ok_ext a). }
  intros _ _.
  repeat keeps_step.
Qed.

Lemma keeps_defeat (m : Monster) :
  keeps (_handleCombatDefeat m) (fun _ => True).
Proof.
  unfold _handleCombatDefeat.
  eapply keeps_bind; [|intros; apply keeps_ret].
  apply keeps_modify_obj. intros a. unfold profile_ok, with_stats. cbn.
  intros (Q1 & Q2 & Q3 & Q4 & Q5 & Q6).
  assert (maxHealth (stats a) / 4 <= maxHealth (stats a))
    by (apply Z.div_le_upper_bound; lia).
  repeat split; try tauto; try lia; apply Q6.
Qed.

Lemma keeps_monsterEncounter (location : Location) :
  keeps (_monsterEncounter cat location) (fun _ => True).
Proof.
  unfold _monsterEncounter.
  eapply keeps_bind; [apply keeps_get_obj|]. intros userData _.
  eapply keeps_bind; [apply keeps_select; exact Hcat|]. intros om Hom.
  destruct om as [m|]; [|apply keeps_ret].
  case_match; [apply keeps_victory; now apply Hom | apply keeps_defeat].
Qed.

Lemma keeps_findTreasure (location : Location) :
  keeps (_findTreasure cat location) (fun _ => True).
Proof.
  unfold _findTreasure.
  eapply keeps_bind; [apply keeps_get_obj|]. intros userData _.
  eapply keeps_bind; [apply keeps_random|]. intros r1 (d & ->).
  set (goldBase := 20 * Z.min 5 (Z.max 1 (adv_level userData / 5 + 1))).
  pose proof (floor_mul_draw_range d goldBase ltac:(unfold goldBase; lia)) as Hf.
  eapply keeps_bind.
  { apply keeps_modify_obj. intros a Hok. apply add_gold_ok; [|exact Hok].
    destruct Hok as (_ & _ & _ & _ & Hgold & _). unfold goldBase in *. lia. }
  intros _ _.
  eapply keeps_bind; [apply keeps_random|]. intros r2 _.
  repeat lazymatch goal with
         | |- keeps (modify_obj _) _ =>
             apply keeps_modify_obj; intros ? ?; apply add_item_profile_ok;
             assumption
         | |- _ => keeps_step
         end.
Qed.

Lemma keeps_hunt_body (now : Z) (jid : string) :
  keeps (hunt_body cat now jid) (fun _ => True).
Proof.
  unfold hunt_body, write_back_adventure, write_back_bare.
  repeat lazymatch goal with
         | |- keeps (_monsterEncounter _ _) _ => apply keeps_monsterEncounter
         | |- keeps (_findTreasure _ _) _ => apply keeps_findTreasure
         | |- keeps (modify_obj _) _ =>
             apply keeps_modify_obj; intros ? ?; apply set_cd_ok; assumption
         | |- _ => keeps_step
         end.
Qed.

Variables (now : Z) (jid : string).

Lemma getUserData_ok (w w1 : World) (a : Adventure) :
  (forall e a0, mem w !! JS.before_at jid = Some e ->
                stored_adventure e = Some a0 -> profile_ok a0) ->
  getUserData now jid w = (Ret a, w1) ->
  profile_ok a
  /\ exists e1, mem w1 !! JS.before_at jid = Some e1
                /\ stored_adventure e1 = Some a.
Proof.
  intros Hst Hrun.
  destruct (mem w !! JS.before_at jid) as [e|] eqn:He.
  - rewrite (getUserData_stored now jid w e He) in Hrun.
    destruct (stored_adventure e) as [a0|] eqn:Ha.
    + injection Hrun as <- <-. split; [now apply (Hst e)|]. now exists e.
    + cbn zeta in Hrun. destruct (flush_ok w (fpos w)); [|discriminate].
      injection Hrun as <- <-. split; [apply default_ok|].
      eexists. cbn [mem].
      split; [apply lookup_insert_eq | apply stored_adventure_set].
  - rewrite (getUserData_new now jid w He) in Hrun. cbn zeta in Hrun.
    destruct (flush_ok w (fpos w)); [|discriminate].
    injection Hrun as <- <-. split; [apply default_ok|].
    eexists. cbn [mem]. split; [apply lookup_insert_eq | reflexivity].
Qed.

Lemma run_handler_settled (body : H Result) (err : Result) (w : World) :
  (forall e a0, mem w !! JS.before_at jid = Some e ->
                stored_adventure e = Some a0 -> profile_ok a0) ->
  object (run_handler now jid body err w) = None
  \/ exists a w1 e1,
       profile_ok a
       /\ mem w1 !! JS.before_at jid = Some e1 /\ stored_adventure e1 = Some a
       /\ run_handler now jid body err w = run_handler now jid body err w1.
Proof.
  intros Hst.
  destruct (getUserData now jid w) as [[a|x] w1] eqn:Hget.
  - right. destruct (getUserData_ok w w1 a Hst Hget) as (Hok & e1 & He1 & Ha1).
    exists a, w1, e1.
    split; [exact Hok|]. split; [exact He1|]. split; [exact Ha1|].
    unfold run_handler.
    now rewrite Hget, (getUserData_existing now jid w1 e1 a He1 Ha1).
  - left. unfold run_handler. now rewrite Hget.
Qed.

Lemma run_handler_keeps (body : H Result) (err : Result) (w : World)
    (a' : Adventure) :
  (forall e a0, mem w !! JS.before_at jid = Some e ->
                stored_adventure e = Some a0 -> profile_ok a0) ->
  keeps body (fun _ => True) ->
  object (run_handler now jid body err w) = Some a' -> profile_ok a'.
Proof.
  intros Hst Hb. unfold run_handler.
  destruct (getUserData now jid w) as [[a|x] w1] eqn:Hget; [|discriminate].
  destruct (getUserData_ok w w1 a Hst Hget) as (Hok & _).
  destruct (Hb a w1 Hok) as [H _].
  destruct (body (a, w1)) as [[r|x] [a2 w2]]; cbn [fst snd object] in *;
    intros [= <-]; exact H.
Qed.

Lemma equipItem_object (itemId : string) (w : World) (e : Stored)
    (a a' : Adventure) :
  mem w !! JS.before_at jid = Some e -> stored_adventure e = Some a ->
  object (equipItem cat now jid itemId w) = Some a' ->
  a' = a
  \/ (exists t, a' = equipped a t itemId)
  \/ (exists item, In (itemId, item) (items cat) /\ a' = used a itemId item).
Proof.
  intros He Ha.
  destruct (inv_find (inv_items (inventory a)) itemId) as [it|] eqn:Hf.
  2:{ unfold equipItem, run_handler.
      rewrite (getUserData_existing now jid w e a He Ha).
      unfold equipItem_body, bind, get_obj, ret. cbn [fst snd]. rewrite Hf.
      cbn. intros [= <-]. now left. }
  destruct (Z.ltb_spec (quantity it) 1) as [Hq|Hq].
  { unfold equipItem, run_handler.
    rewrite (getUserData_existing now jid w e a He Ha).
    unfold equipItem_body, bind, get_obj, ret. cbn [fst snd]. rewrite Hf.
    apply Z.ltb_lt in Hq. rewrite Hq. cbn. intros [= <-]. now left. }
  destruct (JS.map_get (items cat) itemId) as [item|] eqn:Hi.
  2:{ unfold equipItem, run_handler.
      rewrite (getUserData_existing now jid w e a He Ha).
      unfold equipItem_body, bind, get_obj, ret. cbn [fst snd]. rewrite Hf, Hi.
      apply Z.ltb_ge in Hq. rewrite Hq. cbn. intros [= <-]. now left. }
  destruct (String.eqb_spec (item_type item) "consumable") as [Hc|Hc].
  { rewrite (useConsumable_run cat now jid itemId w e a it item He Ha Hf Hq Hi Hc).
    cbn [object]. intros [= <-]. right. right. exists item.
    split; [now apply map_get_in | reflexivity]. }
  destruct (equipable (item_type item)) eqn:Ht.
  { rewrite (equipItem_run cat now jid itemId w e a it item He Ha Hf Hq Hi Ht).
    cbn [object]. intros [= <-]. right. left. now eexists. }
  unfold equipItem, run_handler.
  rewrite (getUserData_existing now jid w e a He Ha).
  unfold equipItem_body, bind, get_obj, ret. cbn [fst snd]. rewrite Hf, Hi, Ht.
  apply Z.ltb_ge in Hq. rewrite Hq. apply String.eqb_neq in Hc. rewrite Hc.
  cbn. intros [= <-]. now left.
Qed.

(** X21. Profiles stay in good standing.  Let the catalog pay no
    negative gold or XP and restore no negative health, and let the
    profile the store holds for the user, if any, be in good standing:
    a level of at least 1, XP from 0 to below [xpNeeded], [xpNeeded] the
    amount the level formula gives, health from 1 to [maxHealth], no
    negative gold, one inventory line per item and none below one unit.
    Then the profile in hand after [hunt], [train], [claimDaily],
    [buyItem], [equipItem] or [travel] is in good standing again,
    whatever the draws and the saves do and also when the handler ends
    in an error. *)
Theorem handlers_keep_profiles_ok (itemId locationId : string) (w : World)
    (run : Run) (a' : Adventure) :
  (forall e a, mem w !! JS.before_at jid = Some e ->
               stored_adventure e = Some a -> profile_ok a) ->
  In run [hunt cat now jid w; train now jid w; claimDaily now jid w;
          buyItem cat now jid itemId w; equipItem cat now jid itemId w;
          travel cat now jid locationId w] ->
  object run = Some a' -> profile_ok a'.
Proof.
  intros Hst Hin.
  cbn [In] in Hin.
  destruct Hin as [<- | [<- | [<- | [<- | [<- | [<- | []]]]]]].
  - apply run_handler_keeps; [exact Hst | apply keeps_hunt_body].
  - unfold train.
    destruct (run_handler_settled (train_body now jid) (failure MsgTrainError)
                w Hst) as [-> | (a & w1 & e1 & Hok & He1 & Ha1 & ->)];
      [discriminate|].
    fold (train now jid w1).
    destruct (Z.le_gt_cases (cd_train (cooldowns a)) now) as [Hcd|Hcd].
    + destruct (train_run now jid w1 e1 a He1 Ha1 Hcd) as (Hx & _ & Hb & ->).
      cbn [object]. intros [= <-]. apply trained_ok; [lia | | exact Hok].
      match goal with
      | |- ?b = None \/ _ =>
          destruct b as [b0|] eqn:Eb; [right; exists b0; auto | now left]
      end.
    + rewrite (train_cooling now jid w1 e1 a He1 Ha1 Hcd).
      cbn [object]. now intros [= <-].
  - unfold claimDaily.
    destruct (run_handler_settled (claimDaily_body now jid)
                (failure MsgDailyError) w Hst)
      as [-> | (a & w1 & e1 & Hok & He1 & Ha1 & ->)]; [discriminate|].
    fold (claimDaily now jid w1).
    destruct (Z.le_gt_cases (cd_daily (cooldowns a)) now) as [Hcd|Hcd].
    + rewrite (claimDaily_run now jid w1 e1 a He1 Ha1 Hcd).
      cbn [object]. intros [= <-]. now apply claimed_ok.
    + rewrite (claimDaily_cooling now jid w1 e1 a He1 Ha1 Hcd).
      cbn [object]. now intros [= <-].
  - unfold buyItem.
    destruct (run_handler_settled (buyItem_body cat jid itemId)
                (failure MsgBuyError) w Hst)
      as [-> | (a & w1 & e1 & Hok & He1 & Ha1 & ->)]; [discriminate|].
    fold (buyItem cat now jid itemId w1).
    rewrite (buyItem_run cat now jid itemId w1 e1 a He1 Ha1).
    destruct (JS.map_get (items cat) itemId) as [item|];
      [|cbn [object]; now intros [= <-]].
    destruct (JS.truthy_onum (item_required_level item)
              && (adv_level a <? default 0 (item_required_level item)));
      [cbn [object]; now intros [= <-]|].
    destruct (Z.ltb_spec (gold (inventory a)) (item_value item));
      cbn [object]; intros [= <-]; [exact Hok|].
    now apply purchased_ok.
  - unfold equipItem.
    destruct (run_handler_settled (equipItem_body cat jid itemId)
                (failure MsgEquipError) w Hst)
      as [-> | (a & w1 & e1 & Hok & He1 & Ha1 & ->)]; [discriminate|].
    fold (equipItem cat now jid itemId w1). intros Hobj.
    destruct (equipItem_object itemId w1 e1 a a' He1 Ha1 Hobj)
      as [-> | [(t & ->) | (item & Hitem & ->)]].
    + exact Hok.
    + now apply equipped_ok.
    + apply used_ok; [|exact Hok]. intros r Hr.
      exact (proj2 Hcat itemId item r Hitem Hr).
  - unfold travel.
    destruct (run_handler_settled (travel_body cat jid locationId)
                (failure MsgTravelError) w Hst)
      as [-> | (a & w1 & e1 & Hok & He1 & Ha1 & ->)]; [discriminate|].
    fold (travel cat now jid locationId w1).
    rewrite (travel_run cat now jid locationId w1 e1 a He1 Ha1).
    repeat case_match; cbn [object]; intros [= <-]; exact Hok.
Qed.

End StandingHunt.

Section StandingHuntExamples.

#[local] Existing Instance sample_engine.

(** The sample catalog qualifies; Alice's hunt ends in the error of the
    item drop, and the profile in hand, with the gold and the XP of the
    victory, is in good standing. *)
Lemma handlers_keep_profiles_ok_witness :
  profile_ok
    (AdventureManager.with_monstersDefeated
       (AdventureManager.with_xp
          (AdventureManager.add_gold 5
             (Sample.profile 1 0 100 [] Sample.no_equipment Sample.no_cooldowns))
          10) 1).
Proof.
  apply (handlers_keep_profiles_ok Sample.catalog) with
    (now := 5000) (jid := "alice") (itemId := "") (locationId := "")
    (w := Sample.world_of
            (Sample.store_with
               (Sample.profile 1 0 100 [] Sample.no_equipment
                               Sample.no_cooldowns)) [] [])
    (run := AdventureManager.hunt Sample.catalog 5000 "alice"
              (Sample.world_of
                 (Sample.store_with
                    (Sample.profile 1 0 100 [] Sample.no_equipment
                                    Sample.no_cooldowns)) [] [])).
  - split.
    + intros id m Hin. cbn in Hin.
      destruct Hin as [H|[H|[H|[H|[]]]]]; injection H as <- <-; cbn; lia.
    + intros id item r Hin Hr. cbn in Hin.
      destruct Hin as [H|[H|[H|[H|[H|[H|[]]]]]]]; injection H as <- <-;
        cbn in Hr; first [discriminate | injection Hr as <-; lia].
  - intros e a He Ha. vm_compute in He. injection He as <-.
    injection Ha as <-. unfold profile_ok, inv_ok. cbn.
    repeat split; try lia; try reflexivity; constructor.
  - cbn. tauto.
  - vm_compute. reflexivity.
Defined.

End StandingHuntExamples.

(** * The leveling engine on a record that a handler replaced *)

Section Replaced.

Import LevelManager AdventureManager.

Context {engine : Math.Pow}.

(** X22. A message of a user whose record was replaced by a profile.
    [buyItem], [equipItem], [travel] and the treasure and nothing-found
    branches of [hunt] store the adventure profile in place of the
    user's record.  When such a user then sends a message that
    qualifies (private mode off, no cooldown), [processMessage] does not
    return: the profile has no [groups], and the group bookkeeping of
    [addXP] raises a [TypeError], after the cooldown was set and a draw
    was used.  No XP reaches the store. *)
Theorem message_on_replaced_record (config : Config)
    (groupMetadata : string -> option (list Participant)) (now : Z)
    (msg : Message) (content : list N) (w : World)
    (a : Adventure) (pn : option string) (adv : option Adventure) :
  qualifies config msg content -> privateMode config = false ->
  mem w !! JS.before_at (sender msg) = Some (SAdv a pn adv) ->
  default 0 (xpCooldowns w !! JS.before_at (sender msg)) <= now ->
  let run := processMessage config groupMetadata now msg content w in
  fst run = Throw TypeError
  /\ (exists pn', mem (snd run) !! JS.before_at (sender msg)
                  = Some (SAdv a pn' adv))
  /\ xpCooldowns (snd run) !! JS.before_at (sender msg) = Some (now + xpCooldown)
  /\ rpos (snd run) = S (rpos w).
Proof.
  intros (Hen & Hlen & Hcmd & Hgrp) Hpub Hrec Hcd run.
  pose proof (ends_with_nonempty _ "@g.us" ltac:(discriminate) Hgrp) as Hg.
  unfold run, processMessage. rewrite Hen, Hcmd, Hgrp, Hpub. cbn [negb andb].
  destruct (Z.of_nat (length content) <? minMessageLength) eqn:El.
  { apply Z.ltb_lt in El. unfold minMessageLength in El. lia. }
  fold (sender msg). fold (shown_name msg).
  rewrite addXP_message.
  destruct (Z.ltb_spec now (default 0 (xpCooldowns w !! JS.before_at (sender msg))));
    [lia|].
  unfold addXP_apply, LevelManager.getUserData, bind, Db.get, Db.set, ret, throw.
  cbn [mem]. rewrite Hrec. cbn [JS.truthy_ostr]. rewrite Hg.
  destruct (shown_name msg) as [p|];
    [destruct (JS.truthy_str p
               && negb (ostr_eqb (stored_pushName (SAdv a pn adv)) (Some p)))|];
    cbn [fst snd mem xpCooldowns rpos set_pushName].
  all: split; [reflexivity|].
  all: split; [eexists; first [apply lookup_insert_eq | exact Hrec]|].
  all: split; [apply lookup_insert_eq | reflexivity].
Qed.

(** Alice buys a wooden sword, then writes in a group. *)
Lemma message_on_replaced_record_witness :
  let a := Sample.profile 1 0 100 [] Sample.no_equipment Sample.no_cooldowns in
  let w1 := world (buyItem Sample.catalog 5000 "alice" "sword_1"
                     (Sample.world_of (Sample.store_with a) [] [])) in
  fst (processMessage Sample.config (fun _ => None) 6000
         (mkMessage (Some "alice@s.whatsapp.net") "club@g.us" None)
         Sample.hey w1)
  = Throw TypeError.
Proof.
  cbn zeta.
  refine (proj1 (message_on_replaced_record Sample.config (fun _ => None) 6000
                   (mkMessage (Some "alice@s.whatsapp.net") "club@g.us" None)
                   Sample.hey _
                   (purchased
                      (Sample.profile 1 0 100 [] Sample.no_equipment
                                      Sample.no_cooldowns)
                      "sword_1" Sample.sword_1) None None _ eq_refl _ _)).
  - repeat split; reflexivity.
  - vm_compute. reflexivity.
  - vm_compute. discriminate.
Defined.

End Replaced.

(** * Quests *)

Section Quests.

Import AdventureManager.

Context {engine : Math.Pow}.

Lemma steady_bind {A B} (m : H A) (k : A -> H B) :
  steady m -> (forall x, steady (k x)) -> steady (bind m k).
Proof.
  intros Hm Hk s Hs. unfold bind. specialize (Hm s Hs).
  destruct (m s) as [[x|x] s1]; cbn [snd] in *; [|exact Hm].
  exact (Hk x s1 Hm).
Qed.

Lemma steady_ret {A} (x : A) : steady (ret x).
Proof. intros s Hs. exact Hs. Qed.

Lemma steady_throw {A} (x : Exn) : steady (@throw _ A x).
Proof. intros s Hs. exact Hs. Qed.

Lemma steady_get_obj : steady get_obj.
Proof. intros s Hs. exact Hs. Qed.

Lemma steady_modify_obj (f : Adventure -> Adventure) :
  (forall a, questsCompleted (f a) = questsCompleted a) ->
  steady (modify_obj f).
Proof.
  intros Hf [a w] [H1 H2]. split; [|exact H2]. cbn [fst snd modify_obj] in *.
  now rewrite Hf.
Qed.

Lemma iter_level_up_quests (k : nat) (a : Adventure) :
  questsCompleted (Nat.iter k level_up a) = questsCompleted a.
Proof.
  induction k as [|k IH]; [reflexivity|]. rewrite Nat.iter_succ. exact IH.
Qed.

Lemma steady_addXP_obj (x : Z) : steady (addXP_obj x).
Proof.
  intros [a w] [H1 H2]. unfold addXP_obj. cbn [fst snd] in *.
  destruct (addXP_iter a x) as (k & _ & E). rewrite E. cbn [fst snd].
  split; [|exact H2]. cbn [fst]. now rewrite iter_level_up_quests.
Qed.

Lemma steady_liftW {A} (m : M World A) :
  (forall w, mem (snd (m w)) = mem w) -> steady (liftW m).
Proof.
  intros Hm [a w] [H1 H2]. unfold liftW. cbn [fst snd] in *.
  specialize (Hm w). destruct (m w) as [o w1]. unfold quests_open.
  cbn [fst snd] in *. split; [exact H1 | now rewrite Hm].
Qed.

Lemma steady_random : steady (liftW random).
Proof. now apply steady_liftW. Qed.

Lemma steady_select (cat : Catalog) (location : Location) (level : Z) :
  steady (liftW (_selectMonsterForLocation cat location level)).
Proof.
  apply steady_liftW. intros w. rewrite selectMonster_run. now case_match.
Qed.

Lemma steady_catching {A} (m : H A) (r : A) : steady m -> steady (catching m r).
Proof.
  intros Hm s Hs. unfold catching. specialize (Hm s Hs).
  now destruct (m s) as [[x|x] s1].
Qed.

Lemma quests_open_insert (m : gmap string Stored) (k : string) (e : Stored) :
  quests_open_store m ->
  (forall a, stored_adventure e = Some a -> questsCompleted a = []) ->
  quests_open_store (<[k := e]> m).
Proof.
  intros Hm He k' e' a'. destruct (decide (k' = k)) as [->|Hne].
  - rewrite lookup_insert_eq. intros [= <-]. apply He.
  - rewrite lookup_insert_ne by congruence. apply Hm.
Qed.

Lemma steady_write_back_bare (jid : string) : steady (write_back_bare jid).
Proof.
  intros [a w] [H1 H2]. rewrite write_back_bare_run. cbn [fst snd mem] in *.
  split; [exact H1|]. apply quests_open_insert; [exact H2|]. discriminate.
Qed.

Lemma LM_getUserData_open (now : Z) (userId : string) (w : World) :
  quests_open_store (mem w) ->
  exists e w1,
    LevelManager.getUserData now userId None w = (Ret e, w1)
    /\ quests_open_store (mem w1)
    /\ (forall a, stored_adventure e = Some a -> questsCompleted a = []).
Proof.
  intros Hw. unfold LevelManager.getUserData, bind, Db.get, Db.set, ret.
  destruct (mem w !! JS.before_at userId) as [e|] eqn:He.
  - exists e, w. split; [reflexivity|]. split; [exact Hw|].
    intros a. exact (Hw _ e a He).
  - eexists _, _. split; [reflexivity|]. cbn [mem]. split; [|discriminate].
    apply quests_open_insert; [exact Hw | discriminate].
Qed.

Lemma steady_write_back_adventure (now : Z) (jid : string) :
  steady (write_back_adventure now jid).
Proof.
  intros [a w] [H1 H2]. cbn [fst snd] in *.
  destruct (LM_getUserData_open now (JS.before_at jid) w H2)
    as (e & w1 & Hget & Hw1 & He).
  unfold write_back_adventure, updateAdventureData, updateUserData, liftW,
    get_obj, bind, ret. cbn [fst snd]. rewrite Hget.
  unfold LevelManager.saveData, Db.save, Db.set, quests_open.
  cbn [fst snd mem disk xpCooldowns rnd rpos flush_ok fpos].
  assert (quests_open_store
            (<[JS.before_at jid := set_stored_adventure e a]> (mem w1))) as Hq.
  { apply quests_open_insert; [exact Hw1|].
    intros a0. rewrite stored_adventure_set. now intros [= <-]. }
  destruct (flush_ok w1 (fpos w1)); cbn [fst snd mem]; split; assumption.
Qed.

Lemma getUserData_open (now : Z) (jid : string) (w : World) :
  quests_open_store (mem w) ->
  quests_open_store (mem (snd (getUserData now jid w)))
  /\ forall a, fst (getUserData now jid w) = Ret a -> questsCompleted a = [].
Proof.
  intros Hw.
  destruct (LM_getUserData_open now (JS.before_at jid) w Hw)
    as (e & w1 & Hget & Hw1 & He).
  assert (getUserData now jid w
          = match stored_adventure e with
            | Some a => (Ret a, w1)
            | None =>
                bind (updateUserData jid
                        (set_stored_adventure e
                           (_createDefaultAdventureData now e)))
                     (fun _ => ret (_createDefaultAdventureData now e)) w1
            end) as ->.
  { unfold getUserData. unfold bind at 1. rewrite Hget.
    now destruct (stored_adventure e). }
  destruct (stored_adventure e) as [a|] eqn:Ha.
  - unfold ret. cbn [fst snd]. split; [exact Hw1|].
    intros a0 Heq. injection Heq as <-. now apply He.
  - unfold updateUserData, LevelManager.saveData, Db.save, Db.set, bind, ret.
    cbn [fst snd mem disk xpCooldowns rnd rpos flush_ok fpos].
    assert (quests_open_store
              (<[JS.before_at jid :=
                   set_stored_adventure e (_createDefaultAdventureData now e)]>
                 (mem w1))) as Hq.
    { apply quests_open_insert; [exact Hw1|].
      intros a0. rewrite stored_adventure_set. now intros [= <-]. }
    destruct (flush_ok w1 (fpos w1)); cbn [fst snd mem];
      (split; [exact Hq|]); [|discriminate].
    intros a0 Heq. now injection Heq as <-.
Qed.

End Quests.

Ltac steady_step :=
  lazymatch goal with
  | |- steady (ret _) => apply steady_ret
  | |- steady (throw _) => apply steady_throw
  | |- steady AdventureManager.get_obj => apply steady_get_obj
  | |- steady (AdventureManager.addXP_obj _) => apply steady_addXP_obj
  | |- steady (AdventureManager.liftW random) => apply steady_random
  | |- steady (AdventureManager.liftW
                 (AdventureManager._selectMonsterForLocation _ _ _)) =>
      apply steady_select
  | |- steady (AdventureManager.write_back_bare _) =>
      apply steady_write_back_bare
  | |- steady (AdventureManager.write_back_adventure _ _) =>
      apply steady_write_back_adventure
  | |- steady (AdventureManager.catching _ _) => apply steady_catching
  | |- steady (AdventureManager.modify_obj _) =>
      apply steady_modify_obj; intros ?;
      unfold AdventureManager._removeItemFromInventory,
        AdventureManager.boost_stat;
      repeat case_match; reflexivity
  | |- steady (bind _ _) => apply steady_bind; [| intros ?]
  | |- steady (if ?c then _ else _) => destruct c eqn:?
  | |- steady (match ?c with _ => _ end) => destruct c eqn:?
  | |- steady (let _ := _ in _) => cbv zeta
  end.

Section QuestsOpen.

Import AdventureManager.

Context {engine : Math.Pow}.

Variables (cat : Catalog) (now : Z) (jid : string).

Lemma steady_hunt_body : steady (hunt_body cat now jid).
Proof.
  unfold hunt_body, _monsterEncounter, _handleCombatVictory,
    _handleCombatDefeat, _findTreasure.
  repeat steady_step.
Qed.

Lemma steady_train_body : steady (train_body now jid).
Proof. unfold train_body. repeat steady_step. Qed.

Lemma steady_claimDaily_body : steady (claimDaily_body now jid).
Proof. unfold claimDaily_body. repeat steady_step. Qed.

Lemma steady_buyItem_body (itemId : string) : steady (buyItem_body cat jid itemId).
Proof. unfold buyItem_body. repeat steady_step. Qed.

Lemma steady_equipItem_body (itemId : string) :
  steady (equipItem_body cat jid itemId).
Proof. unfold equipItem_body, _useConsumable. repeat steady_step. Qed.

Lemma steady_travel_body (locationId : string) :
  steady (travel_body cat jid locationId).
Proof. unfold travel_body. repeat steady_step. Qed.

Lemma run_handler_open (body : H Result) (err : Result) (w : World) :
  steady body -> quests_open_store (mem w) ->
  quests_open_store (mem (world (run_handler now jid body err w)))
  /\ forall a', object (run_handler now jid body err w) = Some a' ->
                questsCompleted a' = [].
Proof.
  intros Hb Hw. unfold run_handler.
  destruct (getUserData_open now jid w Hw) as [Hw1 Ha].
  destruct (getUserData now jid w) as [[a|x] w1]; cbn [fst snd] in *;
    [|split; [exact Hw1 | discriminate]].
  specialize (Hb (a, w1) (conj (Ha a eq_refl) Hw1)).
  destruct (body (a, w1)) as [[r|x] [a' w2]]; cbn [fst snd world object] in *;
    destruct Hb as [Hb1 Hb2]; (split; [exact Hb2|]); now intros a0 [= <-].
Qed.

(** X23. No command completes a quest.  [questsCompleted] is empty in a
    new profile and no handler writes it: if no profile in the store
    lists a completed quest, the same holds after [hunt], [train],
    [claimDaily], [buyItem], [equipItem] and [travel], of the store and of
    the profile in hand, whatever the draws and the saves do.  So
    [getAvailableQuests] answers, for a user whose profile it can get,
    every quest without a level requirement or with one the profile's
    level meets. *)
Theorem quests_stay_open (itemId locationId : string)
    (quests : list (string * Quest)) (w : World) :
  quests_open_store (mem w) ->
  (forall run,
     In run [hunt cat now jid w; train now jid w; claimDaily now jid w;
             buyItem cat now jid itemId w; equipItem cat now jid itemId w;
             travel cat now jid locationId w] ->
     quests_open_store (mem (world run))
     /\ forall a', object run = Some a' -> questsCompleted a' = [])
  /\ (forall a w1,
        getUserData now jid w = (Ret a, w1) ->
        getAvailableQuests quests now jid w
        = ((true,
            List.filter (fun e =>
                negb (JS.truthy_onum (quest_minLevel (snd e)))
                || (default 0 (quest_minLevel (snd e)) <=? adv_level a))
              quests), w1)
        /\ quests_open_store (mem w1)).
Proof.
  intros Hw. split.
  - intros run Hin. cbn [In] in Hin.
    destruct Hin as [<- | [<- | [<- | [<- | [<- | [<- | []]]]]]];
      apply run_handler_open; try exact Hw.
    + apply steady_hunt_body.
    + apply steady_train_body.
    + apply steady_claimDaily_body.
    + apply steady_buyItem_body.
    + apply steady_equipItem_body.
    + apply steady_travel_body.
  - intros a w1 Hget. destruct (getUserData_open now jid w Hw) as [Hw1 Ha].
    rewrite Hget in Hw1, Ha. cbn [fst snd] in Hw1, Ha.
    split; [|exact Hw1].
    unfold getAvailableQuests. rewrite Hget, (Ha a eq_refl). cbn [existsb negb].
    do 2 f_equal. apply List.filter_ext. intros e. now rewrite andb_true_r.
Qed.

End QuestsOpen.

Section QuestsOpenExamples.

#[local] Existing Instance sample_engine.

(** Bob, a new user, claims the daily reward; at level 1 the first
    quest is available and the second, for level 2, is not. *)
Lemma quests_stay_open_witness :
  map fst (snd (fst (AdventureManager.getAvailableQuests Sample.quests 6000 "bob"
                       (AdventureManager.world
                          (AdventureManager.claimDaily 5000 "bob"
                             (Sample.world_of ∅ [] []))))))
  = ["q1"].
Proof.
  assert (quests_open_store (mem (Sample.world_of ∅ [] []))) as H0.
  { intros k e a He. vm_compute in He. discriminate. }
  destruct (quests_stay_open Sample.catalog 5000 "bob" "" "" Sample.quests
              (Sample.world_of ∅ [] []) H0) as (Hrun & _).
  destruct (Hrun (AdventureManager.claimDaily 5000 "bob" (Sample.world_of ∅ [] []))
              ltac:(cbn; tauto)) as (H1 & _).
  destruct (quests_stay_open Sample.catalog 6000 "bob" "" "" Sample.quests
              _ H1) as (_ & Hq).
  destruct (AdventureManager.getUserData 6000 "bob"
              (AdventureManager.world
                 (AdventureManager.claimDaily 5000 "bob"
                    (Sample.world_of ∅ [] [])))) as [[a|x] w2] eqn:Hget.
  - rewrite (proj1 (Hq a w2 eq_refl)).
    vm_compute in Hget. injection Hget as <- _. reflexivity.
  - vm_compute in Hget. discriminate.
Defined.

End QuestsOpenExamples.
